(** * MLDeform: the runtime deformer node ([MLDeform/_maya/deformer.py])

    A shallow embedding of [MLDeformerNode]: the normalisation codec
    ([normalize_transform], [denormalize_prediction]), the model registry
    ([loadModels]), the per-joint dispatch and scatter loop and the blend
    loop of [deform], and the dirty flag driven by [preEvaluation] and
    [setDependentsDirty].

    Numbers are IEEE 754 binary64 values, as numpy's float64 and Python's
    float are: [spec_float] with the operations of the Standard Library's
    [SpecFloat] at precision 53 and maximal exponent 1024.  numpy arrays of
    rank one are lists of such values; exceptions are values of [exn];
    attribute writes on [self], log records and calls into the host or the
    TensorFlow runtime are threaded through a state-and-exception monad.

    The manifest is taken parsed and typed: a document with optional keys,
    entries that are [null] or objects with optional fields, vertex
    indices that are natural numbers (the writer takes them from
    [range(mesh.numVertices)]).  The file system, the TensorFlow runtime
    and the values the host hands to an evaluation are parameters.

    The tools that prepare what the node loads follow: the root joints and
    the one-influence weights of [MLDeform/_maya/skinning.py], the joint
    map and the rows of [MLDeform/_maya/writer.py], and the layers of
    [get_model] in [MLDeform/_training/train.py]. *)

From Stdlib Require Import ZArith Bool Lia.
From Stdlib Require Import SpecFloat.
From stdpp Require Import base option list gmap strings pretty.

(** ** binary64 arithmetic *)

Module F64.

Definition prec : Z := 53.
Definition emax : Z := 1024.

Abbreviation float := spec_float.

Definition add : float -> float -> float := SFadd prec emax.
Definition sub : float -> float -> float := SFsub prec emax.
Definition mul : float -> float -> float := SFmul prec emax.
Definition div : float -> float -> float := SFdiv prec emax.
Definition opp : float -> float := SFopp.

(** [0.0], and the integer [z] as a double. *)
Definition zero : float := S754_zero false.
Definition of_Z (z : Z) : float := binary_normalize prec emax z 0 false.

(** [sys.float_info.max], 1.7976931348623157e308. *)
Definition max_float : float := Eval cbv in SFmax_float prec emax.

Definition is_nan (x : float) : bool :=
  match x with S754_nan => true | _ => false end.

Definition is_inf (x : float) : bool :=
  match x with S754_infinity _ => true | _ => false end.

(** Neither NaN nor an infinity. *)
Definition is_finite (x : float) : bool :=
  match x with
  | S754_zero _ | S754_finite _ _ _ => true
  | S754_infinity _ | S754_nan => false
  end.

(** [x == y] on Python floats. *)
Definition eqb : float -> float -> bool := SFeqb.

(** [x == 0.0] in Python: both signed zeros. *)
Definition is_zero (x : float) : bool :=
  match x with S754_zero _ => true | _ => false end.

(** The sign bit of a number ([true] is negative). *)
Definition sign (x : float) : bool :=
  match x with
  | S754_zero s | S754_infinity s | S754_finite s _ _ => s
  | S754_nan => false
  end.

(** The same number: identical, or two zeros ([-0.0 == 0.0]). *)
Definition same_number (x y : float) : Prop :=
  x = y \/ (is_zero x = true /\ is_zero y = true).

(** [numpy.nan_to_num] on one element, with its default arguments: NaN
    becomes [0.0], and an infinity becomes the finite double of largest
    magnitude and the same sign. *)
Definition nan_to_num (x : float) : float :=
  match x with
  | S754_nan => zero
  | S754_infinity false => max_float
  | S754_infinity true => opp max_float
  | _ => x
  end.

(** The finite double of largest magnitude with sign bit [s]. *)
Definition signed_max (s : bool) : float :=
  if s then opp max_float else max_float.

(** A number other than zero: finite and not zero, or an infinity. *)
Definition is_nonzero_number (x : float) : bool :=
  match x with
  | S754_finite _ _ _ | S754_infinity _ => true
  | S754_zero _ | S754_nan => false
  end.

End F64.

Abbreviation float := spec_float.

(** ** Exceptions and results *)

Inductive exn : Type :=
  | IOError        (* [open] on a path that cannot be opened *)
  | ValueError     (* numpy shape mismatch, [json.load] on a bad document *)
  | KeyError       (* missing dictionary key *)
  | IndexError     (* list or array index out of range *)
  | TypeError      (* arithmetic on [None] *)
  | RuntimeError.  (* raised inside the TensorFlow runtime *)

Inductive result (A : Type) : Type :=
  | Ok (a : A)
  | Raise (e : exn).
Arguments Ok {A} a.
Arguments Raise {A} e.

Definition rbind {A B} (r : result A) (f : A -> result B) : result B :=
  match r with
  | Ok a => f a
  | Raise e => Raise e
  end.

Notation "'let+' x ':=' r 'in' k" := (rbind r (fun x => k))
  (at level 10, x name, r at level 100, k at level 200, only parsing).

Definition is_ok {A} (r : result A) : bool :=
  match r with Ok _ => true | Raise _ => false end.

(** ** One-dimensional numpy arrays *)

Abbreviation ndarray := (list float).

(** [numpy.zeros(n)] *)
Definition np_zeros (n : nat) : ndarray := replicate n F64.zero.

(** [a[start:stop]] for non-negative bounds: both are clamped to the
    length, and the slice is empty when [stop <= start]. *)
Definition py_slice {A} (a : list A) (start stop : nat) : list A :=
  take (stop - start) (drop start a).

(** An element-wise binary operator with numpy's broadcasting of rank-one
    operands: equal lengths pair up, a one-element operand is repeated, any
    other combination raises [ValueError]. *)
Definition np_binop (f : float -> float -> float) (a b : ndarray)
  : result ndarray :=
  if decide (length a = length b) then Ok (zip_with f a b)
  else match a, b with
       | _, [y] => Ok (map (fun x => f x y) a)
       | [x], _ => Ok (map (f x) b)
       | _, _ => Raise ValueError
       end.

(** The same operator when an operand may be [None] (an attribute of a
    model that was loaded without bounds): [TypeError]. *)
Definition np_binop_opt (f : float -> float -> float)
    (a b : option ndarray) : result ndarray :=
  match a, b with
  | Some a, Some b => np_binop f a b
  | _, _ => Raise TypeError
  end.

Definition np_nan_to_num (a : ndarray) : ndarray := map F64.nan_to_num a.

(** [a[start:stop] = src]: the slice is overwritten in place.  [src] must
    have the length of the slice or a single element (repeated); otherwise
    numpy raises [ValueError] and [a] is untouched. *)
Definition np_set_slice (a : ndarray) (start stop : nat) (src : ndarray)
  : result ndarray :=
  let n := length (py_slice a start stop) in
  if decide (length src = n) then
    Ok (take start a ++ src ++ drop (start + n) a)
  else match src with
       | [x] => Ok (take start a ++ replicate n x ++ drop (start + n) a)
       | _ => Raise ValueError
       end.

(** ** The loaded model record

    [TFModel] is the named tuple of the source.  Graphs and sessions are
    handles into the TensorFlow runtime, tensors are known by name; the
    four bounds are [None] for a model that was not normalised. *)

Definition Session : Type := nat.
Definition Tensor : Type := string.

Record TFModel : Type := mkTFModel {
  graph : Session;
  session : Session;
  input_tensor : Tensor;
  output_tensor : Tensor;
  vertices : list nat;
  normalized : bool;
  trans_max : option ndarray;
  trans_min : option ndarray;
  verts_max : option ndarray;
  verts_min : option ndarray;
}.

(** ** Normalisation codec on array values *)

(** The rescaling of one translation component. *)
Definition rescale (t lo hi : float) : float :=
  F64.div (F64.sub t lo) (F64.sub hi lo).

(** Two equal bounds whose difference [hi - lo] is [-0.0] and not [0.0]:
    [hi = -0.0] and [lo = 0.0]. *)
Definition negative_width (hi lo : float) : bool :=
  match hi, lo with
  | S754_zero true, S754_zero false => true
  | _, _ => false
  end.

(** The contents of [array] after [normalize_transform(array, model)]:
<<
    trans = array[-3:]
    trans = (trans - t_min) / (t_max - t_min)
    trans = np.nan_to_num(trans)
    array[-3:] = trans
>> *)
Definition normalize_values (array : ndarray) (model : TFModel)
  : result ndarray :=
  let t_max := trans_max model in
  let t_min := trans_min model in
  let n := length array in
  let trans := py_slice array (n - 3) n in
  let+ num := np_binop_opt F64.sub (Some trans) t_min in
  let+ den := np_binop_opt F64.sub t_max t_min in
  let+ trans := np_binop F64.div num den in
  let trans := np_nan_to_num trans in
  np_set_slice array (n - 3) n trans.

(** The array returned by [denormalize_prediction(prediction, model)]:
<<
    prediction = (prediction * (v_max - v_min)) + v_min
    prediction = np.nan_to_num(prediction)
>> *)
Definition denormalize_values (prediction : ndarray) (model : TFModel)
  : result ndarray :=
  let v_max := verts_max model in
  let v_min := verts_min model in
  let+ width := np_binop_opt F64.sub v_max v_min in
  let+ scaled := np_binop F64.mul prediction width in
  let+ shifted := np_binop_opt F64.add (Some scaled) v_min in
  Ok (np_nan_to_num shifted).

(** ** State and exceptions

    A computation reads and updates a state and either returns a value or
    raises; the state reached when an exception is raised is kept, as the
    attribute writes made before a Python exception are. *)

Definition M (S A : Type) : Type := S -> result A * S.

Definition ret {S A} (a : A) : M S A := fun s => (Ok a, s).

Definition raise {S A} (e : exn) : M S A := fun s => (Raise e, s).

Definition bind {S A B} (m : M S A) (f : A -> M S B) : M S B :=
  fun s =>
    match m s with
    | (Ok a, s') => f a s'
    | (Raise e, s') => (Raise e, s')
    end.

Definition lift {S A} (r : result A) : M S A := fun s => (r, s).

Definition gets {S A} (f : S -> A) : M S A := fun s => (Ok (f s), s).

Definition modify {S} (f : S -> S) : M S unit := fun s => (Ok tt, f s).

Notation "'let*' x ':=' m 'in' k" := (bind m (fun x => k))
  (at level 10, x name, m at level 100, k at level 200, only parsing).

(** [for x in xs: acc = body(x, acc)], stopping at the first exception. *)
Fixpoint for_each {S A B} (xs : list A) (body : A -> B -> M S B) (acc : B)
  : M S B :=
  match xs with
  | [] => ret acc
  | x :: xs' => let* acc' := body x acc in for_each xs' body acc'
  end.

(** ** The codec on array objects

    numpy arrays are mutable objects.  A [heap] maps array references to
    array contents; [normalize_transform] and [denormalize_prediction] take
    and return references. *)

Abbreviation heap := (gmap nat ndarray).

(** Reading the contents behind a reference. *)
Definition np_read (r : nat) : M heap ndarray :=
  fun h => match h !! r with
           | Some a => (Ok a, h)
           | None => (Raise TypeError, h)
           end.

(** A new array object. *)
Definition np_alloc (a : ndarray) : M heap nat :=
  fun h => let r := fresh (dom h) in (Ok r, <[r := a]> h).

(** [r[start:stop] = src] on the object behind [r]. *)
Definition np_store_slice (r start stop : nat) (src : ndarray)
  : M heap unit :=
  let* a := np_read r in
  let* a' := lift (np_set_slice a start stop src) in
  modify (insert r a').

Definition normalize_transform (array : nat) (model : TFModel) : M heap nat :=
  let t_max := trans_max model in
  let t_min := trans_min model in
  let* a := np_read array in
  let n := length a in
  let trans := py_slice a (n - 3) n in
  let* num := lift (np_binop_opt F64.sub (Some trans) t_min) in
  let* den := lift (np_binop_opt F64.sub t_max t_min) in
  let* trans := lift (np_binop F64.div num den) in
  let trans := np_nan_to_num trans in
  let* _ := np_store_slice array (n - 3) n trans in
  ret array.

Definition denormalize_prediction (prediction : nat) (model : TFModel)
  : M heap nat :=
  let v_max := verts_max model in
  let v_min := verts_min model in
  let* p := np_read prediction in
  let* width := lift (np_binop_opt F64.sub v_max v_min) in
  let* scaled := lift (np_binop F64.mul p width) in
  let* shifted := lift (np_binop_opt F64.add (Some scaled) v_min) in
  let* prediction := np_alloc (np_nan_to_num shifted) in
  ret prediction.

(** ** The host and the runtime seen from the node *)

(** An [MPoint]. *)
Record Point : Type := mkPoint { px : float; py : float; pz : float }.

(** A joint's world matrix, as [MTransformationMatrix] decomposes it: the
    rotation quaternion and the world-space translation. *)
Record Matrix : Type := mkMatrix {
  rot_x : float; rot_y : float; rot_z : float; rot_w : float;
  tr_x : float; tr_y : float; tr_z : float;
}.

(** The attributes of the node that a plug can name. *)
Inductive Plug : Type :=
  | data_loc | in_mats | envelopeAttr | weightsAttr | outputGeomAttr.

Global Instance Plug_eq_dec : EqDecision Plug.
Proof. solve_decision. Defined.

(** The data block of one evaluation: the values the host hands to
    [deform] through [data], the input mesh and [weightValue]. *)
Record DataBlock : Type := mkDataBlock {
  trainingData : string;          (* data.inputValue(data_loc).asString() *)
  envelope : float;               (* data.inputValue(envelopeAttr).asFloat() *)
  matrices : list Matrix;         (* data.inputArrayValue(in_mats) *)
  numVertices : nat;              (* MFnMesh(mesh).numVertices() *)
  weightValue : nat -> float;     (* self.weightValue(data, geometryIndex, index) *)
}.

(** One entry of ["models"] in the manifest, a JSON object; a field is
    [None] when the key is absent.  [e_other] holds the keys of the object
    that [loadModels] does not read, such as the ["plot"] that the
    training script writes. *)
Record ModelEntry : Type := mkModelEntry {
  e_root : option string;
  e_meta : option string;
  e_input : option string;
  e_output : option string;
  e_normalized : option bool;
  e_trans_max : option ndarray;
  e_trans_min : option ndarray;
  e_verts_max : option ndarray;
  e_verts_min : option ndarray;
  e_other : list string;
}.

(** One for a key that the object has, none for a key it lacks. *)
Definition present {A} (field : option A) : nat :=
  match field with
  | Some _ => 1
  | None => 0
  end.

(** [len(model)] on an entry that is an object: the number of its keys. *)
Definition key_count (model : ModelEntry) : nat :=
  present (e_root model) + present (e_meta model)
  + present (e_input model) + present (e_output model)
  + present (e_normalized model)
  + present (e_trans_max model) + present (e_trans_min model)
  + present (e_verts_max model) + present (e_verts_min model)
  + length (e_other model).

(** [not model] on an entry of ["models"]: Python takes [None] and a
    dictionary without keys for false. *)
Definition py_not (model : option ModelEntry) : bool :=
  match model with
  | None => true
  | Some model => bool_decide (key_count model = 0)
  end.

(** The entry that [if not model: ...; continue] lets through. *)
Definition nonempty (model : option ModelEntry) : option ModelEntry :=
  if py_not model then None else model.

(** The manifest document: ["models"] (entries or [null]) and
    ["joint_map"], each [None] when the key is absent. *)
Record Manifest : Type := mkManifest {
  m_models : option (list (option ModelEntry));
  m_joint_map : option (list (list nat));
}.

(** What a path names on disk. *)
Inductive file : Type :=
  | Missing                    (* no such file *)
  | Unparsable                 (* a file that is not a JSON document *)
  | Json (doc : Manifest).

(** The TensorFlow runtime: restoring a saved graph into a new session,
    naming a tensor of a session's graph, running a session. *)
Record TFRuntime : Type := mkTFRuntime {
  tf_restore : option string -> option string -> result Session;
  tf_get_tensor : Session -> string -> result Tensor;
  tf_run : Session -> Tensor -> Tensor -> list ndarray -> result (list ndarray);
}.

(** What an evaluation does that the outside can see. *)
Inductive event : Type :=
  | LogInfo (msg : string)
  | LogError (msg : string)
  | OpenFile (path : string)
  | RestoreGraph (meta root : option string)
  | JumpToElement (i : nat)
  | SessionRun (s : Session) (input : list ndarray).

(** ** The node *)

Record Node : Type := mkNode {
  data_location : option string;
  location_changed : bool;
  models : list (option TFModel);
}.

(** The node, the record of events so far, and the geometry iterator's
    components (vertex index and position). *)
Record World : Type := mkWorld {
  self : Node;
  trace : list event;
  geometry : list (nat * Point);
}.

(** [MLDeformerNode.__init__] *)
Definition init : Node :=
  {| data_location := None; location_changed := true; models := [] |}.

Definition set_data_location (v : option string) : M World unit :=
  modify (fun w =>
    mkWorld (mkNode v (location_changed (self w)) (models (self w)))
            (trace w) (geometry w)).

Definition set_location_changed (v : bool) : M World unit :=
  modify (fun w =>
    mkWorld (mkNode (data_location (self w)) v (models (self w)))
            (trace w) (geometry w)).

Definition set_models (v : list (option TFModel)) : M World unit :=
  modify (fun w =>
    mkWorld (mkNode (data_location (self w)) (location_changed (self w)) v)
            (trace w) (geometry w)).

(** [self.models.append(v)] *)
Definition append_model (v : option TFModel) : M World unit :=
  let* ms := gets (fun w => models (self w)) in
  set_models (ms ++ [v]).

Definition emit (e : event) : M World unit :=
  modify (fun w => mkWorld (self w) (trace w ++ [e]) (geometry w)).

(** [d[key]] on a JSON object. *)
Definition getitem {A} (field : option A) : result A :=
  match field with
  | Some v => Ok v
  | None => Raise KeyError
  end.

(** [l[i]] on a list. *)
Definition index_list {A} (l : list A) (i : nat) : result A :=
  match l !! i with
  | Some v => Ok v
  | None => Raise IndexError
  end.

(** [enumerate(l)] *)
Definition enumerate {A} (l : list A) : list (nat * A) :=
  zip (seq 0 (length l)) l.

Section Deformer.

(** The file system and the TensorFlow runtime the node runs against. *)
Variable fs : string -> file.
Variable tf : TFRuntime.

(** [os.path.exists(path)] *)
Definition path_exists (path : string) : bool :=
  match fs path with
  | Missing => false
  | _ => true
  end.

(** [with open(path, 'r') as f: data = json.load(f)] *)
Definition open_json (path : string) : M World Manifest :=
  let* _ := emit (OpenFile path) in
  match fs path with
  | Missing => raise IOError
  | Unparsable => raise ValueError
  | Json doc => ret doc
  end.

(** The body of [loadModels]'s loop for an entry that is not empty: the
    vertex list of slot [i], the restored session, the two tensors, and
    the bounds when the entry is normalised. *)
Definition load_model (data : Manifest) (i : nat) (model : ModelEntry)
  : M World TFModel :=
  let* joint_map := lift (getitem (m_joint_map data)) in
  let* vertices := lift (index_list joint_map i) in
  let meta := e_meta model in
  let root := e_root model in
  let* _ := emit (RestoreGraph meta root) in
  let* session := lift (tf_restore tf meta root) in
  let* input := lift (getitem (e_input model)) in
  let* in_tensor := lift (tf_get_tensor tf session input) in
  let* output := lift (getitem (e_output model)) in
  let* out_tensor := lift (tf_get_tensor tf session output) in
  let* normalized := lift (getitem (e_normalized model)) in
  let* bounds :=
    if normalized then
      let* trans_max := lift (getitem (e_trans_max model)) in
      let* trans_min := lift (getitem (e_trans_min model)) in
      let* verts_max := lift (getitem (e_verts_max model)) in
      let* verts_min := lift (getitem (e_verts_min model)) in
      ret (Some verts_max, Some verts_min, Some trans_max, Some trans_min)
    else ret (None, None, None, None) in
  let '(verts_max, verts_min, trans_max, trans_min) := bounds in
  ret {| graph := session; session := session;
         input_tensor := in_tensor; output_tensor := out_tensor;
         vertices := vertices; normalized := normalized;
         trans_max := trans_max; trans_min := trans_min;
         verts_max := verts_max; verts_min := verts_min |}.

(** One iteration of [for i, model in enumerate(models)]: an entry that
    is [null] or an object without keys gives an empty slot. *)
Definition load_slot (data : Manifest) (slot : nat * option ModelEntry)
    (_ : unit) : M World unit :=
  let '(i, model) := slot in
  match nonempty model with
  | None => append_model None
  | Some model =>
      let* tfmodel := load_model data i model in
      append_model (Some tfmodel)
  end.

Definition loadModels (path : string) : M World unit :=
  let* _ := emit (LogInfo ("Loading models from " +:+ path)) in
  let* _ := set_data_location None in
  let* _ := set_models [] in
  let* cached := gets (fun w => data_location (self w)) in
  if decide (Some path = cached) then ret tt
  else
    let* _ :=
      if path_exists path then ret tt
      else emit (LogError ("Could not find file: " +:+ path)) in
    let* _ := set_data_location (Some path) in
    let* data := open_json path in
    match m_models data with
    | None => emit (LogError "No models defined in data")
    | Some models => for_each (enumerate models) (load_slot data) tt
    end.

(** Lines 144 to 177 of [deform]: the seven values of the joint, the
    normalisation, the model's run and the denormalisation of its first
    output row.  [values] and [prediction] are arrays created in this
    iteration and named by nothing else, so the calls of
    [normalize_transform] and [denormalize_prediction] are taken by the
    contents they leave and return ([normalize_transform_values],
    [denormalize_prediction_values]). *)
Definition predict (model : TFModel) (matrix : Matrix) : M World ndarray :=
  let values := [rot_x matrix; rot_y matrix; rot_z matrix; rot_w matrix;
                 tr_x matrix; tr_y matrix; tr_z matrix] in
  let* values :=
    if normalized model then lift (normalize_values values model)
    else ret values in
  let array := [values] in
  let* _ := emit (SessionRun (session model) array) in
  let* results :=
    lift (tf_run tf (session model) (output_tensor model)
                 (input_tensor model) array) in
  let* prediction := lift (index_list results 0) in
  if normalized model then lift (denormalize_values prediction model)
  else ret prediction.

(** [for index, vtx in enumerate(model.vertices):
       deltas[vtx * 3:(vtx * 3) + 3] = prediction[index * 3:(index * 3) + 3]],
    from position [index] on. *)
Fixpoint scatter (index : nat) (vs : list nat) (prediction deltas : ndarray)
  : result ndarray :=
  match vs with
  | [] => Ok deltas
  | vtx :: vs' =>
      let+ deltas' :=
        np_set_slice deltas (vtx * 3) (vtx * 3 + 3)
          (py_slice prediction (index * 3) (index * 3 + 3)) in
      scatter (S index) vs' prediction deltas'
  end.

(** One iteration of [for i in range(matricesCount)]. *)
Definition dispatch_slot (data : DataBlock) (numModels : nat) (i : nat)
    (deltas : ndarray) : M World ndarray :=
  if decide (numModels <= i) then ret deltas
  else
    let* model := gets (fun w => models (self w) !! i) in
    match model with
    | None => raise IndexError
    | Some None => ret deltas
    | Some (Some model) =>
        let* _ := emit (JumpToElement i) in
        let* matrix := lift (index_list (matrices data) i) in
        let* prediction := predict model matrix in
        lift (scatter 0 (vertices model) prediction deltas)
    end.

(** The body of the blend loop for one component of the iterator. *)
Definition blend_point (data : DataBlock) (deltas : ndarray)
    (index : nat) (pos : Point) : result Point :=
  let weight := weightValue data index in
  let delta := py_slice deltas (index * 3) (index * 3 + 3) in
  let delta :=
    map (fun d => F64.mul (F64.mul d (envelope data)) weight) delta in
  let+ d0 := index_list delta 0 in
  let+ d1 := index_list delta 1 in
  let+ d2 := index_list delta 2 in
  Ok {| px := F64.add (px pos) d0;
        py := F64.add (py pos) d1;
        pz := F64.add (pz pos) d2 |}.

(** [while not iterator.isDone(): ...; iterator.setPosition(pos);
    iterator.next()]: the components already visited keep their new
    position when a later one raises. *)
Fixpoint blend_loop (data : DataBlock) (deltas : ndarray)
    (todo : list (nat * Point)) : result unit * list (nat * Point) :=
  match todo with
  | [] => (Ok tt, [])
  | (index, pos) :: rest =>
      match blend_point data deltas index pos with
      | Ok pos' =>
          let '(r, rest') := blend_loop data deltas rest in
          (r, (index, pos') :: rest')
      | Raise e => (Raise e, todo)
      end
  end.

Definition blend (data : DataBlock) (deltas : ndarray) : M World unit :=
  fun w =>
    let '(r, g) := blend_loop data deltas (geometry w) in
    (r, mkWorld (self w) (trace w) g).

(** The dispatch loop of [deform]. *)
Definition dispatch (data : DataBlock) (numModels : nat) (deltas : ndarray)
  : M World ndarray :=
  let matricesCount := length (matrices data) in
  for_each (seq 0 matricesCount) (dispatch_slot data numModels) deltas.

Definition deform (data : DataBlock) : M World unit :=
  let* changed := gets (fun w => location_changed (self w)) in
  let* _ :=
    if changed then
      let loc := trainingData data in
      let* _ := set_location_changed false in
      loadModels loc
    else ret tt in
  let* numModels := gets (fun w => length (models (self w))) in
  let deltas := np_zeros (3 * numVertices data) in
  let* deltas := dispatch data numModels deltas in
  blend data deltas.

(** [preEvaluation], given the plugs that are dirty in the evaluation
    node. *)
Definition preEvaluation (dirty : list Plug) : M World unit :=
  if decide (data_loc ∈ dirty) then set_location_changed true else ret tt.

(** [setDependentsDirty] *)
Definition setDependentsDirty (plug : Plug) : M World unit :=
  if decide (plug = data_loc) then set_location_changed true else ret tt.

End Deformer.

(** ** Notions used by the statements *)

(** A computation that, from any world, returns [r] after emitting [evs]
    and touches nothing else. *)
Definition emits {A} (m : M World A) (r : result A) (evs : list event) : Prop :=
  forall w, m w = (r, mkWorld (self w) (trace w ++ evs) (geometry w)).

(** A computation that, from any world, returns [r] after emitting [evs]
    and appending [new] to [self.models], and touches nothing else. *)
Definition appends (m : M World unit) (r : result unit) (evs : list event)
    (new : list (option TFModel)) : Prop :=
  forall w, m w =
    (r, mkWorld (mkNode (data_location (self w)) (location_changed (self w))
                        (models (self w) ++ new))
                (trace w ++ evs) (geometry w)).

(** A world with a new node, no event and no geometry. *)
Definition blank : World := mkWorld init [] [].

(** What [predict] returns and emits; neither depends on the world
    ([predict_spec]). *)
Definition prediction_of (tf : TFRuntime) (model : TFModel) (matrix : Matrix)
  : result ndarray := (predict tf model matrix blank).1.

Definition predict_events (tf : TFRuntime) (model : TFModel) (matrix : Matrix)
  : list event := trace (predict tf model matrix blank).2.

(** An event of the dispatch loop over [count] transforms and the models
    [ms]: a transform is read, or a session run, only for an index below
    [count] that holds a model. *)
Definition dispatched (ms : list (option TFModel)) (count : nat) (e : event)
  : Prop :=
  match e with
  | JumpToElement i => i < count /\ exists m, ms !! i = Some (Some m)
  | SessionRun s _ =>
      exists i m, i < count /\ ms !! i = Some (Some m) /\ session m = s
  | _ => False
  end.

(** The data block with another list of transforms. *)
Definition with_matrices (data : DataBlock) (ms : list Matrix) : DataBlock :=
  {| trainingData := trainingData data; envelope := envelope data;
     matrices := ms; numVertices := numVertices data;
     weightValue := weightValue data |}.

(** What [load_model] returns and emits; neither depends on the world
    ([load_model_spec]). *)
Definition resolve (tf : TFRuntime) (data : Manifest) (i : nat)
    (model : ModelEntry) : result TFModel :=
  (load_model tf data i model blank).1.

Definition resolve_events (tf : TFRuntime) (data : Manifest) (i : nat)
    (model : ModelEntry) : list event :=
  trace (load_model tf data i model blank).2.

(** The outcome of the loop of [loadModels] over the entries from slot
    [i] on, and the models it has appended when it ends or raises. *)
Fixpoint resolve_all (tf : TFRuntime) (data : Manifest) (i : nat)
    (entries : list (option ModelEntry))
  : result unit * list (option TFModel) :=
  match entries with
  | [] => (Ok tt, [])
  | model :: rest =>
      match nonempty model with
      | None =>
          let '(r, ms) := resolve_all tf data (S i) rest in (r, None :: ms)
      | Some model =>
          match resolve tf data i model with
          | Ok m =>
              let '(r, ms) := resolve_all tf data (S i) rest in
              (r, Some m :: ms)
          | Raise e => (Raise e, [])
          end
      end
  end.

(** What [loadModels] returns, leaves in [self.models] and emits; none
    depends on the world ([loadModels_spec]). *)
Definition load_outcome (fs : string -> file) (tf : TFRuntime) (path : string)
  : result unit := (loadModels fs tf path blank).1.

Definition loaded (fs : string -> file) (tf : TFRuntime) (path : string)
  : list (option TFModel) := models (self (loadModels fs tf path blank).2).

Definition load_events (fs : string -> file) (tf : TFRuntime) (path : string)
  : list event := trace (loadModels fs tf path blank).2.

(** The offset of vertex [v] on axis [c] as the specification writes it:
    [delta_buffer[3v:3v+3] * envelope * paint_weight(v)], with the products
    taken from the left as Python does. *)
Definition final_offset (data : DataBlock) (deltas : ndarray) (v c : nat)
  : float :=
  F64.mul (F64.mul (default F64.zero (deltas !! (v * 3 + c))) (envelope data))
          (weightValue data v).

(** A component of the iterator with the offset of its vertex added. *)
Definition blended (data : DataBlock) (deltas : ndarray) (vp : nat * Point)
  : nat * Point :=
  (vp.1, {| px := F64.add (px vp.2) (final_offset data deltas vp.1 0);
            py := F64.add (py vp.2) (final_offset data deltas vp.1 1);
            pz := F64.add (pz vp.2) (final_offset data deltas vp.1 2) |}).

(** The same position, coordinate by coordinate. *)
Definition same_point (p q : Point) : Prop :=
  F64.same_number (px p) (px q) /\ F64.same_number (py p) (py q)
  /\ F64.same_number (pz p) (pz q).

(** The world in which [deform] runs its dispatch loop: after the reload
    when the node is dirty, as it is otherwise. *)
Definition reloaded (fs : string -> file) (tf : TFRuntime) (data : DataBlock)
    (w : World) : World :=
  if location_changed (self w) then
    mkWorld (mkNode (Some (trainingData data)) false
               (loaded fs tf (trainingData data)))
            (trace w ++ load_events fs tf (trainingData data)) (geometry w)
  else w.

(** What the host calls on the node: the two dirty callbacks, and [deform]
    with the data block and the geometry iterator of the evaluation. *)
Inductive HostCall : Type :=
  | CallSetDependentsDirty (plug : Plug)
  | CallPreEvaluation (dirty : list Plug)
  | CallDeform (data : DataBlock) (iterator : list (nat * Point)).

Definition set_geometry (g : list (nat * Point)) : M World unit :=
  modify (fun w => mkWorld (self w) (trace w) g).

Definition host_call (fs : string -> file) (tf : TFRuntime) (c : HostCall)
  : M World unit :=
  match c with
  | CallSetDependentsDirty plug => setDependentsDirty plug
  | CallPreEvaluation dirty => preEvaluation dirty
  | CallDeform data iterator =>
      let* _ := set_geometry iterator in deform fs tf data
  end.

(** The worlds a node goes through from its creation; an exception ends
    the call that raised it and leaves the node as it was then. *)
Inductive reachable (fs : string -> file) (tf : TFRuntime) : World -> Prop :=
  | reach_create : reachable fs tf (mkWorld init [] [])
  | reach_call w c :
      reachable fs tf w -> reachable fs tf (host_call fs tf c w).2.

(** The registry is that of a whole load of the cached path; a node that
    has no cached path is dirty and empty. *)
Definition registry_inv (fs : string -> file) (tf : TFRuntime) (n : Node)
  : Prop :=
  match data_location n with
  | None => location_changed n = true /\ models n = []
  | Some path => models n = loaded fs tf path
  end.

(** The node marked dirty. *)
Definition mark_dirty (w : World) : World :=
  mkWorld (mkNode (data_location (self w)) true (models (self w)))
          (trace w) (geometry w).

(** ** Concrete inputs *)

Module Ex.

Definition f (z : Z) : float := F64.of_Z z.

(** A model normalised over translations in [0, 2] on every axis. *)
Definition unit_bounds : TFModel :=
  {| graph := 1; session := 1; input_tensor := "in"; output_tensor := "out";
     vertices := [0; 1]; normalized := true;
     trans_max := Some [f 2; f 2; f 2]; trans_min := Some [f 0; f 0; f 0];
     verts_max := Some [f 1; f 1; f 1; f 1; f 1; f 1];
     verts_min := Some [f 0; f 0; f 0; f 0; f 0; f 0] |}.

(** A model whose translation bounds have zero width. *)
Definition flat_bounds : TFModel :=
  {| graph := 1; session := 1; input_tensor := "in"; output_tensor := "out";
     vertices := [0; 1]; normalized := true;
     trans_max := Some [f 0; f 0; f 0]; trans_min := Some [f 0; f 0; f 0];
     verts_max := Some [f 1; f 1; f 1; f 1; f 1; f 1];
     verts_min := Some [f 0; f 0; f 0; f 0; f 0; f 0] |}.

(** Two joint transforms as seven-component arrays. *)
Definition values : ndarray := [f 0; f 0; f 0; f 1; f 2; f 4; f 6].
Definition moved : ndarray := [f 0; f 0; f 0; f 1; f 1; f 0; f (-1)].

(** A runtime with three saved graphs; the first two predict constant
    rows, the third cannot be restored. *)
Definition tf : TFRuntime :=
  {| tf_restore meta root :=
       if decide (meta = Some "joint0.meta") then Ok 10
       else if decide (meta = Some "joint2.meta") then Ok 12
       else Raise RuntimeError;
     tf_get_tensor s name := Ok name;
     tf_run s fetch feed input :=
       if decide (s = 10) then Ok [[f 1; f 2; f 3; f 4; f 5; f 6]]
       else if decide (s = 12) then Ok [[f 7; f 8; f 9]]
       else Raise RuntimeError |}.

Definition entry (meta : string) : ModelEntry :=
  {| e_root := Some "/training"; e_meta := Some meta;
     e_input := Some "in"; e_output := Some "out";
     e_normalized := Some false;
     e_trans_max := None; e_trans_min := None;
     e_verts_max := None; e_verts_min := None;
     e_other := ["plot"] |}.

(** Three slots, the middle one empty; vertex 1 is listed by slots 0 and 2,
    vertex 2 by none. *)
Definition manifest : Manifest :=
  {| m_models := Some [Some (entry "joint0.meta"); None; Some (entry "joint2.meta")];
     m_joint_map := Some [[0; 1]; []; [1]] |}.

(** The same with a second slot whose graph cannot be restored. *)
Definition broken : Manifest :=
  {| m_models := Some [Some (entry "joint0.meta"); Some (entry "joint1.meta")];
     m_joint_map := Some [[0; 1]; [2]] |}.

Definition fs (path : string) : file :=
  if decide (path = "/training/output_data.json") then Json manifest
  else if decide (path = "/training/broken.json") then Json broken
  else Missing.

Definition identity : Matrix :=
  {| rot_x := f 0; rot_y := f 0; rot_z := f 0; rot_w := f 1;
     tr_x := f 0; tr_y := f 0; tr_z := f 0 |}.

Definition data (path : string) : DataBlock :=
  {| trainingData := path; envelope := f 1;
     matrices := [identity; identity; identity];
     numVertices := 3; weightValue := fun _ => f 1 |}.

Definition origin : Point := {| px := f 0; py := f 0; pz := f 0 |}.

Definition mesh : list (nat * Point) := [(0, origin); (1, origin); (2, origin)].

(** A new node about to deform [mesh]. *)
Definition start : World := mkWorld init [] mesh.

(** The node after it has loaded [manifest]. *)
Definition ready : World :=
  mkWorld (mkNode (Some "/training/output_data.json") false
             (loaded fs tf "/training/output_data.json")) [] mesh.

Definition model0 : TFModel :=
  {| graph := 10; session := 10; input_tensor := "in"; output_tensor := "out";
     vertices := [0; 1]; normalized := false;
     trans_max := None; trans_min := None; verts_max := None; verts_min := None |}.

Definition model2 : TFModel :=
  {| graph := 12; session := 12; input_tensor := "in"; output_tensor := "out";
     vertices := [1]; normalized := false;
     trans_max := None; trans_min := None; verts_max := None; verts_min := None |}.

(** The buffer the two models of [manifest] leave for three vertices. *)
Definition deltas : ndarray :=
  [f 1; f 2; f 3; f 7; f 8; f 9; f 0; f 0; f 0].

(** The data block with the envelope turned off. *)
Definition muted : DataBlock :=
  {| trainingData := "/training/output_data.json"; envelope := f 0;
     matrices := [identity; identity; identity];
     numVertices := 3; weightValue := fun _ => f 1 |}.

(** A model whose translation bounds are [-0.0] above and [0.0] below. *)
Definition signed_flat_bounds : TFModel :=
  {| graph := 1; session := 1; input_tensor := "in"; output_tensor := "out";
     vertices := [0; 1]; normalized := true;
     trans_max := Some [S754_zero true; S754_zero true; S754_zero true];
     trans_min := Some [f 0; f 0; f 0];
     verts_max := Some [f 1; f 1; f 1; f 1; f 1; f 1];
     verts_min := Some [f 0; f 0; f 0; f 0; f 0; f 0] |}.

(** A model normalised over translations between [-sys.float_info.max]
    and 0 on every axis. *)
Definition wide_bounds : TFModel :=
  {| graph := 1; session := 1; input_tensor := "in"; output_tensor := "out";
     vertices := [0; 1]; normalized := true;
     trans_max := Some [f 0; f 0; f 0];
     trans_min := Some [F64.opp F64.max_float; F64.opp F64.max_float;
                        F64.opp F64.max_float];
     verts_max := Some [f 1; f 1; f 1; f 1; f 1; f 1];
     verts_min := Some [f 0; f 0; f 0; f 0; f 0; f 0] |}.

(** A joint at [sys.float_info.max] on the first axis, and one whose
    first translation is NaN. *)
Definition far : ndarray := [f 0; f 0; f 0; f 1; F64.max_float; f 0; f 0].
Definition unknown : ndarray := [f 0; f 0; f 0; f 1; S754_nan; f 2; f 2].

(** A buffer whose first scalar is an infinity, and one whose first scalar
    is [sys.float_info.max]. *)
Definition infinite_delta : ndarray :=
  [S754_infinity false; f 0; f 0; f 0; f 0; f 0; f 0; f 0; f 0].
Definition huge_delta : ndarray :=
  [F64.max_float; f 0; f 0; f 0; f 0; f 0; f 0; f 0; f 0].

(** The data block with the envelope at two and every weight at zero. *)
Definition unweighted : DataBlock :=
  {| trainingData := "/training/output_data.json"; envelope := f 2;
     matrices := [identity; identity; identity];
     numVertices := 3; weightValue := fun _ => f 0 |}.

(** The data block with an infinite envelope. *)
Definition unbounded : DataBlock :=
  {| trainingData := "/training/output_data.json";
     envelope := S754_infinity false;
     matrices := [identity; identity; identity];
     numVertices := 3; weightValue := fun _ => f 1 |}.

End Ex.

(** The number of entries at the head of ["models"] that are empty:
    [null], or an object without keys. *)
Fixpoint leading_empty (entries : list (option ModelEntry)) : nat :=
  match entries with
  | [] => 0
  | model :: rest =>
      match nonempty model with
      | None => S (leading_empty rest)
      | Some _ => 0
      end
  end.

(** * The skinning tools ([MLDeform/_maya/skinning.py]) *)

(** [s.startswith(prefix)] *)
Definition startswith (s prefix : string) : bool := String.prefix prefix s.

(** The inner loop of [get_joints]: [true] when it ends by [break], that
    is, when [joint] starts with a listed joint other than itself.
<<
    for other in joints:
        if joint == other: continue
        if joint.startswith(other): break
>> *)
Fixpoint starts_with_other (joint : string) (joints : list string) : bool :=
  match joints with
  | [] => false
  | other :: rest =>
      if decide (joint = other) then starts_with_other joint rest
      else if startswith joint other then true
      else starts_with_other joint rest
  end.

(** The outer loop of [get_joints] over the joints still to visit:
    [roots.append(joint)] in the [else] of the inner loop. *)
Fixpoint collect_roots (joints todo : list string) (roots : list string)
  : list string :=
  match todo with
  | [] => roots
  | joint :: rest =>
      if starts_with_other joint joints then collect_roots joints rest roots
      else collect_roots joints rest (roots ++ [joint])
  end.

(** [get_joints(joints)].  [ls] is [mc.ls(..., type='joint', l=True)]: the
    full paths of the joints among the given names, or of all the joints
    of the scene when it is given none. *)
Definition get_joints (ls : option (list string) -> list string)
    (joints : option (list string)) : list string :=
  let joints :=
    match joints with
    | Some (j :: js) => ls (Some (j :: js))
    | Some [] | None => ls None
    end in
  collect_roots joints joints [].

(** What [mc.ls] has answered to [get_joints]. *)
Definition listed (ls : option (list string) -> list string)
    (joints : option (list string)) : list string :=
  match joints with
  | Some (j :: js) => ls (Some (j :: js))
  | Some [] | None => ls None
  end.

(** [x > y] on Python floats. *)
Definition float_gt (x y : float) : bool := SFltb y x.

(** [1.0] *)
Definition f_one : float := Eval cbv in F64.of_Z 1.

(** [l[start:stop] = src] on a Python sequence, for non-negative bounds:
    the slice, whatever its length, is replaced by [src]. *)
Definition py_set_slice {A} (l : list A) (start stop : nat) (src : list A)
  : list A :=
  take start l ++ src ++ drop (start `max` stop) l.

(** The loop of [max(items, key=lambda x: x[1])] once [best] holds the
    first item: a later item replaces it when its weight is greater. *)
Fixpoint max_by_weight (best : nat * float) (items : list (nat * float))
  : nat * float :=
  match items with
  | [] => best
  | item :: rest =>
      max_by_weight (if float_gt item.2 best.2 then item else best) rest
  end.

(** [max(enumerate(vtx_weights), key=lambda x: x[1])]; [ValueError] on an
    empty sequence. *)
Definition py_max (items : list (nat * float)) : result (nat * float) :=
  match items with
  | [] => Raise ValueError
  | first :: rest => Ok (max_by_weight first rest)
  end.

(** [[float(x == i) for x in range(stride)]], a row of [preweights] in
    [__simplify_weights]. *)
Definition preweight (i stride : nat) : list float :=
  map (fun x => if decide (x = i) then f_one else F64.zero) (seq 0 stride).

(** [for i, w in enumerate(vtx_weights):
       vtx_weights[i] = 1.0 if idx == i else 0] *)
Definition follow_only (idx : nat) (vtx_weights : list float) : list float :=
  imap (fun i _ => if decide (idx = i) then f_one else F64.zero) vtx_weights.

(** The loop of [__simplify_weights_fast] over the vertices still to
    visit. *)
Fixpoint simplify_rows (vertices : list nat) (stride : nat)
    (weights : list float) : result (list float) :=
  match vertices with
  | [] => Ok weights
  | vtx :: rest =>
      let vtx_weights :=
        py_slice weights (vtx * stride) (vtx * stride + stride) in
      let+ best := py_max (enumerate vtx_weights) in
      let vtx_weights := follow_only best.1 vtx_weights in
      simplify_rows rest stride
        (py_set_slice weights (vtx * stride) (vtx * stride + stride)
           vtx_weights)
  end.

(** [__simplify_weights_fast]: from the weights that [get_weights] returns
    for [numVertices] vertices and [stride] influences, the weights it
    hands to [skin.setWeights]. *)
Definition simplify_weights_fast (numVertices stride : nat)
    (weights : list float) : result (list float) :=
  simplify_rows (seq 0 numVertices) stride weights.

(** * The training data writer ([MLDeform/_maya/writer.py]) *)

(** The inner loop of the weight association in [write], from influence
    [i] on: the first influence whose weight is positive.
<<
    for i, weight in enumerate(vtx_weights):
        if weight > 0: ...; break
>> *)
Fixpoint first_influence (i : nat) (vtx_weights : list float) : option nat :=
  match vtx_weights with
  | [] => None
  | weight :: rest =>
      if float_gt weight F64.zero then Some i
      else first_influence (S i) rest
  end.

(** The weights of vertex [vtx]: [weights[vtx * stride: (vtx * stride) + stride]]. *)
Definition vtx_row (stride : nat) (weights : list float) (vtx : nat)
  : list float :=
  py_slice weights (vtx * stride) (vtx * stride + stride).

(** The influence that gets vertex [vtx], if any. *)
Definition owner (stride : nat) (weights : list float) (vtx : nat)
  : option nat :=
  first_influence 0 (vtx_row stride weights vtx).

(** One iteration of [for vtx in vertices] on [(weight_map, joint_map)]:
    [weight_map.append(i)] and [joint_map[i].append(vtx)] for the first
    positive influence [i], nothing when there is none. *)
Definition assign_vertex (stride : nat) (weights : list float)
    (maps : list nat * list (list nat)) (vtx : nat)
  : list nat * list (list nat) :=
  match first_influence 0 (vtx_row stride weights vtx) with
  | Some i => (maps.1 ++ [i], alter (fun l => l ++ [vtx]) i maps.2)
  | None => maps
  end.

(** Lines 75 to 87 of [write]: [weight_map] and [joint_map] for
    [numVertices] vertices and [stride] influences. *)
Definition weight_maps (numVertices stride : nat) (weights : list float)
  : list nat * list (list nat) :=
  fold_left (assign_vertex stride weights) (seq 0 numVertices)
    ([], replicate stride []).

(** The heading of a joint's CSV file in [write]:
<<
    heading = ['rx', 'ry', 'rz', 'rw', 'tx', 'ty', 'tz']
    for v in verts:
        heading.extend(['vtx%sx' % v, 'vtx%sy' % v, 'vtx%sz' % v])
>> *)
Definition csv_heading (verts : list nat) : list string :=
  fold_left
    (fun heading v =>
       heading ++ ["vtx" +:+ pretty v +:+ "x"; "vtx" +:+ pretty v +:+ "y";
                   "vtx" +:+ pretty v +:+ "z"])
    verts ["rx"; "ry"; "rz"; "rw"; "tx"; "ty"; "tz"].

(** [tpoint - mpoint], an [MVector], as the sequence [data +=] reads. *)
Definition displacement (tpoint mpoint : Point) : list float :=
  [F64.sub (px tpoint) (px mpoint); F64.sub (py tpoint) (py mpoint);
   F64.sub (pz tpoint) (pz mpoint)].

(** [for vtx in vertices: ...; data += displacement] *)
Fixpoint add_displacements (points target_points : list Point)
    (vertices : list nat) (data : list float) : result (list float) :=
  match vertices with
  | [] => Ok data
  | vtx :: rest =>
      let+ mpoint := index_list points vtx in
      let+ tpoint := index_list target_points vtx in
      add_displacements points target_points rest
        (data ++ displacement tpoint mpoint)
  end.

(** The row that [write] appends for one joint on one frame: the joint's
    world rotation and translation, then the displacement of each of its
    vertices from the mesh to the target. *)
Definition frame_row (xform : Matrix) (points target_points : list Point)
    (vertices : list nat) : result (list float) :=
  let data := [] in
  let data := data ++ [rot_x xform; rot_y xform; rot_z xform; rot_w xform] in
  let data := data ++ [tr_x xform; tr_y xform; tr_z xform] in
  add_displacements points target_points vertices data.

(** * The training script ([MLDeform/_training/train.py]) *)

(** A [Dense] layer as [get_model] asks for it: its units, its
    [input_dim] when one is given, its activation and its name. *)
Record Dense : Type := mkDense {
  dense_units : nat;
  dense_input_dim : option nat;
  dense_activation : string;
  dense_name : string;
}.

(** One iteration of [for layer in range(layers)] on the layers added so
    far. *)
Definition add_layer (joint_columns verts_columns units input_dim : nat)
    (activation : string) (layers : nat) (model : list Dense) (layer : nat)
  : list Dense :=
  if decide (layer = 0) then
    model ++ [mkDense units (Some joint_columns) activation "input_node"]
  else if decide (layer = layers - 1) then
    model ++ [mkDense verts_columns None "linear" "output_node"]
  else
    model ++ [mkDense units (Some input_dim) activation
                ("dense_layer_" +:+ pretty layer)].

(** [get_model]: the layers added to the [Sequential] model, the name of
    the input node, and the warnings logged.  [joint_columns] and
    [verts_columns] are [joint.shape[1]] and [verts.shape[1]]; the name of
    the output node is read from the built model and is not part of this
    value. *)
Definition get_model (joint_columns verts_columns : nat) (layers : Z)
    (activation : string) (units input_dim : nat)
  : list Dense * string * list string :=
  let '(layers, warnings) :=
    if decide (layers < 2)%Z
    then (2%Z, ["A minimum of 2 layers is required"])
    else (layers, []) in
  let input_name := "input_node" in
  let model :=
    fold_left
      (add_layer joint_columns verts_columns units input_dim activation
         (Z.to_nat layers))
      (seq 0 (Z.to_nat layers)) [] in
  (model, input_name +:+ "_input:0", warnings).

(** A call of the host that does not signal the path attribute. *)
Definition keeps_path (c : HostCall) : Prop :=
  match c with
  | CallSetDependentsDirty plug => plug <> data_loc
  | CallPreEvaluation dirty => data_loc ∉ dirty
  | CallDeform _ _ => True
  end.

(** The world after a sequence of calls of the host. *)
Definition host_calls (fs : string -> file) (tf : TFRuntime)
    (cs : list HostCall) (w : World) : World :=
  fold_left (fun w c => (host_call fs tf c w).2) cs w.

(** A transform read or a session run. *)
Definition is_dispatch_event (e : event) : Prop :=
  match e with
  | JumpToElement _ | SessionRun _ _ => True
  | _ => False
  end.

(** [l * n] on a Python list. *)
Fixpoint py_repeat {A} (l : list A) (n : nat) : list A :=
  match n with
  | 0 => []
  | S n' => l ++ py_repeat l n'
  end.

(** [preweights[i] * numVerts], the weights that [__simplify_weights]
    sets to measure influence [i]. *)
Definition full_weights (i stride numVerts : nat) : list float :=
  py_repeat (preweight i stride) numVerts.

(** ** Concrete inputs for the tools *)

Module ExT.

(** A prediction of six scalars in a heap. *)
Definition prediction : ndarray :=
  [Ex.f 1; Ex.f 2; Ex.f 3; Ex.f 4; Ex.f 5; Ex.f 6].

(** The object without keys, [{}]. *)
Definition no_key : ModelEntry :=
  {| e_root := None; e_meta := None; e_input := None; e_output := None;
     e_normalized := None;
     e_trans_max := None; e_trans_min := None;
     e_verts_max := None; e_verts_min := None; e_other := [] |}.

(** A manifest without ["joint_map"]: [null], [{}], then a model. *)
Definition no_joint_map : Manifest :=
  {| m_models := Some [None; Some no_key; Some (Ex.entry "joint0.meta")];
     m_joint_map := None |}.

(** A manifest whose only entry is [{}]. *)
Definition hollow : Manifest :=
  {| m_models := Some [Some no_key]; m_joint_map := Some [[0]] |}.

Definition hollow_fs (path : string) : file := Json hollow.

Definition fs (path : string) : file := Json no_joint_map.

(** The data block of [Ex.data] for a mesh of one vertex. *)
Definition small : DataBlock :=
  {| trainingData := "/training/output_data.json"; envelope := Ex.f 1;
     matrices := [Ex.identity; Ex.identity; Ex.identity];
     numVertices := 1; weightValue := fun _ => Ex.f 1 |}.

(** The joints of a scene as [mc.ls] lists them. *)
Definition ls (_ : option (list string)) : list string :=
  ["|root"; "|root|spine"; "|hip"].

(** Two joints side by side, the path of one the beginning of the path of
    the other, and a child of the first. *)
Definition numbered (_ : option (list string)) : list string :=
  ["|joint1"; "|joint10"; "|joint1|elbow"].

(** The weights of two vertices under two influences. *)
Definition weights : list float := [Ex.f 1; Ex.f 3; Ex.f 2; Ex.f 0].

(** The same after [__simplify_weights_fast]. *)
Definition simple : list float := [Ex.f 0; Ex.f 1; Ex.f 1; Ex.f 0].

(** The points of a mesh of two vertices and of its target. *)
Definition points : list Point := [Ex.origin; Ex.origin].
Definition target : list Point :=
  [{| px := Ex.f 1; py := Ex.f 0; pz := Ex.f 0 |};
   {| px := Ex.f 0; py := Ex.f 2; pz := Ex.f 0 |}].

End ExT.

(** * Properties *)

(** ** Slices *)

Lemma py_slice_length {A} (a : list A) s e :
  length (py_slice a s e) = (e - s) `min` (length a - s).
Proof. unfold py_slice. rewrite length_take, length_drop. done. Qed.

Lemma py_slice_lookup {A} (a : list A) s e c :
  c < e - s -> py_slice a s e !! c = a !! (s + c).
Proof. intros Hc. unfold py_slice. rewrite lookup_take_lt by done. apply lookup_drop. Qed.

(** What a slice assignment that succeeds has written. *)
Lemma np_set_slice_inv a s e src a' :
  np_set_slice a s e src = Ok a' ->
  exists new, a' = take s a ++ new ++ drop (s + length (py_slice a s e)) a
    /\ length new = length (py_slice a s e)
    /\ (length src = length (py_slice a s e) -> new = src).
Proof.
  unfold np_set_slice. case_decide as Hlen.
  - intros [= <-]. eauto.
  - destruct src as [|x [|? ?]]; intros [= <-].
    eexists. split; [done|]. split; [apply length_replicate|]. done.
Qed.

Lemma np_set_slice_length a s e src a' :
  np_set_slice a s e src = Ok a' -> length a' = length a.
Proof.
  intros (new & -> & Hnew & _)%np_set_slice_inv.
  rewrite !length_app, Hnew, length_take, length_drop, py_slice_length. lia.
Qed.

Lemma np_set_slice_outside a s e src a' p :
  np_set_slice a s e src = Ok a' -> p < s \/ e <= p -> a' !! p = a !! p.
Proof.
  intros (new & -> & Hnew & _)%np_set_slice_inv Hp.
  rewrite py_slice_length in *.
  destruct (decide (length a <= s)) as [Hs|Hs].
  { assert (new = []) as -> by (apply length_zero_iff_nil; lia).
    rewrite take_ge, drop_ge by lia. by rewrite !app_nil_r. }
  destruct (decide (p < s)) as [Hlt|Hge].
  - rewrite lookup_app_l by (rewrite length_take; lia).
    by rewrite lookup_take_lt.
  - rewrite lookup_app_r by (rewrite length_take; lia).
    rewrite lookup_app_r by (rewrite length_take; lia).
    rewrite lookup_drop, length_take, Hnew.
    destruct (decide (e <= length a)).
    + f_equal. lia.
    + rewrite !lookup_ge_None_2; [done|lia..].
Qed.

Lemma np_set_slice_inside a s e src a' :
  np_set_slice a s e src = Ok a' -> length src = e - s -> 1 < e - s ->
  py_slice a' s e = src /\ e <= length a.
Proof.
  intros H Hsrc Hpos. pose proof H as (new & -> & Hnew & Hsame)%np_set_slice_inv.
  assert (length (py_slice a s e) = e - s) as Hn.
  { unfold np_set_slice in H. case_decide as Hlen; [congruence|].
    destruct src as [|x [|? ?]]; try done. simpl in *. rewrite py_slice_length in *. lia. }
  rewrite py_slice_length in Hn.
  split; [|lia].
  rewrite Hsame in * by (rewrite py_slice_length; lia).
  unfold py_slice. rewrite drop_app_length' by (rewrite length_take; lia).
  rewrite take_app_length' by lia. done.
Qed.

(** ** The codec *)

Ltac case_scrutinee :=
  match goal with
  | |- context [match ?r with Ok _ => _ | Raise _ => _ end] =>
      let E := fresh "E" in destruct r eqn:E
  end.

Lemma normalize_values_7 r0 r1 r2 r3 t0 t1 t2 l0 l1 l2 h0 h1 h2 m :
  trans_min m = Some [l0; l1; l2] -> trans_max m = Some [h0; h1; h2] ->
  normalize_values [r0; r1; r2; r3; t0; t1; t2] m
  = Ok [r0; r1; r2; r3; F64.nan_to_num (rescale t0 l0 h0);
        F64.nan_to_num (rescale t1 l1 h1); F64.nan_to_num (rescale t2 l2 h2)].
Proof.
  intros Hmin Hmax. unfold normalize_values. rewrite Hmin, Hmax. reflexivity.
Qed.

(** The heap-level function in terms of the value-level one. *)
Lemma normalize_transform_values (array : nat) (model : TFModel) (h : heap) (a : ndarray) :
  h !! array = Some a ->
  normalize_transform array model h =
    match normalize_values a model with
    | Ok a' => (Ok array, <[array := a']> h)
    | Raise e => (Raise e, h)
    end.
Proof.
  intros Ha. unfold normalize_transform, normalize_values, np_store_slice, np_read, bind, lift, modify, ret, rbind.
  rewrite Ha. cbn beta iota.
  repeat (case_scrutinee; [|done]); cbn beta iota; rewrite ?Ha; try done.
  case_scrutinee; done.
Qed.

Lemma denormalize_prediction_values (prediction : nat) (model : TFModel) (h : heap) (p : ndarray) :
  h !! prediction = Some p ->
  denormalize_prediction prediction model h =
    match denormalize_values p model with
    | Ok p' => (Ok (fresh (dom h)), <[fresh (dom h) := p']> h)
    | Raise e => (Raise e, h)
    end.
Proof.
  intros Hp. unfold denormalize_prediction, denormalize_values, np_alloc, np_read, bind, lift, ret, rbind.
  rewrite Hp. cbn beta iota.
  repeat (case_scrutinee; [|done]); done.
Qed.

Lemma nan_to_num_finite x : F64.is_finite (F64.nan_to_num x) = true.
Proof. destruct x as [s|[]| |s m e]; reflexivity. Qed.

Lemma nan_to_num_id x : F64.is_finite x = true -> F64.nan_to_num x = x.
Proof. destruct x as [s|[]| |s m e]; done. Qed.

Lemma sub_diag x : F64.sub x x = if F64.is_finite x then F64.zero else S754_nan.
Proof.
  destruct x as [[]|[]| |s m e]; try reflexivity.
  unfold F64.sub, SFsub. rewrite Z.sub_diag. reflexivity.
Qed.

Lemma nan_to_num_changes x :
  F64.is_finite x = false -> F64.nan_to_num x <> x.
Proof. destruct x as [s|[]| |s m e]; done. Qed.

(** [x == y] holds of two identical numbers and of two zeros. *)
Lemma eqb_cases x y :
  F64.eqb x y = true ->
  (x = y /\ F64.is_nan x = false)
  \/ (F64.is_zero x = true /\ F64.is_zero y = true).
Proof.
  unfold F64.eqb, SFeqb, SFcompare.
  destruct x as [sx|sx| |sx mx ex], y as [sy|sy| |sy my ey]; try done;
    try (destruct sx; done); try (destruct sy; done); try (by right).
  - destruct sx, sy; try done; by left.
  - destruct sx, sy; try done.
    + destruct (Z.compare_spec ex ey); try done. subst.
      change (Pos.compare_cont Eq ?a ?b) with (Pos.compare a b).
      destruct (Pos.compare_spec mx my); try done. subst. by left.
    + destruct (Z.compare_spec ex ey); try done. subst.
      change (Pos.compare_cont Eq ?a ?b) with (Pos.compare a b).
      destruct (Pos.compare_spec mx my); try done. subst. by left.
Qed.

(** The width of an axis whose two bounds are equal. *)
Lemma zero_width u b :
  F64.eqb u b = true \/ u = b ->
  F64.sub u b
  = (if F64.is_finite b then S754_zero (negative_width u b) else S754_nan).
Proof.
  assert (F64.sub b b
          = if F64.is_finite b then S754_zero (negative_width b b)
            else S754_nan) as Hd.
  { rewrite sub_diag. by destruct b as [[]|[]| |]. }
  intros [[[-> Hnan]|[Hu Hb]]%eqb_cases| ->]; [done| |done].
  destruct u as [[]| | |], b as [[]| | |]; done.
Qed.

Lemma negative_width_spec u b :
  negative_width u b = true <-> u = S754_zero true /\ b = S754_zero false.
Proof.
  split.
  - destruct u as [[]| | |], b as [[]| | |]; done.
  - by intros [-> ->].
Qed.

Lemma div_by_zero x s :
  F64.nan_to_num (F64.div x (S754_zero s))
  = if F64.is_nonzero_number x then F64.signed_max (xorb (F64.sign x) s)
    else F64.zero.
Proof. destruct x as [[]|[]| |[] m e], s; reflexivity. Qed.

Lemma div_by_nan x : F64.nan_to_num (F64.div x S754_nan) = F64.zero.
Proof. destruct x as [[]|[]| |[] m e]; reflexivity. Qed.

Lemma list_length_7 {A} (l : list A) :
  length l = 7 -> exists a b c d e f g, l = [a; b; c; d; e; f; g].
Proof. do 8 (destruct l as [|? l]; try done). eauto 10. Qed.

Lemma list_length_3 {A} (l : list A) :
  length l = 3 -> exists a b c, l = [a; b; c].
Proof. do 4 (destruct l as [|? l]; try done). eauto. Qed.

(** The array left by [normalize_transform] on a seven-component input
    with three-component bounds. *)
Lemma normalize_transform_7 (h : heap) (array : nat) (a lo hi : ndarray) model :
  h !! array = Some a -> length a = 7 ->
  trans_min model = Some lo -> trans_max model = Some hi ->
  length lo = 3 -> length hi = 3 ->
  exists a', normalize_transform array model h = (Ok array, <[array := a']> h)
    /\ length a' = 7
    /\ (forall i, i < 4 -> a' !! i = a !! i)
    /\ (forall j t l u, a !! (4 + j) = Some t -> lo !! j = Some l -> hi !! j = Some u ->
          a' !! (4 + j) = Some (F64.nan_to_num (rescale t l u))).
Proof.
  intros Ha (r0&r1&r2&r3&t0&t1&t2&->)%list_length_7 Hlo Hhi
    (l0&l1&l2&->)%list_length_3 (h0&h1&h2&->)%list_length_3.
  rewrite (normalize_transform_values _ _ _ _ Ha).
  rewrite (normalize_values_7 _ _ _ _ _ _ _ _ _ _ _ _ _ _ Hlo Hhi).
  eexists. split; [done|]. split; [done|]. split.
  - intros i Hi. do 4 (destruct i as [|i]; [done|]). lia.
  - intros j t l u Ht Hl Hu.
    do 3 (destruct j as [|j]; [by simplify_eq/=|]). done.
Qed.

(** C7, as the code has it.  On every seven-component array and
    three-component bounds, [normalize_transform] returns the array it was
    given, with components 0 to 3 unchanged and component [4 + j] equal
    to [nan_to_num((t - trans_min[j]) / (trans_max[j] - trans_min[j]))],
    the affine rescaling evaluated in binary64.  That is the quotient
    itself when the quotient is finite, and only then: a quotient that is
    NaN or an infinity is replaced.  Normalising again leaves the
    rotation components as they were. *)
Theorem C7_normalize_transform_components
    (h : heap) (array : nat) (a lo hi : ndarray) (model : TFModel) :
  h !! array = Some a -> length a = 7 ->
  trans_min model = Some lo -> trans_max model = Some hi ->
  length lo = 3 -> length hi = 3 ->
  exists a',
    normalize_transform array model h = (Ok array, <[array := a']> h)
    /\ length a' = 7
    /\ (forall i, i < 4 -> a' !! i = a !! i)
    /\ (forall j t l u,
          a !! (4 + j) = Some t -> lo !! j = Some l -> hi !! j = Some u ->
          a' !! (4 + j)
            = Some (F64.nan_to_num (F64.div (F64.sub t l) (F64.sub u l)))
          /\ (F64.is_finite (F64.div (F64.sub t l) (F64.sub u l)) = true ->
              a' !! (4 + j) = Some (F64.div (F64.sub t l) (F64.sub u l)))
          /\ (F64.is_finite (F64.div (F64.sub t l) (F64.sub u l)) = false ->
              a' !! (4 + j) <> Some (F64.div (F64.sub t l) (F64.sub u l))))
    /\ (exists a'',
          normalize_transform array model (<[array := a']> h)
            = (Ok array, <[array := a'']> h)
          /\ take 4 a'' = take 4 a).
Proof.
  intros Ha Hlen Hlo Hhi Hllo Hlhi.
  destruct (normalize_transform_7 h array a lo hi model)
    as (a' & Hrun & Hlen' & Hrot & Htr); try done.
  exists a'. split; [done|]. split; [done|]. split; [done|]. split.
  - intros j t l u Ht Hl Hu. rewrite (Htr j t l u) by done.
    fold (rescale t l u). split; [done|]. split.
    + intros Hfin. f_equal. by apply nan_to_num_id.
    + intros Hfin [= Heq]. by apply nan_to_num_changes in Hfin.
  - destruct (normalize_transform_7 (<[array := a']> h) array a' lo hi model)
      as (a'' & Hrun2 & Hlen'' & Hrot2 & _); try done.
    { apply lookup_insert_eq. }
    exists a''. rewrite Hrun2, insert_insert_eq. split; [done|].
    apply list_eq. intros i. destruct (decide (i < 4)).
    + rewrite !lookup_take_lt by done. rewrite Hrot2, Hrot; done.
    + rewrite !lookup_take_ge by lia. done.
Qed.

(** C7 at [Ex.values] under [Ex.unit_bounds]: the translation component 2
    becomes [(2 - 0) / (2 - 0)]. *)
Lemma C7_witness :
  exists a',
    normalize_transform 0 Ex.unit_bounds {[0 := Ex.values]}
      = (Ok 0, <[0 := a']> {[0 := Ex.values]})
    /\ a' !! 4 = Some (F64.div (F64.sub (Ex.f 2) (Ex.f 0)) (F64.sub (Ex.f 2) (Ex.f 0))).
Proof.
  destruct (C7_normalize_transform_components {[0 := Ex.values]} 0 Ex.values
              [Ex.f 0; Ex.f 0; Ex.f 0] [Ex.f 2; Ex.f 2; Ex.f 2] Ex.unit_bounds)
    as (a' & Hrun & _ & _ & Htr & _).
  - reflexivity.
  - reflexivity.
  - reflexivity.
  - reflexivity.
  - reflexivity.
  - reflexivity.
  - exists a'. split; [exact Hrun|].
    destruct (Htr 0 (Ex.f 2) (Ex.f 0) (Ex.f 2)) as (_ & Hfin & _);
      [reflexivity..|].
    apply Hfin. vm_compute. reflexivity.
Defined.

(** C7 does not hold as it reads.  Under [Ex.wide_bounds], whose width is
    [sys.float_info.max] on every axis, the translation
    [sys.float_info.max] is normalised to [sys.float_info.max], while the
    quotient [(t - trans_min) / (trans_max - trans_min)] is an infinity:
    [t - trans_min] overflows.  Under [Ex.unit_bounds] a NaN translation
    is normalised to [0.0], while the quotient is NaN. *)
Lemma C7_overflow_is_not_the_quotient :
  normalize_transform 0 Ex.wide_bounds {[0 := Ex.far]}
    = (Ok 0, {[0 := [Ex.f 0; Ex.f 0; Ex.f 0; Ex.f 1;
                     F64.max_float; Ex.f 1; Ex.f 1]]})
  /\ F64.div (F64.sub F64.max_float (F64.opp F64.max_float))
             (F64.sub (Ex.f 0) (F64.opp F64.max_float))
     = S754_infinity false
  /\ F64.sub (Ex.f 0) (F64.opp F64.max_float) = F64.max_float
  /\ normalize_transform 0 Ex.unit_bounds {[0 := Ex.unknown]}
     = (Ok 0, {[0 := [Ex.f 0; Ex.f 0; Ex.f 0; Ex.f 1;
                      F64.zero; Ex.f 1; Ex.f 1]]})
  /\ F64.div (F64.sub S754_nan (Ex.f 0)) (F64.sub (Ex.f 2) (Ex.f 0)) = S754_nan.
Proof. vm_compute. repeat split; reflexivity. Qed.

(** C5, as the code has it.  On an axis whose two bounds are equal, as
    [==] has it or as values, [normalize_transform] leaves neither NaN nor
    an infinity: the component becomes [0.0] when [t - trans_min] is zero
    or NaN (in particular when [t] is the bound) or when the bound is not
    finite, and otherwise the finite double of largest magnitude, which is
    what [nan_to_num] puts in place of an infinity.  Its sign is that of
    [t - trans_min], reversed when the width [trans_max - trans_min] is
    [-0.0], which happens for [trans_max = -0.0] and [trans_min = 0.0]
    only. *)
Theorem C5_zero_width_axis
    (h : heap) (array : nat) (a lo hi : ndarray) (model : TFModel)
    (j : nat) (t b u : float) :
  h !! array = Some a -> length a = 7 ->
  trans_min model = Some lo -> trans_max model = Some hi ->
  length lo = 3 -> length hi = 3 ->
  a !! (4 + j) = Some t -> lo !! j = Some b -> hi !! j = Some u ->
  F64.eqb u b = true \/ u = b ->
  exists a' r,
    normalize_transform array model h = (Ok array, <[array := a']> h)
    /\ a' !! (4 + j) = Some r
    /\ F64.is_finite r = true
    /\ r = (if F64.is_finite b && F64.is_nonzero_number (F64.sub t b)
            then F64.signed_max
                   (xorb (F64.sign (F64.sub t b)) (F64.sign (F64.sub u b)))
            else F64.zero)
    /\ (F64.sign (F64.sub u b) = true
        <-> u = S754_zero true /\ b = S754_zero false)
    /\ (t = b -> r = F64.zero).
Proof.
  intros Ha Hlen Hlo Hhi Hllo Hlhi Ht Hl Hu Heq.
  destruct (normalize_transform_7 h array a lo hi model)
    as (a' & Hrun & _ & _ & Htr); try done.
  exists a', (F64.nan_to_num (rescale t b u)).
  split; [done|]. split; [eauto|]. split; [apply nan_to_num_finite|].
  assert (F64.nan_to_num (rescale t b u)
          = (if F64.is_finite b && F64.is_nonzero_number (F64.sub t b)
             then F64.signed_max
                    (xorb (F64.sign (F64.sub t b)) (F64.sign (F64.sub u b)))
             else F64.zero)) as Hr.
  { unfold rescale. rewrite (zero_width u b Heq).
    destruct (F64.is_finite b); simpl.
    - apply div_by_zero.
    - apply div_by_nan. }
  split; [done|]. split.
  - rewrite (zero_width u b Heq). destruct (F64.is_finite b) eqn:Hb; simpl.
    + apply negative_width_spec.
    + split; [done|]. intros [_ ->]. done.
  - intros ->. rewrite Hr, sub_diag.
    destruct (F64.is_finite b); by rewrite ?andb_false_r.
Qed.

(** C5 at [Ex.moved] under [Ex.signed_flat_bounds]: the translation 1 on
    an axis with bounds [-0.0] and [0.0], which are equal, becomes
    [-sys.float_info.max]. *)
Lemma C5_witness :
  exists a' r,
    normalize_transform 0 Ex.signed_flat_bounds {[0 := Ex.moved]}
      = (Ok 0, <[0 := a']> {[0 := Ex.moved]})
    /\ a' !! 4 = Some r /\ r = F64.opp F64.max_float.
Proof.
  destruct (C5_zero_width_axis {[0 := Ex.moved]} 0 Ex.moved
              [Ex.f 0; Ex.f 0; Ex.f 0]
              [S754_zero true; S754_zero true; S754_zero true]
              Ex.signed_flat_bounds 0 (Ex.f 1) (Ex.f 0) (S754_zero true))
    as (a' & r & Hrun & Hr & _ & Hval & _); try reflexivity.
  - left. reflexivity.
  - exists a', r. split; [exact Hrun|]. split; [exact Hr|]. exact Hval.
Defined.

(** C5 does not hold as it reads.  With bounds 0 and 0 on every axis, the
    translation (1, 0, -1) is normalised to (1.797e308, 0, -1.797e308):
    the first and the third component are not zero. *)
Lemma C5_infinity_is_not_zeroed :
  normalize_transform 0 Ex.flat_bounds {[0 := Ex.moved]}
    = (Ok 0, {[0 := [Ex.f 0; Ex.f 0; Ex.f 0; Ex.f 1;
                     F64.max_float; F64.zero; F64.opp F64.max_float]]})
  /\ F64.is_zero F64.max_float = false
  /\ F64.is_zero (F64.opp F64.max_float) = false.
Proof. split; [|done]. vm_compute. reflexivity. Qed.



(** ** Computations that only emit events *)

Lemma world_eta w : mkWorld (self w) (trace w) (geometry w) = w.
Proof. by destruct w. Qed.

Lemma node_eta n : mkNode (data_location n) (location_changed n) (models n) = n.
Proof. by destruct n. Qed.

Section Emits.
Context {A B : Type}.

Lemma emits_ret (a : A) : emits (ret a) (Ok a) [].
Proof. intros w. unfold ret. by rewrite app_nil_r, world_eta. Qed.

Lemma emits_raise (e : exn) : emits (raise (A := A) e) (Raise e) [].
Proof. intros w. unfold raise. by rewrite app_nil_r, world_eta. Qed.

Lemma emits_lift (r : result A) : emits (lift r) r [].
Proof. intros w. unfold lift. by rewrite app_nil_r, world_eta. Qed.

Lemma emits_bind_ok (m : M World A) (f : A -> M World B) a e1 r e2 :
  emits m (Ok a) e1 -> emits (f a) r e2 -> emits (bind m f) r (e1 ++ e2).
Proof.
  intros Hm Hf w. unfold bind. rewrite Hm, Hf. simpl. by rewrite app_assoc.
Qed.

Lemma emits_bind_raise (m : M World A) (f : A -> M World B) x e1 :
  emits m (Raise x) e1 -> emits (bind m f) (Raise x) e1.
Proof. intros Hm w. unfold bind. by rewrite Hm. Qed.

(** Every sequence of a computation that only emits with one that only
    emits only emits. *)
Lemma emits_bind (m : M World A) (f : A -> M World B) :
  (exists r evs, emits m r evs) ->
  (forall a, exists r evs, emits (f a) r evs) ->
  exists r evs, emits (bind m f) r evs.
Proof.
  intros ([a|x] & e1 & Hm) Hf.
  - destruct (Hf a) as (r & e2 & Hfa). eauto using emits_bind_ok.
  - eauto using emits_bind_raise.
Qed.

Lemma emits_lift_ex (r : result A) : exists r' evs, emits (lift r) r' evs.
Proof. eauto using emits_lift. Qed.

Lemma emits_ret_ex (a : A) : exists r' evs, emits (ret a) r' evs.
Proof. eauto using emits_ret. Qed.

End Emits.

Lemma emits_emit e : emits (emit e) (Ok tt) [e].
Proof. intros w. reflexivity. Qed.

Lemma emits_emit_ex e : exists r evs, emits (emit e) r evs.
Proof. eauto using emits_emit. Qed.

Ltac solve_emits :=
  repeat first
    [ apply emits_bind; [|intros ?]
    | apply emits_lift_ex
    | apply emits_ret_ex
    | apply emits_emit_ex
    | match goal with
      | |- context [if ?b then _ else _] => destruct b
      | |- context [let '(_, _) := ?p in _] => destruct p
      end ].

Section Frames.
Variable fs : string -> file.
Variable tf : TFRuntime.

Lemma load_model_emits data i model :
  exists r evs, emits (load_model tf data i model) r evs.
Proof. unfold load_model. solve_emits. Qed.

Lemma predict_emits model matrix :
  exists r evs, emits (predict tf model matrix) r evs.
Proof. unfold predict. solve_emits. Qed.

End Frames.

(** ** Loops *)

Lemma for_each_app {S A B} (xs ys : list A) (body : A -> B -> M S B) acc s :
  for_each (xs ++ ys) body acc s =
    match for_each xs body acc s with
    | (Ok acc', s') => for_each ys body acc' s'
    | (Raise e, s') => (Raise e, s')
    end.
Proof.
  revert acc s. induction xs as [|x xs IH]; intros acc s; [done|].
  simpl. unfold bind. destruct (body x acc s) as [[acc'|e] s']; [apply IH|done].
Qed.

Lemma for_each_ext {S A B} (xs : list A) (f g : A -> B -> M S B) acc s :
  (forall x acc s, x ∈ xs -> f x acc s = g x acc s) ->
  for_each xs f acc s = for_each xs g acc s.
Proof.
  revert acc s. induction xs as [|x xs IH]; intros acc s Hfg; [done|].
  simpl. unfold bind. rewrite Hfg by left.
  destruct (g x acc s) as [[acc'|e] s']; [|done].
  apply IH. intros. apply Hfg. by right.
Qed.

Lemma for_each_skip {S A B} (xs : list A) (f : A -> B -> M S B) acc s :
  (forall x acc s, x ∈ xs -> f x acc s = (Ok acc, s)) ->
  for_each xs f acc s = (Ok acc, s).
Proof.
  revert acc s. induction xs as [|x xs IH]; intros acc s Hf; [done|].
  simpl. unfold bind. rewrite Hf by left. apply IH. intros. apply Hf. by right.
Qed.

(** ** One iteration of the dispatch loop *)

Section Dispatch.
Variable tf : TFRuntime.

Lemma predict_spec model matrix w :
  predict tf model matrix w =
    (prediction_of tf model matrix,
     mkWorld (self w) (trace w ++ predict_events tf model matrix) (geometry w)).
Proof.
  destruct (predict_emits tf model matrix) as (r & evs & H).
  unfold prediction_of, predict_events. rewrite !H. done.
Qed.

Lemma predict_events_run model matrix e :
  e ∈ predict_events tf model matrix ->
  exists input, e = SessionRun (session model) input.
Proof.
  unfold predict_events, predict, bind, lift, ret, emit, modify.
  destruct (normalized model); simpl.
  - destruct (normalize_values _ model); simpl; [|by intros ?%elem_of_nil].
    repeat (case_scrutinee; simpl);
      intros [->|?%elem_of_nil]%elem_of_cons; eauto; done.
  - repeat (case_scrutinee; simpl);
      intros [->|?%elem_of_nil]%elem_of_cons; eauto; done.
Qed.

(** The three ways an iteration of the dispatch loop goes. *)
Lemma dispatch_slot_inv data nm i d w r w' :
  dispatch_slot tf data nm i d w = (r, w') ->
  (r = Ok d /\ w' = w /\ (nm <= i \/ models (self w) !! i = Some None))
  \/ (r = Raise IndexError /\ w' = w /\ i < nm /\ models (self w) !! i = None)
  \/ (exists m, i < nm /\ models (self w) !! i = Some (Some m)
       /\ w' = mkWorld (self w)
                (trace w ++ JumpToElement i ::
                   match matrices data !! i with
                   | Some matrix => predict_events tf m matrix
                   | None => []
                   end)
                (geometry w)
       /\ r = (let+ matrix := index_list (matrices data) i in
               let+ prediction := prediction_of tf m matrix in
               scatter 0 (vertices m) prediction d)).
Proof.
  unfold dispatch_slot. case_decide as Hi.
  { intros [= <- <-]. left. auto. }
  unfold bind, gets. destruct (models (self w) !! i) as [[m|]|] eqn:Hm.
  - intros H. right. right. exists m. split; [lia|]. split; [done|].
    revert H. unfold emit, modify, lift, index_list. simpl.
    destruct (matrices data !! i) as [matrix|]; simpl.
    + rewrite predict_spec. simpl.
      destruct (prediction_of tf m matrix); simpl; intros [= <- <-];
        by rewrite <- app_assoc.
    + by intros [= <- <-].
  - intros [= <- <-]. left. auto.
  - intros [= <- <-]. right. left. split; [done|]. split; [done|]. split; [lia|done].
Qed.

End Dispatch.

(** ** The scatter loop *)

Lemma py_slice_ext {A} (a b : list A) s e :
  length a = length b ->
  (forall p, s <= p < e -> a !! p = b !! p) ->
  py_slice a s e = py_slice b s e.
Proof.
  intros Hlen Hp. apply list_eq. intros c. unfold py_slice.
  destruct (decide (c < e - s)).
  - rewrite !lookup_take_lt, !lookup_drop by done. apply Hp. lia.
  - rewrite !lookup_take_ge by lia. done.
Qed.

Lemma scatter_length index vs prediction d d' :
  scatter index vs prediction d = Ok d' -> length d' = length d.
Proof.
  revert index d. induction vs as [|vtx vs IH]; intros index d; simpl.
  - by intros [= <-].
  - destruct (np_set_slice _ _ _ _) as [d1|] eqn:H1; [|done]. simpl.
    intros ->%IH. by eapply np_set_slice_length.
Qed.

(** The scatter loop writes inside the triples of its vertices only. *)
Lemma scatter_outside index vs prediction d d' p :
  scatter index vs prediction d = Ok d' ->
  (forall vtx, vtx ∈ vs -> p < vtx * 3 \/ vtx * 3 + 3 <= p) ->
  d' !! p = d !! p.
Proof.
  revert index d. induction vs as [|vtx vs IH]; intros index d; simpl.
  - by intros [= <-].
  - destruct (np_set_slice _ _ _ _) as [d1|] eqn:H1; [|done]. simpl.
    intros H Hp. rewrite (IH _ _ H) by (intros; apply Hp; by right).
    eapply np_set_slice_outside; [done|]. apply Hp. by left.
Qed.

(** The triple of a vertex holds what its last occurrence in the vertex
    list wrote. *)
Lemma scatter_last index vs prediction d d' k v :
  scatter index vs prediction d = Ok d' ->
  vs !! k = Some v ->
  (forall k', k < k' -> vs !! k' <> Some v) ->
  (index + k) * 3 + 3 <= length prediction ->
  py_slice d' (v * 3) (v * 3 + 3)
    = py_slice prediction ((index + k) * 3) ((index + k) * 3 + 3)
  /\ v * 3 + 3 <= length d.
Proof.
  revert index d k. induction vs as [|vtx vs IH]; intros index d k; [done|].
  simpl. destruct (np_set_slice _ _ _ _) as [d1|] eqn:H1; [|done]. simpl.
  intros H Hk Hlast Hlen. destruct k as [|k]; simpl in Hk.
  - injection Hk as ->. rewrite Nat.add_0_r in *.
    apply np_set_slice_inside in H1 as [H1 Hd].
    2:{ rewrite py_slice_length. lia. }
    2:{ lia. }
    split; [|done]. rewrite <- H1.
    apply py_slice_ext; [by eapply scatter_length|].
    intros p Hp. eapply scatter_outside; [done|].
    intros vtx [k' Hk']%list_elem_of_lookup.
    assert (vtx <> v) by (intros ->; by apply (Hlast (S k')); [lia|]).
    lia.
  - destruct (IH (S index) d1 k H Hk) as [Hs Hd].
    + intros k' Hk'. apply (Hlast (S k')). lia.
    + lia.
    + rewrite Hs. split; [do 2 f_equal; lia|].
      by erewrite <- np_set_slice_length.
Qed.

(** ** The dispatch loop *)

Section Loop.
Variable tf : TFRuntime.

(** The dispatch loop leaves the node and the geometry alone, and what it
    emits are reads and runs of slots that hold a model. *)
Lemma dispatch_loop_frame data nm idxs d w r w' :
  for_each idxs (dispatch_slot tf data nm) d w = (r, w') ->
  (forall i, i ∈ idxs -> i < length (matrices data)) ->
  self w' = self w /\ geometry w' = geometry w
  /\ exists evs, trace w' = trace w ++ evs
       /\ Forall (dispatched (models (self w)) (length (matrices data))) evs.
Proof.
  revert d w. induction idxs as [|i idxs IH]; intros d w; simpl.
  - intros [= <- <-] _. split; [done|]. split; [done|].
    exists []. by rewrite app_nil_r.
  - unfold bind. destruct (dispatch_slot tf data nm i d w) as [r1 w1] eqn:H1.
    intros H Hidx.
    assert (self w1 = self w /\ geometry w1 = geometry w
            /\ exists evs, trace w1 = trace w ++ evs
                 /\ Forall (dispatched (models (self w)) (length (matrices data))) evs)
      as (Hs1 & Hg1 & evs1 & Ht1 & Hev1).
    { apply dispatch_slot_inv in H1
        as [(_ & -> & _)|[(_ & -> & _)|(m & Hi & Hm & -> & _)]].
      - split; [done|]. split; [done|]. exists []. by rewrite app_nil_r.
      - split; [done|]. split; [done|]. exists []. by rewrite app_nil_r.
      - split; [done|]. split; [done|]. eexists. split; [done|].
        assert (i < length (matrices data)) by (apply Hidx; by left).
        constructor; [simpl; eauto|].
        destruct (matrices data !! i); [|done].
        apply Forall_forall. intros e [input ->]%predict_events_run.
        simpl. eauto. }
    destruct r1 as [d1|x].
    + apply IH in H as (Hs & Hg & evs & Ht & Hev); [|intros; apply Hidx; by right].
      split; [congruence|]. split; [congruence|].
      exists (evs1 ++ evs). rewrite Ht, Ht1, app_assoc. split; [done|].
      apply Forall_app. split; [done|]. by rewrite <- Hs1.
    + injection H as <- <-. eauto 10.
Qed.

(** Positions outside the triples of the vertices of the slots visited
    keep their value. *)
Lemma dispatch_loop_outside data nm idxs d w D w' p :
  for_each idxs (dispatch_slot tf data nm) d w = (Ok D, w') ->
  length D = length d
  /\ ((forall i m vtx, i ∈ idxs -> models (self w) !! i = Some (Some m) ->
         vtx ∈ vertices m -> p < vtx * 3 \/ vtx * 3 + 3 <= p) ->
      D !! p = d !! p).
Proof.
  revert d w. induction idxs as [|i idxs IH]; intros d w; simpl.
  - by intros [= <- <-].
  - unfold bind. destruct (dispatch_slot tf data nm i d w) as [[d1|x] w1] eqn:H1; [|done].
    intros H. pose proof H1 as Hinv. apply dispatch_slot_inv in Hinv.
    assert (self w1 = self w) as Hself.
    { destruct Hinv as [(_ & -> & _)|[(_ & -> & _)|(m & _ & _ & -> & _)]]; done. }
    apply IH in H as [Hlen Hout]. rewrite Hself in Hout.
    assert (length d1 = length d
            /\ ((forall m vtx, models (self w) !! i = Some (Some m) ->
                   vtx ∈ vertices m -> p < vtx * 3 \/ vtx * 3 + 3 <= p) ->
                d1 !! p = d !! p)) as [Hlen1 Hout1].
    { destruct Hinv as [([= ->] & _)|[([=] & _)|(m & _ & Hm & _ & Hr)]]; [done|].
      destruct (index_list _ _); [|done]. simpl in Hr.
      destruct (prediction_of _ _ _); [|done]. simpl in Hr. symmetry in Hr.
      split; [by eapply scatter_length|].
      intros Hp. eapply scatter_outside; [done|]. intros. by eapply Hp. }
    split; [congruence|]. intros Hp.
    rewrite Hout by (intros; eapply Hp; [by right|done..]).
    apply Hout1. intros. eapply Hp; [by left|done..].
Qed.

End Loop.

(** ** The registry *)

Section Registry.
Variable fs : string -> file.
Variable tf : TFRuntime.

Lemma load_model_spec data i model w :
  load_model tf data i model w =
    (resolve tf data i model,
     mkWorld (self w) (trace w ++ resolve_events tf data i model) (geometry w)).
Proof.
  destruct (load_model_emits tf data i model) as (r & evs & H).
  unfold resolve, resolve_events. rewrite !H. done.
Qed.

(** The loop of [loadModels] appends to [self.models], slot by slot, and
    stops at the first slot that raises. *)
Lemma load_slots_appends data entries :
  forall i, exists evs,
    appends (for_each (zip (seq i (length entries)) entries) (load_slot tf data) tt)
      (resolve_all tf data i entries).1 evs (resolve_all tf data i entries).2.
Proof.
  induction entries as [|entry entries IH]; intros i; simpl;
    [|destruct (nonempty entry) as [model|]].
  - exists []. intros w. unfold ret. by rewrite !app_nil_r, node_eta, world_eta.
  - destruct (IH (S i)) as [evs Hrest].
    destruct (resolve tf data i model) as [m|x] eqn:Hres.
    + exists (resolve_events tf data i model ++ evs). intros w.
      unfold bind, append_model, set_models, gets, modify, bind.
      rewrite load_model_spec, Hres. simpl.
      rewrite Hrest. simpl.
      destruct (resolve_all tf data (S i) entries) as [r ms]. simpl.
      by rewrite <- !app_assoc.
    + exists (resolve_events tf data i model). intros w.
      unfold bind. rewrite load_model_spec, Hres. simpl.
      by rewrite app_nil_r, node_eta.
  - destruct (IH (S i)) as [evs Hrest]. exists evs. intros w.
    unfold bind, append_model, set_models, gets, modify, bind. simpl.
    rewrite Hrest. simpl.
    destruct (resolve_all tf data (S i) entries) as [r ms]. simpl.
    by rewrite <- !app_assoc.
Qed.

(** [loadModels] from any world: the cached path becomes [path], the
    registry is rebuilt from nothing, the dirty flag and the geometry are
    left alone. *)
Lemma loadModels_uniform path :
  exists r ms evs, forall w,
    loadModels fs tf path w =
      (r, mkWorld (mkNode (Some path) (location_changed (self w)) ms)
                  (trace w ++ evs) (geometry w)).
Proof.
  unfold loadModels, bind, emit, set_data_location, set_models, gets, modify,
    open_json, path_exists, raise, ret, bind. simpl.
  destruct (fs path) as [| |doc] eqn:Hfs; simpl.
  - eexists _, _, [_; _; _]. intros w. by rewrite <- !app_assoc.
  - eexists _, _, [_; _]. intros w. by rewrite <- !app_assoc.
  - destruct (m_models doc) as [entries|] eqn:Hms.
    + destruct (load_slots_appends doc entries 0) as [evs Hloop].
      eexists _, _, (_ :: _ :: evs). intros w. unfold enumerate.
      rewrite Hloop. simpl. rewrite <- !app_assoc. reflexivity.
    + eexists _, _, [_; _; _]. intros w. simpl. by rewrite <- !app_assoc.
Qed.

Lemma loadModels_spec path w :
  loadModels fs tf path w =
    (load_outcome fs tf path,
     mkWorld (mkNode (Some path) (location_changed (self w)) (loaded fs tf path))
             (trace w ++ load_events fs tf path) (geometry w)).
Proof.
  destruct (loadModels_uniform path) as (r & ms & evs & H).
  unfold load_outcome, loaded, load_events. rewrite !H. done.
Qed.

End Registry.

(** ** The blend loop *)

Lemma mul_zero_finite d e w :
  F64.is_zero d = true -> F64.is_finite e = true -> F64.is_finite w = true ->
  F64.is_zero (F64.mul (F64.mul d e) w) = true.
Proof. destruct d, e, w; done. Qed.

(** A product with a zero envelope, and one with a zero weight: a zero,
    or NaN when the other factor is not a finite number. *)
Lemma mul_zero_envelope d e w :
  F64.is_zero e = true ->
  if F64.is_finite d && F64.is_finite w
  then F64.is_zero (F64.mul (F64.mul d e) w) = true
  else F64.mul (F64.mul d e) w = S754_nan.
Proof. destruct d, e, w; done. Qed.

Lemma mul_zero_weight d e w :
  F64.is_zero w = true ->
  if F64.is_finite (F64.mul d e)
  then F64.is_zero (F64.mul (F64.mul d e) w) = true
  else F64.mul (F64.mul d e) w = S754_nan.
Proof. destruct w; try done. destruct (F64.mul d e); done. Qed.

Lemma add_zero_same x z :
  F64.is_zero z = true -> F64.same_number x (F64.add x z).
Proof.
  destruct z as [sz| | |]; try done. intros _.
  destruct x as [[] | | |]; destruct sz; try (by left); by right.
Qed.

Lemma np_zeros_lookup n p x : np_zeros n !! p = Some x -> x = F64.zero.
Proof. unfold np_zeros. by intros [-> _]%lookup_replicate. Qed.

Lemma blend_slice (data : DataBlock) (deltas : ndarray) index c :
  c < 3 ->
  index_list
    (map (fun d => F64.mul (F64.mul d (envelope data)) (weightValue data index))
         (py_slice deltas (index * 3) (index * 3 + 3))) c
  = match deltas !! (index * 3 + c) with
    | Some d => Ok (F64.mul (F64.mul d (envelope data)) (weightValue data index))
    | None => Raise IndexError
    end.
Proof.
  intros Hc. unfold index_list. rewrite list_lookup_fmap.
  rewrite py_slice_lookup by lia. by destruct (deltas !! _).
Qed.

(** [blend_point] returns exactly when the triple of the vertex lies in
    the buffer, and then adds the scaled triple. *)
Lemma blend_point_ok data deltas index pos :
  index * 3 + 3 <= length deltas ->
  blend_point data deltas index pos = Ok (blended data deltas (index, pos)).2.
Proof.
  intros Hlen.
  destruct (lookup_lt_is_Some_2 deltas (index * 3 + 0)) as [d0 H0]; [lia|].
  destruct (lookup_lt_is_Some_2 deltas (index * 3 + 1)) as [d1 H1]; [lia|].
  destruct (lookup_lt_is_Some_2 deltas (index * 3 + 2)) as [d2 H2]; [lia|].
  unfold blend_point, blended, final_offset.
  rewrite !blend_slice by lia. cbn [fst snd].
  rewrite H0, H1, H2. reflexivity.
Qed.

Lemma blend_point_inv data deltas index pos pos' :
  blend_point data deltas index pos = Ok pos' ->
  index * 3 + 3 <= length deltas.
Proof.
  unfold blend_point. rewrite !blend_slice by lia.
  destruct (deltas !! (index * 3 + 0)); [|done].
  destruct (deltas !! (index * 3 + 1)); [|done].
  destruct (deltas !! (index * 3 + 2)) eqn:H2; [|done].
  intros _. apply lookup_lt_Some in H2. lia.
Qed.

(** The blend loop keeps the components and their vertex indices; each
    position is the old one or the blended one. *)
Lemma blend_loop_inv data deltas g r g' :
  blend_loop data deltas g = (r, g') ->
  Forall2 (fun a b => b = a \/ (blend_point data deltas a.1 a.2 = Ok b.2 /\ b.1 = a.1)) g g'.
Proof.
  revert r g'. induction g as [|[index pos] g IH]; intros r g'; simpl.
  - intros [= <- <-]. constructor.
  - destruct (blend_point data deltas index pos) as [pos'|x] eqn:Hp.
    + destruct (blend_loop data deltas g) as [r1 g1]. intros [= <- <-].
      constructor; [right; done|]. by eapply IH.
    + intros [= <- <-]. apply Forall2_same_length_lookup_2; [done|].
      intros i a b Ha Hb. left. congruence.
Qed.

Lemma blend_loop_ok data deltas g :
  (forall index pos, (index, pos) ∈ g -> index * 3 + 3 <= length deltas) ->
  blend_loop data deltas g = (Ok tt, map (blended data deltas) g).
Proof.
  induction g as [|[index pos] g IH]; intros Hg; simpl; [done|].
  rewrite blend_point_ok by (eapply Hg; left).
  rewrite IH by (intros; eapply Hg; by right). done.
Qed.

(** ** Overlapping slots *)

Lemma seq_split_at j n :
  j < n -> seq 0 n = seq 0 j ++ [j] ++ seq (S j) (n - S j).
Proof.
  intros Hj. replace n with (j + (1 + (n - S j))) at 1 by lia.
  rewrite !seq_app. simpl. by rewrite Nat.add_1_r.
Qed.

Section ScatterOrder.
Variable tf : TFRuntime.


End ScatterOrder.

(** ** One evaluation *)

Section Evaluation.
Variable fs : string -> file.
Variable tf : TFRuntime.

(** [deform] is the reload of a dirty node, the dispatch loop over a
    zeroed buffer, and the blend loop. *)
Lemma deform_unfold data w :
  deform fs tf data w =
    match (if location_changed (self w)
           then load_outcome fs tf (trainingData data) else Ok tt) with
    | Raise x => (Raise x, reloaded fs tf data w)
    | Ok _ =>
        match dispatch tf data (length (models (self (reloaded fs tf data w))))
                (np_zeros (3 * numVertices data)) (reloaded fs tf data w) with
        | (Ok D, w2) => blend data D w2
        | (Raise x, w2) => (Raise x, w2)
        end
    end.
Proof.
  unfold deform, reloaded, bind, gets.
  destruct (location_changed (self w)) eqn:Hc.
  - unfold set_location_changed, modify. rewrite loadModels_spec. simpl.
    destruct (load_outcome fs tf (trainingData data)); done.
  - unfold ret. done.
Qed.

Lemma dispatch_frame data nm d w :
  self (dispatch tf data nm d w).2 = self w
  /\ geometry (dispatch tf data nm d w).2 = geometry w
  /\ exists evs, trace (dispatch tf data nm d w).2 = trace w ++ evs
       /\ Forall (dispatched (models (self w)) (length (matrices data))) evs.
Proof.
  destruct (dispatch tf data nm d w) as [r w'] eqn:H.
  eapply dispatch_loop_frame; [exact H|].
  intros i Hi%elem_of_seq. lia.
Qed.

Lemma dispatch_slot_take data nm i d w :
  i < nm ->
  dispatch_slot tf (with_matrices data (take nm (matrices data))) nm i d w
  = dispatch_slot tf data nm i d w.
Proof.
  intros Hi. unfold dispatch_slot, index_list. simpl.
  by rewrite lookup_take_lt.
Qed.

(** C8.  In the dispatch loop over the models [ms] of the node: an index
    that is at or beyond the number of models, or whose slot is empty, is
    skipped, leaving the buffer and the world as they were; every
    transform the loop reads and every session it runs belongs to an
    index below the number of transforms whose slot holds a model, so
    models beyond the transforms are never run and no other transform is
    read; and the loop does the same when the transforms beyond the number
    of models are dropped. *)
Theorem C8_dispatch_skips (data : DataBlock) (w : World) (deltas : ndarray) :
  let ms := models (self w) in
  let numModels := length ms in
  (forall i, numModels <= i \/ ms !! i = Some None ->
     dispatch_slot tf data numModels i deltas w = (Ok deltas, w))
  /\ (exists evs,
        trace (dispatch tf data numModels deltas w).2 = trace w ++ evs
        /\ Forall (dispatched ms (length (matrices data))) evs)
  /\ dispatch tf data numModels deltas w
     = dispatch tf (with_matrices data (take numModels (matrices data)))
         numModels deltas w.
Proof.
  intros ms numModels. split; [|split].
  - intros i Hi. unfold dispatch_slot. case_decide; [done|].
    destruct Hi as [Hi|Hi]; [lia|].
    unfold bind, gets. fold ms. by rewrite Hi.
  - apply dispatch_frame.
  - unfold dispatch. simpl. rewrite length_take.
    set (n := length (matrices data)).
    replace (seq 0 n) with (seq 0 (numModels `min` n)
                              ++ seq (numModels `min` n) (n - numModels `min` n)).
    2:{ rewrite <- seq_app. f_equal. lia. }
    rewrite for_each_app.
    rewrite (for_each_ext _ _ (dispatch_slot tf
               (with_matrices data (take numModels (matrices data))) numModels)).
    2:{ intros i d s [_ Hi]%elem_of_seq. symmetry. apply dispatch_slot_take. lia. }
    destruct (for_each _ _ deltas w) as [[d1|x] w1]; [|done].
    apply for_each_skip. intros i d s [Hi1 Hi2]%elem_of_seq.
    unfold dispatch_slot. case_decide; [done|]. lia.
Qed.

(** C3, as the code has it.  Over a buffer of three scalars per vertex,
    the blend loop replaces the position of every vertex [v] of the
    iterator by its position plus [deltas[3v + c] * envelope * weight(v)]
    on each axis [c], with nothing else applied.  When the envelope is
    zero, that offset is zero if the delta and the weight are finite, and
    NaN if either is not; when the weight is zero, it is zero if the
    product of the delta and the envelope is finite, and NaN if that
    product is not, as when it overflows: zero times an infinity is
    NaN. *)
Theorem C3_blend_adds_scaled_delta
    (data : DataBlock) (deltas : ndarray) (w : World) :
  length deltas = 3 * numVertices data ->
  (forall v pos, (v, pos) ∈ geometry w -> v < numVertices data) ->
  blend data deltas w
    = (Ok tt, mkWorld (self w) (trace w) (map (blended data deltas) (geometry w)))
  /\ (forall v c,
        (F64.is_zero (envelope data) = true ->
         if F64.is_finite (default F64.zero (deltas !! (v * 3 + c)))
            && F64.is_finite (weightValue data v)
         then F64.is_zero (final_offset data deltas v c) = true
         else final_offset data deltas v c = S754_nan)
        /\ (F64.is_zero (weightValue data v) = true ->
            if F64.is_finite
                 (F64.mul (default F64.zero (deltas !! (v * 3 + c)))
                          (envelope data))
            then F64.is_zero (final_offset data deltas v c) = true
            else final_offset data deltas v c = S754_nan)).
Proof.
  intros Hlen Hgeo. split.
  - unfold blend. rewrite blend_loop_ok; [done|].
    intros index pos Hin%Hgeo. lia.
  - intros v c. unfold final_offset. split.
    + apply mul_zero_envelope.
    + apply mul_zero_weight.
Qed.

(** C10, as the code has it.  Whatever [deform] does, returning or
    raising, a component of the iterator whose vertex is in the vertex
    list of no model of the registry keeps its vertex and its position,
    for every finite envelope and weight: each coordinate is the same
    number as before (identical, except that adding [0.0] to a zero
    coordinate gives a zero). *)
Theorem C10_unlisted_vertex_unchanged
    (data : DataBlock) (w w' : World) (r : result unit)
    (k v : nat) (pos : Point) :
  deform fs tf data w = (r, w') ->
  geometry w !! k = Some (v, pos) ->
  (forall m, Some m ∈ models (self w') -> v ∉ vertices m) ->
  F64.is_finite (envelope data) = true ->
  F64.is_finite (weightValue data v) = true ->
  exists pos', geometry w' !! k = Some (v, pos') /\ same_point pos pos'.
Proof.
  intros Hrun Hk Hv He Hw. rewrite deform_unfold in Hrun.
  assert (same_point pos pos) as Hsame by (repeat split; by left).
  assert (geometry (reloaded fs tf data w) = geometry w) as Hg1.
  { unfold reloaded. by destruct (location_changed (self w)). }
  destruct (if location_changed (self w) then _ else _) as [[]|x].
  2:{ injection Hrun as <- <-. rewrite Hg1. eauto. }
  set (w1 := reloaded fs tf data w) in *.
  destruct (dispatch_frame data (length (models (self w1)))
              (np_zeros (3 * numVertices data)) w1) as (Hs2 & Hg2 & _).
  destruct (dispatch tf data _ _ w1) as [[D|x] w2] eqn:Hd; simpl in *.
  2:{ injection Hrun as <- <-. rewrite Hg2, Hg1. eauto. }
  unfold blend in Hrun.
  destruct (blend_loop data D (geometry w2)) as [r' g'] eqn:Hb.
  injection Hrun as <- <-. simpl in *.
  apply blend_loop_inv in Hb. rewrite Hg2, Hg1 in Hb.
  destruct (Forall2_lookup_l _ _ _ _ _ Hb Hk) as ([v' pos'] & Hk' & Hrel).
  exists pos'. destruct Hrel as [[= -> ->]|[Hbp Hfst]]; [done|].
  simpl in *. subst v'. split; [done|].
  pose proof (blend_point_inv _ _ _ _ _ Hbp) as Hrange.
  rewrite blend_point_ok in Hbp by done. injection Hbp as <-.
  assert (forall c, c < 3 -> F64.is_zero (final_offset data D v c) = true) as Hoff.
  { intros c Hc. unfold final_offset. apply mul_zero_finite; [|done..].
    unfold dispatch in Hd. eapply dispatch_loop_outside in Hd as [HlenD Hout].
    rewrite Hout.
    - destruct (np_zeros _ !! _) as [z|] eqn:Hz; [|done].
      by apply np_zeros_lookup in Hz as ->.
    - intros i m vtx _ Hm Hvtx.
      assert (vtx <> v); [|lia]. intros ->.
      eapply Hv; [|done]. rewrite Hs2. eapply list_elem_of_lookup_2, Hm. }
  repeat split; simpl; apply add_zero_same, Hoff; lia.
Qed.

End Evaluation.

(** ** The dirty flag and the cached registry *)

Section Cache.
Variable fs : string -> file.
Variable tf : TFRuntime.

Lemma resolve_all_length data entries :
  forall i,
    match (resolve_all tf data i entries).1 with
    | Ok _ => length (resolve_all tf data i entries).2 = length entries
    | Raise _ => length (resolve_all tf data i entries).2 < length entries
    end.
Proof.
  induction entries as [|entry entries IH]; intros i; simpl; [done|].
  destruct (nonempty entry) as [model|].
  - destruct (resolve tf data i model); simpl; [|lia].
    specialize (IH (S i)).
    destruct (resolve_all tf data (S i) entries) as [[]?]; simpl in *; lia.
  - specialize (IH (S i)).
    destruct (resolve_all tf data (S i) entries) as [[]?]; simpl in *; lia.
Qed.

(** A successful load has built every slot of the manifest. *)
Lemma resolve_all_ok data entries :
  forall i, (resolve_all tf data i entries).1 = Ok tt ->
    forall k, match entries !! k with
              | Some entry =>
                  match nonempty entry with
                  | None => (resolve_all tf data i entries).2 !! k = Some None
                  | Some model =>
                      exists m, resolve tf data (i + k) model = Ok m
                        /\ (resolve_all tf data i entries).2 !! k
                           = Some (Some m)
                  end
              | None => (resolve_all tf data i entries).2 !! k = None
              end.
Proof.
  induction entries as [|entry entries IH]; intros i; simpl.
  { intros _ k. by destruct k. }
  destruct (nonempty entry) as [model|] eqn:Hentry.
  - destruct (resolve tf data i model) as [m|] eqn:Hm; [|done].
    specialize (IH (S i)).
    destruct (resolve_all tf data (S i) entries) as [r ms]; simpl in *.
    intros Hr [|k]; simpl.
    + rewrite Hentry, Nat.add_0_r. eauto.
    + specialize (IH Hr k). by rewrite Nat.add_succ_r.
  - specialize (IH (S i)).
    destruct (resolve_all tf data (S i) entries) as [r ms]; simpl in *.
    intros Hr [|k]; simpl; [by rewrite Hentry|].
    specialize (IH Hr k). by rewrite Nat.add_succ_r.
Qed.

(** What a load leaves in the registry, by what the path names. *)
Lemma loaded_cases path :
  match fs path with
  | Missing | Unparsable => loaded fs tf path = []
  | Json doc =>
      match m_models doc with
      | None => load_outcome fs tf path = Ok tt /\ loaded fs tf path = []
      | Some entries =>
          load_outcome fs tf path = (resolve_all tf doc 0 entries).1
          /\ loaded fs tf path = (resolve_all tf doc 0 entries).2
      end
  end.
Proof.
  unfold loaded, load_outcome, loadModels, bind, emit, set_data_location,
    set_models, gets, modify, open_json, path_exists, raise, ret, bind. simpl.
  destruct (fs path) as [| |doc]; simpl; [done..|].
  destruct (m_models doc) as [entries|]; [|done].
  destruct (load_slots_appends tf doc entries 0) as [evs Hloop].
  unfold enumerate. rewrite Hloop. done.
Qed.

Lemma loadModels_missing path w :
  fs path = Missing ->
  loadModels fs tf path w =
    (Raise IOError,
     mkWorld (mkNode (Some path) (location_changed (self w)) [])
       (trace w ++ [LogInfo ("Loading models from " +:+ path);
                    LogError ("Could not find file: " +:+ path);
                    OpenFile path])
       (geometry w)).
Proof.
  intros Hfs.
  unfold loadModels, bind, emit, set_data_location,
    set_models, gets, modify, open_json, path_exists, raise, ret, bind. simpl.
  rewrite Hfs. simpl. by rewrite <- !app_assoc.
Qed.

(** Whatever path is cached, [loadModels] opens the manifest. *)
Lemma loadModels_always_opens path w :
  OpenFile path ∈ trace (loadModels fs tf path w).2.
Proof.
  unfold loadModels, bind, emit, set_data_location,
    set_models, gets, modify, open_json, path_exists, raise, ret, bind. simpl.
  destruct (fs path) as [| |doc]; simpl; [set_solver..|].
  destruct (m_models doc) as [entries|]; simpl; [|set_solver].
  destruct (load_slots_appends tf doc entries 0) as [evs Hloop].
  unfold enumerate. rewrite Hloop. simpl. set_solver.
Qed.

Lemma setDependentsDirty_spec plug w :
  setDependentsDirty plug w =
    (Ok tt, if decide (plug = data_loc) then mark_dirty w else w).
Proof. unfold setDependentsDirty. by case_decide. Qed.

Lemma preEvaluation_spec dirty w :
  preEvaluation dirty w =
    (Ok tt, if decide (data_loc ∈ dirty) then mark_dirty w else w).
Proof. unfold preEvaluation. by case_decide. Qed.

Lemma deform_self data w :
  self (deform fs tf data w).2 = self (reloaded fs tf data w)
  /\ exists evs,
       trace (deform fs tf data w).2 = trace (reloaded fs tf data w) ++ evs
       /\ Forall (dispatched (models (self (reloaded fs tf data w)))
                    (length (matrices data))) evs.
Proof.
  rewrite deform_unfold.
  destruct (if location_changed (self w) then _ else _) as [[]|x].
  2:{ split; [done|]. exists []. by rewrite app_nil_r. }
  set (w1 := reloaded fs tf data w).
  destruct (dispatch_frame tf data (length (models (self w1)))
              (np_zeros (3 * numVertices data)) w1) as (Hs & Hg & evs & Ht & Hev).
  destruct (dispatch tf data _ _ w1) as [[D|x] w2]; simpl in *; [|eauto].
  unfold blend. destruct (blend_loop data D (geometry w2)). simpl. eauto.
Qed.

Lemma reachable_registry_inv w :
  reachable fs tf w -> registry_inv fs tf (self w).
Proof.
  induction 1 as [|w c Hw IH]; [done|].
  destruct c as [plug|dirty|data g]; simpl.
  - rewrite setDependentsDirty_spec. simpl. case_decide; [|done].
    unfold registry_inv in *. simpl.
    destruct (data_location (self w)); [done|]. by destruct IH.
  - rewrite preEvaluation_spec. simpl. case_decide; [|done].
    unfold registry_inv in *. simpl.
    destruct (data_location (self w)); [done|]. by destruct IH.
  - unfold bind, set_geometry, modify.
    destruct (deform_self data (mkWorld (self w) (trace w) g)) as [-> _].
    unfold reloaded. simpl. by destruct (location_changed (self w)).
Qed.

(** C9, as the code has it.  A new node is dirty and empty.  Both dirty
    callbacks, on the path attribute, set the flag and nothing else.  An
    evaluation of a dirty node clears the flag, caches the path and leaves
    in the registry what a whole load of that path builds from nothing,
    whether the load returns or raises.  An evaluation of a clean node
    leaves the node as it is and only reads transforms and runs sessions:
    nothing is loaded again.  A load leaves the registry empty when the
    file is missing, is no JSON document or has no ["models"]; when it
    returns it has built every slot of the manifest, [None] for an entry
    that is [null] or an object without keys and a model for any other;
    when it raises in a slot, the slots before that one stay in the
    registry.  In every world the node goes through, the files staying as
    they are, the registry is that of a whole load of the cached path,
    and a node without cached path is dirty and empty. *)
Theorem C9_cache_state_machine :
  (location_changed init = true /\ models init = [] /\ data_location init = None)
  /\ (forall w dirty,
        setDependentsDirty data_loc w = (Ok tt, mark_dirty w)
        /\ (data_loc ∈ dirty -> preEvaluation dirty w = (Ok tt, mark_dirty w)))
  /\ (forall data w,
        location_changed (self w) = true ->
        self (deform fs tf data w).2
          = mkNode (Some (trainingData data)) false
              (loaded fs tf (trainingData data))
        /\ exists evs,
             trace (deform fs tf data w).2
               = trace w ++ load_events fs tf (trainingData data) ++ evs)
  /\ (forall data w,
        location_changed (self w) = false ->
        self (deform fs tf data w).2 = self w
        /\ exists evs,
             trace (deform fs tf data w).2 = trace w ++ evs
             /\ Forall (dispatched (models (self w)) (length (matrices data))) evs)
  /\ (forall path,
        match fs path with
        | Missing | Unparsable => loaded fs tf path = []
        | Json doc =>
            match m_models doc with
            | None => loaded fs tf path = []
            | Some entries =>
                loaded fs tf path = (resolve_all tf doc 0 entries).2
                /\ match load_outcome fs tf path with
                   | Ok _ =>
                       length (loaded fs tf path) = length entries
                       /\ forall k,
                            match entries !! k with
                            | Some entry =>
                                match nonempty entry with
                                | None =>
                                    loaded fs tf path !! k = Some None
                                | Some model =>
                                    exists m, resolve tf doc k model = Ok m
                                      /\ loaded fs tf path !! k
                                         = Some (Some m)
                                end
                            | None => loaded fs tf path !! k = None
                            end
                   | Raise _ => length (loaded fs tf path) < length entries
                   end
            end
        end)
  /\ (forall w, reachable fs tf w -> registry_inv fs tf (self w)).
Proof.
  split; [done|]. split; [|split; [|split; [|split]]].
  - intros w dirty. split.
    + by rewrite setDependentsDirty_spec.
    + intros Hin. rewrite preEvaluation_spec. by case_decide.
  - intros data w Hdirty.
    destruct (deform_self data w) as (-> & evs & -> & _).
    unfold reloaded. rewrite Hdirty. simpl. split; [done|].
    exists evs. by rewrite <- app_assoc.
  - intros data w Hclean.
    destruct (deform_self data w) as (-> & evs & -> & Hev).
    unfold reloaded in *. rewrite Hclean in *. eauto.
  - intros path. pose proof (loaded_cases path) as H.
    destruct (fs path) as [| |doc]; [done..|].
    destruct (m_models doc) as [entries|]; [|by destruct H].
    destruct H as [-> ->]. split; [done|].
    pose proof (resolve_all_length doc entries 0) as Hlen.
    pose proof (resolve_all_ok doc entries 0) as Hall.
    destruct (resolve_all tf doc 0 entries).1 as [[]|x]; [|done].
    split; [done|]. intros k. by apply Hall.
  - apply reachable_registry_inv.
Qed.

End Cache.

(** ** Evaluations on concrete inputs *)

(** C1 at a new node whose path names no file.  The error is logged and
    the registry is empty, but [open] then raises [IOError], which leaves
    [loadModels] and [deform]: the dispatch and blend loops do not run. *)
Theorem C1_missing_manifest_raises :
  Ex.fs "/training/missing.json" = Missing
  /\ deform Ex.fs Ex.tf (Ex.data "/training/missing.json") Ex.start
     = (Raise IOError,
        mkWorld (mkNode (Some "/training/missing.json") false [])
          [LogInfo "Loading models from /training/missing.json";
           LogError "Could not find file: /training/missing.json";
           OpenFile "/training/missing.json"]
          Ex.mesh).
Proof. split; vm_compute; reflexivity. Qed.

(** C4 at a node that has loaded [Ex.manifest]: [loadModels] with the cached
    path opens the manifest and restores both graphs again. *)
Theorem C4_load_of_cached_path_reloads :
  data_location (self Ex.ready) = Some "/training/output_data.json"
  /\ loadModels Ex.fs Ex.tf "/training/output_data.json" Ex.ready
     = (Ok tt,
        mkWorld (mkNode (Some "/training/output_data.json") false
                   [Some Ex.model0; None; Some Ex.model2])
          [LogInfo "Loading models from /training/output_data.json";
           OpenFile "/training/output_data.json";
           RestoreGraph (Some "joint0.meta") (Some "/training");
           RestoreGraph (Some "joint2.meta") (Some "/training")]
          Ex.mesh).
Proof. split; vm_compute; reflexivity. Qed.

(** C9 does not hold as it reads.  Under [Ex.broken], whose second graph
    cannot be restored, the load raises and leaves the node clean with the
    first model in the registry. *)
Lemma C9_failed_load_leaves_partial_registry :
  let w := (deform Ex.fs Ex.tf (Ex.data "/training/broken.json") Ex.start).2 in
  (deform Ex.fs Ex.tf (Ex.data "/training/broken.json") Ex.start).1
    = Raise RuntimeError
  /\ location_changed (self w) = false
  /\ models (self w) = [Some Ex.model0]
  /\ models (self w) <> [].
Proof. vm_compute. repeat split; discriminate. Qed.


(** C3 at [Ex.deltas] with the envelope at zero. *)
Lemma C3_witness :
  blend Ex.muted Ex.deltas Ex.ready
    = (Ok tt, mkWorld (self Ex.ready) (trace Ex.ready)
                (map (blended Ex.muted Ex.deltas) (geometry Ex.ready)))
  /\ F64.is_zero (final_offset Ex.muted Ex.deltas 1 0) = true.
Proof.
  destruct (C3_blend_adds_scaled_delta Ex.muted Ex.deltas Ex.ready)
    as [Hblend Hzero].
  - reflexivity.
  - intros v pos Hin. apply list_elem_of_In in Hin. simpl in Hin.
    destruct Hin as [[= <- <-]|[[= <- <-]|[[= <- <-]|[]]]]; simpl; lia.
  - split; [exact Hblend|].
    destruct (Hzero 1 0) as [Henv _]. apply Henv. reflexivity.
Defined.

(** C3 does not hold as it reads.  With the envelope at zero, an infinite
    delta gives the offset NaN, and the blend loop moves the vertex to
    NaN on that axis.  With every weight at zero and the envelope at two,
    the finite delta [sys.float_info.max] gives the offset NaN as well:
    its product with the envelope overflows. *)
Lemma C3_zero_times_infinity_is_nan :
  F64.is_zero (envelope Ex.muted) = true
  /\ final_offset Ex.muted Ex.infinite_delta 0 0 = S754_nan
  /\ blend Ex.muted Ex.infinite_delta Ex.ready
     = (Ok tt,
        mkWorld (self Ex.ready) (trace Ex.ready)
          [(0, {| px := S754_nan; py := Ex.f 0; pz := Ex.f 0 |});
           (1, Ex.origin); (2, Ex.origin)])
  /\ F64.is_zero (weightValue Ex.unweighted 0) = true
  /\ F64.is_finite F64.max_float = true
  /\ F64.is_finite (envelope Ex.unweighted) = true
  /\ final_offset Ex.unweighted Ex.huge_delta 0 0 = S754_nan.
Proof. vm_compute. repeat split; reflexivity. Qed.

(** C10 at [Ex.manifest]: vertex 2 is listed by no slot and stays at the
    origin. *)
Lemma C10_witness :
  exists pos',
    geometry (deform Ex.fs Ex.tf (Ex.data "/training/output_data.json")
                Ex.start).2 !! 2 = Some (2, pos')
    /\ same_point Ex.origin pos'.
Proof.
  apply (C10_unlisted_vertex_unchanged Ex.fs Ex.tf
           (Ex.data "/training/output_data.json") Ex.start _
           (deform Ex.fs Ex.tf (Ex.data "/training/output_data.json")
              Ex.start).1 2 2 Ex.origin).
  - destruct (deform _ _ _ _); reflexivity.
  - reflexivity.
  - intros m Hm Hv. vm_compute in Hm.
    apply list_elem_of_In in Hm. simpl in Hm.
    destruct Hm as [[= <-]|[[=]|[[= <-]|[]]]];
      apply list_elem_of_In in Hv; simpl in Hv; lia.
  - reflexivity.
  - reflexivity.
Defined.

(** C10 does not hold as it reads.  With an infinite envelope, vertex 2
    of [Ex.manifest], which no slot lists, is moved from the origin to NaN
    on every axis: its zero delta times the envelope is NaN. *)
Lemma C10_infinite_envelope_moves_unlisted_vertex :
  let w := (deform Ex.fs Ex.tf Ex.unbounded Ex.start).2 in
  (deform Ex.fs Ex.tf Ex.unbounded Ex.start).1 = Ok tt
  /\ models (self w) = [Some Ex.model0; None; Some Ex.model2]
  /\ vertices Ex.model0 = [0; 1] /\ vertices Ex.model2 = [1]
  /\ geometry Ex.start !! 2 = Some (2, Ex.origin)
  /\ geometry w !! 2
     = Some (2, {| px := S754_nan; py := S754_nan; pz := S754_nan |}).
Proof. vm_compute. repeat split; reflexivity. Qed.

(** * More of the code *)

(** ** More on the codec *)

(** What a slice assignment writes comes from its source. *)
Lemma np_set_slice_from_src a s e src a' :
  np_set_slice a s e src = Ok a' ->
  exists new, a' = take s a ++ new ++ drop (s + length (py_slice a s e)) a
    /\ length new = length (py_slice a s e)
    /\ Forall (fun x => x ∈ src) new.
Proof.
  unfold np_set_slice. case_decide as Hlen.
  - intros [= <-]. eexists. split; [done|]. split; [done|].
    apply Forall_forall. auto.
  - destruct src as [|x [|? ?]]; intros [= <-].
    eexists. split; [done|]. split; [apply length_replicate|].
    apply Forall_forall. intros y [-> _]%elem_of_replicate. by left.
Qed.

Lemma np_binop_length f a b c :
  np_binop f a b = Ok c ->
  length a = length b -> length c = length a /\
  forall k x y, a !! k = Some x -> b !! k = Some y -> c !! k = Some (f x y).
Proof.
  unfold np_binop. intros H Hlen. case_decide; [|done].
  injection H as <-. split.
  - rewrite length_zip_with. lia.
  - intros k x y Hx Hy. rewrite lookup_zip_with, Hx, Hy. done.
Qed.

Lemma np_nan_to_num_finite a :
  Forall (fun x => F64.is_finite x = true) (np_nan_to_num a).
Proof.
  apply Forall_forall. intros x (y & -> & _)%list_elem_of_fmap.
  apply nan_to_num_finite.
Qed.

(** The translation that [normalize_values] writes holds numbers only. *)
Lemma normalize_values_finite a model a' :
  normalize_values a model = Ok a' ->
  forall i x, length a - 3 <= i -> a' !! i = Some x -> F64.is_finite x = true.
Proof.
  unfold normalize_values. intros Hn.
  do 2 match type of Hn with
       | rbind ?x _ = _ => destruct x; simpl in Hn; [|done]
       end.
  match type of Hn with
  | rbind ?x _ = _ => destruct x as [q|]; simpl in Hn; [|done]
  end.
  apply np_set_slice_from_src in Hn as (new & -> & Hlen & Hsrc).
  rewrite py_slice_length in *.
  intros i x Hi. rewrite lookup_app_r by (rewrite length_take; lia).
  rewrite length_take. rewrite lookup_app. 
  destruct (new !! _) as [y|] eqn:Hy.
  - intros [= <-]. apply list_elem_of_lookup_2 in Hy.
    rewrite Forall_forall in Hsrc. apply Hsrc in Hy.
    pose proof (np_nan_to_num_finite q) as Hfin.
    rewrite Forall_forall in Hfin. auto.
  - rewrite lookup_drop. intros Hx%lookup_lt_Some.
    apply lookup_ge_None in Hy. lia.
Qed.

Lemma denormalize_values_finite p model p' :
  denormalize_values p model = Ok p' ->
  Forall (fun x => F64.is_finite x = true) p'.
Proof.
  unfold denormalize_values. intros Hn.
  repeat match type of Hn with
         | rbind ?x _ = _ => destruct x; simpl in Hn; [|done]
         end.
  injection Hn as <-. apply np_nan_to_num_finite.
Qed.

(** X1.  The codec hands on numbers only.  Whatever the array and the
    bounds, when [denormalize_prediction] returns, every element of the
    array it returns is finite, neither NaN nor an infinity; when
    [normalize_transform] returns, every element at the last three
    positions of the array it returns is finite.  Both end with
    [numpy.nan_to_num]. *)
Theorem codec_results_are_numbers (model : TFModel) (h h' : heap) (r r' : nat) :
  (denormalize_prediction r model h = (Ok r', h') ->
     exists p', h' !! r' = Some p'
       /\ Forall (fun x => F64.is_finite x = true) p')
  /\ (normalize_transform r model h = (Ok r', h') ->
        exists a a', h !! r = Some a /\ h' !! r' = Some a'
          /\ forall i x, length a - 3 <= i -> a' !! i = Some x ->
               F64.is_finite x = true).
Proof.
  split.
  - destruct (h !! r) as [p|] eqn:Hp.
    + rewrite (denormalize_prediction_values _ _ _ _ Hp).
      destruct (denormalize_values p model) as [p'|] eqn:Hd; [|done].
      intros [= <- <-]. exists p'. rewrite lookup_insert_eq.
      split; [done|]. by eapply denormalize_values_finite.
    + unfold denormalize_prediction, bind, np_read. by rewrite Hp.
  - destruct (h !! r) as [a|] eqn:Ha.
    + rewrite (normalize_transform_values _ _ _ _ Ha).
      destruct (normalize_values a model) as [a'|] eqn:Hn; [|done].
      intros [= <- <-]. exists a, a'. rewrite lookup_insert_eq.
      split; [done|]. split; [done|]. by eapply normalize_values_finite.
    + unfold normalize_transform, bind, np_read. by rewrite Ha.
Qed.

(** The elements of [denormalize_values] on a prediction and bounds of one
    length. *)
Lemma denormalize_values_lookup p model hi lo :
  verts_max model = Some hi -> verts_min model = Some lo ->
  length hi = length p -> length lo = length p ->
  exists p', denormalize_values p model = Ok p' /\ length p' = length p
    /\ forall k x u l, p !! k = Some x -> hi !! k = Some u -> lo !! k = Some l ->
         p' !! k = Some (F64.nan_to_num (F64.add (F64.mul x (F64.sub u l)) l)).
Proof.
  intros Hhi Hlo Hlhi Hllo. unfold denormalize_values. rewrite Hhi, Hlo. simpl.
  destruct (np_binop F64.sub hi lo) as [w|] eqn:Hw.
  2:{ unfold np_binop in Hw. case_decide; [done|lia]. }
  apply np_binop_length in Hw as [Hlw Hw]; [|lia]. simpl.
  destruct (np_binop F64.mul p w) as [s|] eqn:Hs.
  2:{ unfold np_binop in Hs. case_decide; [done|lia]. }
  apply np_binop_length in Hs as [Hls Hs]; [|lia]. simpl.
  destruct (np_binop F64.add s lo) as [t|] eqn:Ht.
  2:{ unfold np_binop in Ht. case_decide; [done|lia]. }
  apply np_binop_length in Ht as [Hlt Ht]; [|lia]. simpl.
  eexists. split; [done|]. split.
  - unfold np_nan_to_num. rewrite length_map. lia.
  - intros k x u l Hx Hu Hl. unfold np_nan_to_num.
    rewrite list_lookup_fmap.
    erewrite Ht; [done| |done]. erewrite Hs; [done|done|]. by erewrite Hw.
Qed.

Lemma denormalize_constant x b :
  F64.is_finite x = true -> F64.is_finite b = true ->
  F64.same_number
    (F64.nan_to_num (F64.add (F64.mul x (F64.sub b b)) b)) b.
Proof.
  intros Hx Hb. rewrite sub_diag, Hb.
  destruct x as [sx| | |sx mx ex], b as [sb| | |sb mb eb]; try done;
    try (right; destruct sx, sb; done); left; done.
Qed.

(** X2.  For a prediction and bounds [verts_max], [verts_min] of one length,
    [denormalize_prediction] returns, in a new array of that length,
    [nan_to_num(p[k] * (verts_max[k] - verts_min[k]) + verts_min[k])] at
    every position [k], each operation in binary64.  Where the two bounds
    are the same finite number [b] and [p[k]] is finite, the result at [k]
    is [b]: a coordinate that was constant in training is restored as that
    constant. *)
Theorem denormalize_prediction_elements
    (h : heap) (r : nat) (p hi lo : ndarray) (model : TFModel) :
  h !! r = Some p ->
  verts_max model = Some hi -> verts_min model = Some lo ->
  length hi = length p -> length lo = length p ->
  exists p',
    denormalize_prediction r model h
      = (Ok (fresh (dom h)), <[fresh (dom h) := p']> h)
    /\ length p' = length p
    /\ (forall k x u l,
          p !! k = Some x -> hi !! k = Some u -> lo !! k = Some l ->
          p' !! k = Some (F64.nan_to_num (F64.add (F64.mul x (F64.sub u l)) l)))
    /\ (forall k x b y,
          p !! k = Some x -> hi !! k = Some b -> lo !! k = Some b ->
          F64.is_finite x = true -> F64.is_finite b = true ->
          p' !! k = Some y -> F64.same_number y b).
Proof.
  intros Hp Hhi Hlo Hlhi Hllo.
  destruct (denormalize_values_lookup p model hi lo) as (p' & Hd & Hlen & Hk); try done.
  exists p'. rewrite (denormalize_prediction_values _ _ _ _ Hp), Hd.
  split; [done|]. split; [done|]. split; [done|].
  intros k x b y Hx Hu Hl Hfx Hfb Hy.
  rewrite (Hk k x b b) in Hy by done. injection Hy as <-.
  by apply denormalize_constant.
Qed.

(** ** More on the registry *)

Section RegistryMore.
Variable fs : string -> file.
Variable tf : TFRuntime.

(** A loaded model carries its manifest entry. *)
Lemma load_model_carries_entry
    (data : Manifest) (i : nat) (entry : ModelEntry) (m : TFModel) :
  resolve tf data i entry = Ok m ->
  (exists joint_map, m_joint_map data = Some joint_map
      /\ joint_map !! i = Some (vertices m))
  /\ tf_restore tf (e_meta entry) (e_root entry) = Ok (session m)
  /\ graph m = session m
  /\ (exists input output,
        e_input entry = Some input /\ e_output entry = Some output
        /\ tf_get_tensor tf (session m) input = Ok (input_tensor m)
        /\ tf_get_tensor tf (session m) output = Ok (output_tensor m))
  /\ e_normalized entry = Some (normalized m)
  /\ (if normalized m then
        trans_max m = e_trans_max entry /\ trans_min m = e_trans_min entry
        /\ verts_max m = e_verts_max entry /\ verts_min m = e_verts_min entry
        /\ is_Some (trans_max m) /\ is_Some (trans_min m)
        /\ is_Some (verts_max m) /\ is_Some (verts_min m)
      else
        trans_max m = None /\ trans_min m = None
        /\ verts_max m = None /\ verts_min m = None).
Proof.
  unfold resolve, load_model, bind, lift, emit, modify, ret, getitem, index_list.
  simpl.
  destruct (m_joint_map data) as [jm|]; [|done]. simpl.
  destruct (jm !! i) as [vs|] eqn:Hvs; [|done]. simpl.
  destruct (tf_restore tf _ _) as [s|]; [|done]. simpl.
  destruct (e_input entry) as [inp|]; [|done]. simpl.
  destruct (tf_get_tensor tf s inp) as [tin|] eqn:Hin; [|done]. simpl.
  destruct (e_output entry) as [out|]; [|done]. simpl.
  destruct (tf_get_tensor tf s out) as [tout|] eqn:Hout; [|done]. simpl.
  destruct (e_normalized entry) as [[]|]; [| |done]; simpl.
  - destruct (e_trans_max entry); [|done]. simpl.
    destruct (e_trans_min entry); [|done]. simpl.
    destruct (e_verts_max entry); [|done]. simpl.
    destruct (e_verts_min entry); [|done]. simpl.
    intros [= <-]. simpl. repeat split; eauto 10.
  - intros [= <-]. simpl. repeat split; eauto 10.
Qed.

(** Without ["joint_map"] the loop appends the leading empty slots and
    raises at the first entry that is not empty, emitting nothing. *)
Lemma load_slots_without_joint_map data entries :
  m_joint_map data = None ->
  forall i w,
    for_each (zip (seq i (length entries)) entries) (load_slot tf data) tt w
    = (if decide (leading_empty entries = length entries)
       then Ok tt else Raise KeyError,
       mkWorld (mkNode (data_location (self w)) (location_changed (self w))
                  (models (self w) ++ replicate (leading_empty entries) None))
               (trace w) (geometry w)).
Proof.
  intros Hjm. induction entries as [|entry entries IH]; intros i w; simpl.
  { unfold ret. by rewrite app_nil_r, node_eta, world_eta. }
  destruct (nonempty entry) as [model|].
  - unfold bind, load_model, bind, lift, getitem. rewrite Hjm. simpl.
    by rewrite app_nil_r, node_eta, world_eta.
  - unfold bind, append_model, set_models, gets, modify, bind. simpl.
    rewrite IH. simpl. rewrite <- app_assoc. simpl.
    f_equal. repeat case_decide; done || lia.
Qed.

(** X3.  A manifest with ["models"] but without ["joint_map"].
    [loadModels] appends [None] for each empty entry at the head of
    ["models"], an entry being empty when it is [null] or an object
    without keys, and raises [KeyError] at the first entry that is not
    empty; it returns only if every entry is empty.  It has cached the
    path, logged that it loads, opened the file and restored no graph. *)
Theorem load_without_joint_map
    (path : string) (doc : Manifest) (entries : list (option ModelEntry))
    (w : World) :
  fs path = Json doc ->
  m_models doc = Some entries ->
  m_joint_map doc = None ->
  loadModels fs tf path w
  = (if decide (leading_empty entries = length entries)
     then Ok tt else Raise KeyError,
     mkWorld (mkNode (Some path) (location_changed (self w))
                (replicate (leading_empty entries) None))
             (trace w ++ [LogInfo ("Loading models from " +:+ path);
                          OpenFile path])
             (geometry w))
  /\ (leading_empty entries = length entries
      <-> forall entry, entry ∈ entries -> py_not entry = true).
Proof.
  intros Hfs Hms Hjm. split.
  - unfold loadModels, bind, emit, set_data_location, set_models, gets, modify,
      open_json, path_exists, raise, ret, bind. simpl.
    rewrite Hfs. simpl. rewrite Hms. unfold enumerate.
    rewrite load_slots_without_joint_map by done. simpl.
    by rewrite <- !app_assoc.
  - clear. induction entries as [|entry entries IH]; simpl.
    { split; [|done]. by intros _ ? ?%elem_of_nil. }
    unfold nonempty at 1. destruct (py_not entry) eqn:Hentry.
    + split.
      * intros [= H] e [->|He]%elem_of_cons; [done|]. by apply IH.
      * intros H. f_equal. apply IH. intros e He. apply H. by right.
    + destruct entry as [model|]; [|done]. split; [done|].
      intros H. specialize (H (Some model) ltac:(by left)). congruence.
Qed.

(** X4.  When [loadModels] returns on a manifest with ["models"], the
    registry mirrors the manifest slot by slot: it has as many slots as
    ["models"] has entries; the slot of an empty entry, [null] or an
    object without keys, is [None]; the slot of any other entry [k] is a
    model whose vertices are [joint_map[k]], whose [normalized] is the
    entry's, and whose four bounds are the entry's when it is normalised
    and [None] when it is not. *)
Theorem loaded_registry_mirrors_manifest
    (path : string) (doc : Manifest) (entries : list (option ModelEntry)) :
  fs path = Json doc ->
  m_models doc = Some entries ->
  load_outcome fs tf path = Ok tt ->
  length (loaded fs tf path) = length entries
  /\ forall k,
       match entries !! k with
       | None => loaded fs tf path !! k = None
       | Some None => loaded fs tf path !! k = Some None
       | Some (Some entry) =>
           if bool_decide (key_count entry = 0) then
             loaded fs tf path !! k = Some None
           else
             exists m joint_map,
               loaded fs tf path !! k = Some (Some m)
               /\ m_joint_map doc = Some joint_map
               /\ joint_map !! k = Some (vertices m)
               /\ e_normalized entry = Some (normalized m)
               /\ (if normalized m then
                     trans_max m = e_trans_max entry
                     /\ trans_min m = e_trans_min entry
                     /\ verts_max m = e_verts_max entry
                     /\ verts_min m = e_verts_min entry
                     /\ is_Some (trans_max m) /\ is_Some (trans_min m)
                     /\ is_Some (verts_max m) /\ is_Some (verts_min m)
                   else
                     trans_max m = None /\ trans_min m = None
                     /\ verts_max m = None /\ verts_min m = None)
       end.
Proof.
  intros Hfs Hms Hok.
  pose proof (loaded_cases fs tf path) as H. rewrite Hfs, Hms in H.
  destruct H as [Hout Hloaded]. rewrite Hout in Hok. rewrite Hloaded.
  pose proof (resolve_all_length tf doc entries 0) as Hlen.
  rewrite Hok in Hlen. split; [done|]. intros k.
  pose proof (resolve_all_ok tf doc entries 0 Hok k) as Hk.
  destruct (entries !! k) as [[entry|]|]; [|done..].
  unfold nonempty, py_not in Hk.
  destruct (bool_decide (key_count entry = 0)); [done|].
  destruct Hk as (m & Hres & Hm). simpl in Hres.
  apply load_model_carries_entry in Hres
    as ((jm & Hjm & Hv) & _ & _ & _ & Hn & Hb).
  exists m, jm. done.
Qed.

End RegistryMore.

(** ** More on the scatter loop *)

Lemma np_set_slice_raises a s e src x :
  np_set_slice a s e src = Raise x -> x = ValueError.
Proof.
  unfold np_set_slice. case_decide; [done|].
  destruct src as [|? [|? ?]]; congruence.
Qed.

(** Writing three scalars over a triple: inside the buffer it succeeds,
    across its end it raises. *)
Lemma np_set_triple a s src :
  length src = 3 ->
  if decide (s + 3 <= length a)
  then exists a', np_set_slice a s (s + 3) src = Ok a'
  else np_set_slice a s (s + 3) src = Raise ValueError.
Proof.
  intros Hsrc. unfold np_set_slice. rewrite py_slice_length.
  destruct src as [|x [|y [|z [|? ?]]]]; try done.
  repeat case_decide; simpl in *; eauto; lia.
Qed.

Lemma scatter_raises index vs prediction d x :
  scatter index vs prediction d = Raise x -> x = ValueError.
Proof.
  revert index d. induction vs as [|vtx vs IH]; intros index d; simpl; [done|].
  destruct (np_set_slice _ _ _ _) as [d1|y] eqn:H1; simpl; [by apply IH|].
  intros [= <-]. by eapply np_set_slice_raises.
Qed.

Lemma scatter_ok_iff index vs prediction d :
  (index + length vs) * 3 <= length prediction ->
  is_ok (scatter index vs prediction d) = true
  <-> forall v, v ∈ vs -> v * 3 + 3 <= length d.
Proof.
  revert index d. induction vs as [|vtx vs IH]; intros index d Hlen; simpl.
  { split; [|done]. by intros _ v ?%elem_of_nil. }
  simpl in Hlen.
  pose proof (np_set_triple d (vtx * 3)
                (py_slice prediction (index * 3) (index * 3 + 3))) as Hset.
  rewrite py_slice_length in Hset. specialize (Hset ltac:(lia)).
  case_decide as Hin.
  - destruct Hset as [d1 H1]. rewrite H1. simpl.
    pose proof (np_set_slice_length _ _ _ _ _ H1) as Hd1.
    rewrite IH by lia. split.
    + intros H v [->|Hv]%elem_of_cons; [lia|]. rewrite <- Hd1. by apply H.
    + intros H v Hv. rewrite Hd1. apply H. by right.
  - rewrite Hset. simpl. split; [done|]. intros H.
    exfalso. apply Hin, H. by left.
Qed.

(** X5.  With a prediction of three scalars per listed vertex, the scatter
    loop of [deform] completes exactly when the triple of every listed
    vertex lies inside the buffer, [3 * v + 3 <= len(deltas)].  When it does
    not complete it raises [ValueError], numpy's refusal to write three
    scalars into a slice cut short by the end of the buffer, and nothing
    else. *)
Theorem scatter_needs_vertices_in_range
    (vs : list nat) (prediction d : ndarray) :
  length prediction = 3 * length vs ->
  (is_ok (scatter 0 vs prediction d) = true
     <-> forall v, v ∈ vs -> v * 3 + 3 <= length d)
  /\ (forall x, scatter 0 vs prediction d = Raise x -> x = ValueError).
Proof.
  intros Hlen. split.
  - apply scatter_ok_iff. simpl. lia.
  - intros x. apply scatter_raises.
Qed.

(** X6.  With a prediction of three scalars per listed vertex and a list of
    distinct vertices in range, the scatter loop completes; afterwards the
    triple of the vertex at position [k] of the list is the triple at
    position [k] of the prediction, the buffer has the length it had, and
    every scalar outside the triples of the listed vertices is as it
    was. *)
Theorem scatter_places_every_triple
    (vs : list nat) (prediction d : ndarray) :
  length prediction = 3 * length vs ->
  NoDup vs ->
  (forall v, v ∈ vs -> v * 3 + 3 <= length d) ->
  exists d',
    scatter 0 vs prediction d = Ok d'
    /\ length d' = length d
    /\ (forall k v, vs !! k = Some v ->
          py_slice d' (v * 3) (v * 3 + 3)
            = py_slice prediction (k * 3) (k * 3 + 3))
    /\ (forall p, (forall v, v ∈ vs -> p < v * 3 \/ v * 3 + 3 <= p) ->
          d' !! p = d !! p).
Proof.
  intros Hlen Hnd Hin.
  destruct (scatter 0 vs prediction d) as [d'|x] eqn:Hs.
  2:{ pose proof (proj2 (scatter_ok_iff 0 vs prediction d ltac:(simpl; lia)) Hin) as H.
      by rewrite Hs in H. }
  exists d'. split; [done|]. split; [by eapply scatter_length|]. split.
  - intros k v Hk.
    eapply (scatter_last 0 vs prediction d d' k v) in Hs as [Hs _]; [done|done| |].
    + intros k' Hk' Hv. pose proof (NoDup_lookup _ _ _ _ Hnd Hk Hv). lia.
    + apply lookup_lt_Some in Hk. simpl. lia.
  - intros p Hp. by eapply scatter_outside.
Qed.

(** ** More on one evaluation *)

Lemma normalize_values_prefix a model a' :
  normalize_values a model = Ok a' ->
  length a' = length a
  /\ take (length a - 3) a' = take (length a - 3) a.
Proof.
  unfold normalize_values. intros Hn.
  repeat match type of Hn with
         | rbind ?x _ = _ => destruct x; simpl in Hn; [|done]
         end.
  split; [by eapply np_set_slice_length|].
  apply np_set_slice_inv in Hn as (new & -> & _).
  rewrite take_app_length'; [done|]. rewrite length_take. lia.
Qed.

Lemma blend_loop_returns data deltas g g' :
  blend_loop data deltas g = (Ok tt, g') -> g' = map (blended data deltas) g.
Proof.
  revert g'. induction g as [|[index pos] g IH]; intros g'; simpl.
  - by intros [= <-].
  - destruct (blend_point data deltas index pos) as [pos'|x] eqn:Hp; [|done].
    pose proof (blend_point_inv _ _ _ _ _ Hp) as Hrange.
    rewrite blend_point_ok in Hp by done. injection Hp as <-.
    destruct (blend_loop data deltas g) as [r1 g1]. intros [= -> <-].
    by rewrite (IH g1).
Qed.

Section EvaluationMore.
Variable fs : string -> file.
Variable tf : TFRuntime.

(** X7.  Every run of a session that [deform] asks for while it predicts
    for a model feeds that model's session one row of seven scalars.  The
    first four are the quaternion of the joint's matrix as read, also for
    a normalised model; for a model that is not normalised the last three
    are its translation as read. *)
Theorem predict_feeds_one_row_of_seven
    (model : TFModel) (matrix : Matrix) (e : event) :
  e ∈ predict_events tf model matrix ->
  exists row,
    e = SessionRun (session model) [row]
    /\ length row = 7
    /\ take 4 row = [rot_x matrix; rot_y matrix; rot_z matrix; rot_w matrix]
    /\ (normalized model = false ->
        drop 4 row = [tr_x matrix; tr_y matrix; tr_z matrix]).
Proof.
  unfold predict_events, predict, bind, lift, ret, emit, modify.
  destruct (normalized model); simpl.
  - destruct (normalize_values _ model) as [row|] eqn:Hn; simpl;
      [|by intros ?%elem_of_nil].
    apply normalize_values_prefix in Hn as [Hlen Hpre]. simpl in *.
    repeat (case_scrutinee; simpl);
      intros [->|?%elem_of_nil]%elem_of_cons; try done;
      exists row; done.
  - repeat (case_scrutinee; simpl);
      intros [->|?%elem_of_nil]%elem_of_cons; try done;
      eexists; done.
Qed.

(** The triple of a vertex after the dispatch loop is the one written by
    the last visited slot that lists it. *)
Lemma dispatch_final_triple data w w' d D j mj v k matrix prediction :
  dispatch tf data (length (models (self w))) d w = (Ok D, w') ->
  j < length (matrices data) ->
  models (self w) !! j = Some (Some mj) ->
  vertices mj !! k = Some v ->
  (forall k', k < k' -> vertices mj !! k' <> Some v) ->
  matrices data !! j = Some matrix ->
  prediction_of tf mj matrix = Ok prediction ->
  length prediction = 3 * length (vertices mj) ->
  (forall j' m', j < j' -> j' < length (matrices data) ->
     models (self w) !! j' = Some (Some m') -> v ∉ vertices m') ->
  py_slice D (v * 3) (v * 3 + 3) = py_slice prediction (k * 3) (k * 3 + 3)
  /\ v * 3 + 3 <= length D.
Proof.
  intros Hrun Hj Hmj Hk Hlast Hmat Hpred Hlen Hlater.
  unfold dispatch in Hrun.
  assert (k < length (vertices mj)) as Hklt by (by eapply lookup_lt_Some).
  rewrite (seq_split_at j) in Hrun by done.
  rewrite for_each_app in Hrun.
  destruct (for_each (seq 0 j) _ d w) as [[d1|?] w1] eqn:H1; [|done].
  apply dispatch_loop_frame in H1 as (Hself1 & _).
  2:{ intros i' Hi'%elem_of_seq. lia. }
  rewrite for_each_app in Hrun.
  destruct (for_each [j] _ d1 w1) as [[d2|?] w2] eqn:H2; [|done].
  simpl in H2. unfold bind in H2.
  destruct (dispatch_slot tf data _ j d1 w1) as [[d2'|?] w2'] eqn:Hslot; [|done].
  injection H2 as -> ->.
  apply dispatch_slot_inv in Hslot.
  rewrite Hself1, Hmj in Hslot.
  destruct Hslot as [(_ & _ & [Hn|[=]])|[(_ & _ & _ & [=])|(m & _ & [= <-] & -> & Hr)]].
  { apply lookup_lt_Some in Hmj. lia. }
  unfold index_list in Hr. rewrite Hmat in Hr. simpl in Hr.
  rewrite Hpred in Hr. simpl in Hr. symmetry in Hr.
  pose proof (scatter_length _ _ _ _ _ Hr) as Hlen2.
  apply (scatter_last _ _ _ _ _ k v) in Hr as [Hr Hin]; [|done|done|lia].
  simpl in Hr. rewrite <- Hr.
  pose proof (dispatch_loop_outside tf _ _ _ _ _ _ _ 0 Hrun) as [HlenD _].
  split; [|lia].
  apply py_slice_ext; [done|].
  intros p Hp. eapply dispatch_loop_outside in Hrun as [_ Hout]. apply Hout.
  simpl.
  intros j' m' vtx [Hj1 Hj2]%elem_of_seq Hm' Hvtx.
  assert (vtx <> v); [|lia].
  intros ->. eapply Hlater; [| |done|done]; lia.
Qed.

(** X8.  Where a listed vertex ends.  Let [deform] return, and let vertex
    [v] be listed by the model of slot [j] only, once, at position [k],
    slot [j] having a matrix and its prediction three scalars per listed
    vertex.  Then a component of the iterator on [v] ends, on each axis
    [c], at [pos + (prediction[3 * k + c] * envelope) * weight(v)] in
    binary64. *)
Theorem deform_moves_listed_vertex
    (data : DataBlock) (w w' : World) (idx v : nat) (pos : Point)
    (j k : nat) (m : TFModel) (matrix : Matrix) (prediction : ndarray) :
  deform fs tf data w = (Ok tt, w') ->
  geometry w !! idx = Some (v, pos) ->
  models (self w') !! j = Some (Some m) ->
  matrices data !! j = Some matrix ->
  vertices m !! k = Some v ->
  NoDup (vertices m) ->
  (forall j' m', j' <> j -> models (self w') !! j' = Some (Some m') ->
     v ∉ vertices m') ->
  prediction_of tf m matrix = Ok prediction ->
  length prediction = 3 * length (vertices m) ->
  geometry w' !! idx
  = Some (v, {| px := F64.add (px pos)
                        (F64.mul (F64.mul (default F64.zero (prediction !! (k * 3 + 0)))
                                          (envelope data)) (weightValue data v));
                py := F64.add (py pos)
                        (F64.mul (F64.mul (default F64.zero (prediction !! (k * 3 + 1)))
                                          (envelope data)) (weightValue data v));
                pz := F64.add (pz pos)
                        (F64.mul (F64.mul (default F64.zero (prediction !! (k * 3 + 2)))
                                          (envelope data)) (weightValue data v)) |}).
Proof.
  intros Hrun Hidx Hm Hmat Hk Hnd Hdisj Hpred Hlen.
  pose proof (deform_self fs tf data w) as [Hself _].
  rewrite Hrun in Hself. simpl in Hself.
  rewrite deform_unfold in Hrun.
  assert (geometry (reloaded fs tf data w) = geometry w) as Hg1.
  { unfold reloaded. by destruct (location_changed (self w)). }
  destruct (if location_changed (self w) then _ else _) as [[]|x]; [|done].
  set (w1 := reloaded fs tf data w) in *.
  destruct (dispatch_frame tf data (length (models (self w1)))
              (np_zeros (3 * numVertices data)) w1) as (Hs2 & Hg2 & _).
  destruct (dispatch tf data _ _ w1) as [[D|x] w2] eqn:Hd; simpl in *; [|done].
  unfold blend in Hrun.
  destruct (blend_loop data D (geometry w2)) as [r' g'] eqn:Hb.
  injection Hrun as -> <-. simpl.
  apply blend_loop_returns in Hb as ->.
  rewrite Hg2, Hg1, list_lookup_fmap, Hidx. simpl.
  rewrite Hself in *.
  eapply (dispatch_final_triple data w1 w2 _ D j m v k) in Hd
    as [Htriple Hin]; try done.
  - assert (forall c, c < 3 -> D !! (v * 3 + c) = prediction !! (k * 3 + c)) as Hc.
    { intros c Hc.
      rewrite <- (py_slice_lookup D (v * 3) (v * 3 + 3) c) by lia.
      rewrite Htriple. apply py_slice_lookup. lia. }
    unfold blended, final_offset. simpl. rewrite !Hc by lia. done.
  - by eapply lookup_lt_Some.
  - intros k' Hk' Hv. pose proof (NoDup_lookup _ _ _ _ Hnd Hk Hv). lia.
  - intros j' m' Hj' _ Hm'. eapply Hdisj; [|done]. lia.
Qed.

(** X9.  A vertex outside the mesh.  If a slot that has a matrix holds a
    model that lists a vertex [v >= numVertices], its prediction having
    three scalars per listed vertex, then [deform] raises, and the
    geometry is as it was: no point has been moved. *)
Theorem deform_rejects_vertex_outside_mesh
    (data : DataBlock) (w : World)
    (j : nat) (m : TFModel) (matrix : Matrix) (prediction : ndarray) (v : nat) :
  models (self (deform fs tf data w).2) !! j = Some (Some m) ->
  matrices data !! j = Some matrix ->
  prediction_of tf m matrix = Ok prediction ->
  length prediction = 3 * length (vertices m) ->
  v ∈ vertices m ->
  numVertices data <= v ->
  (exists x, (deform fs tf data w).1 = Raise x)
  /\ geometry (deform fs tf data w).2 = geometry w.
Proof.
  intros Hm Hmat Hpred Hlen Hv Hout.
  pose proof (deform_self fs tf data w) as [Hself _].
  rewrite Hself in Hm. clear Hself.
  rewrite deform_unfold.
  assert (geometry (reloaded fs tf data w) = geometry w) as Hg1.
  { unfold reloaded. by destruct (location_changed (self w)). }
  destruct (if location_changed (self w) then _ else _) as [[]|x]; [|eauto].
  set (w1 := reloaded fs tf data w) in *.
  destruct (dispatch_frame tf data (length (models (self w1)))
              (np_zeros (3 * numVertices data)) w1) as (Hs2 & Hg2 & _).
  destruct (dispatch tf data _ _ w1) as [[D|x] w2] eqn:Hd; simpl in *.
  2:{ split; [eauto|congruence]. }
  exfalso. unfold dispatch in Hd.
  assert (j < length (matrices data)) as Hj by (by eapply lookup_lt_Some).
  rewrite (seq_split_at j) in Hd by done.
  rewrite for_each_app in Hd.
  destruct (for_each (seq 0 j) _ _ w1) as [[d1|?] w1'] eqn:H1; [|done].
  pose proof (dispatch_loop_outside tf _ _ _ _ _ _ _ 0 H1) as [Hlen1 _].
  apply dispatch_loop_frame in H1 as (Hself1 & _).
  2:{ intros i' Hi'%elem_of_seq. lia. }
  rewrite for_each_app in Hd.
  destruct (for_each [j] _ d1 w1') as [[d2|?] w2'] eqn:H2; [|done].
  simpl in H2. unfold bind in H2.
  destruct (dispatch_slot tf data _ j d1 w1') as [[d2'|?] w2''] eqn:Hslot; [|done].
  apply dispatch_slot_inv in Hslot.
  rewrite Hself1, Hm in Hslot.
  destruct Hslot as [(_ & _ & [Hn|[=]])|[(_ & _ & _ & [=])|(m' & _ & [= <-] & _ & Hr)]].
  { apply lookup_lt_Some in Hm. lia. }
  unfold index_list in Hr. rewrite Hmat in Hr. simpl in Hr.
  rewrite Hpred in Hr. simpl in Hr. symmetry in Hr.
  assert (is_ok (scatter 0 (vertices m) prediction d1) = true) as Hok
    by (by rewrite Hr).
  pose proof (proj1 (scatter_ok_iff 0 (vertices m) prediction d1
                      ltac:(simpl; lia)) Hok v Hv) as Hin. unfold np_zeros in Hlen1.
  rewrite length_replicate in Hlen1. lia.
Qed.

End EvaluationMore.

(** ** Root joints *)

Lemma prefix_refl s : String.prefix s s = true.
Proof.
  induction s as [|c s IH]; simpl; [done|].
  destruct (Ascii.ascii_dec c c); done.
Qed.

Lemma prefix_trans a b c :
  String.prefix a b = true -> String.prefix b c = true ->
  String.prefix a c = true.
Proof.
  revert b c. induction a as [|x a IH]; intros [|y b] [|z c]; simpl; try done.
  destruct (Ascii.ascii_dec x y) as [->|]; [|done].
  destruct (Ascii.ascii_dec y z) as [->|]; [|done].
  destruct (Ascii.ascii_dec z z); [|done]. apply IH.
Qed.

Lemma prefix_length a b :
  String.prefix a b = true -> a <> b -> String.length a < String.length b.
Proof.
  revert b. induction a as [|x a IH]; intros [|y b]; simpl; try done.
  - intros _ _. lia.
  - destruct (Ascii.ascii_dec x y) as [->|]; [|done].
    intros Hp Hne. assert (a <> b) by congruence.
    specialize (IH b Hp H). lia.
Qed.

Lemma starts_with_other_true joint joints :
  starts_with_other joint joints = true
  <-> exists other, other ∈ joints /\ other <> joint
        /\ startswith joint other = true.
Proof.
  induction joints as [|o joints IH]; simpl.
  - split; [done|]. by intros (? & ?%elem_of_nil & _).
  - case_decide as Heq.
    + rewrite IH. split.
      * intros (other & Hin & Hne & Hp). exists other. split; [by right|done].
      * intros (other & [->|Hin]%elem_of_cons & Hne & Hp); [done|eauto].
    + destruct (startswith joint o) eqn:Ho.
      * split; [|done]. intros _. exists o. split; [by left|]. split; [congruence|done].
      * rewrite IH. split.
        -- intros (other & Hin & Hne & Hp). exists other. split; [by right|done].
        -- intros (other & [->|Hin]%elem_of_cons & Hne & Hp); [congruence|eauto].
Qed.

Lemma collect_roots_filter joints todo roots :
  collect_roots joints todo roots
  = roots ++ filter (fun j => starts_with_other j joints = false) todo.
Proof.
  revert roots. induction todo as [|j todo IH]; intros roots; simpl.
  - by rewrite app_nil_r.
  - destruct (starts_with_other j joints) eqn:Hj.
    + rewrite IH. rewrite filter_cons_False; [done|]. by rewrite Hj.
    + rewrite IH, <- app_assoc. rewrite filter_cons_True; done.
Qed.

Lemma filter_all {A} (P : A -> Prop) `{forall x, Decision (P x)} (l : list A) :
  Forall P l -> filter P l = l.
Proof.
  induction 1 as [|x l Hx Hl IH]; [done|].
  rewrite filter_cons_True by done. by rewrite IH.
Qed.

Section Roots.
Variable ls : option (list string) -> list string.

Lemma get_joints_filter joints :
  get_joints ls joints
  = filter (fun j => starts_with_other j (listed ls joints) = false)
      (listed ls joints).
Proof.
  unfold get_joints. fold (listed ls joints). by rewrite collect_roots_filter.
Qed.

Lemma get_joints_elem joints r :
  r ∈ get_joints ls joints
  <-> r ∈ listed ls joints
      /\ forall other, other ∈ listed ls joints -> other <> r ->
           startswith r other = false.
Proof.
  rewrite get_joints_filter.
  rewrite list_elem_of_filter. split.
  - intros [Hr Hin]. split; [done|]. intros other Ho Hne.
    destruct (startswith r other) eqn:Hp; [|done].
    assert (starts_with_other r (listed ls joints) = true) as H
      by (apply starts_with_other_true; eauto).
    congruence.
  - intros [Hin Hall]. split; [|done].
    destruct (starts_with_other r (listed ls joints)) eqn:H; [|done].
    apply starts_with_other_true in H as (other & Ho & Hne & Hp).
    rewrite Hall in Hp; done.
Qed.

(** X10.  [get_joints] returns joints that [mc.ls] listed, in the order it
    listed them, and exactly those that start with no other listed joint:
    a joint is returned if and only if it is listed and no listed joint of
    another name is a prefix of its full path. *)
Theorem get_joints_keeps_roots (joints : option (list string)) (r : string) :
  get_joints ls joints `sublist_of` listed ls joints
  /\ (r ∈ get_joints ls joints
      <-> r ∈ listed ls joints
          /\ forall other, other ∈ listed ls joints -> other <> r ->
               startswith r other = false).
Proof.
  split; [|apply get_joints_elem].
  rewrite get_joints_filter. apply sublist_filter.
Qed.

(** X11.  The full path of every joint that [mc.ls] listed starts with
    one of the returned joints.  The prefix is one of strings, as
    [startswith] tests it: the returned joint is the joint itself, one of
    its ancestors, or a joint whose path is the beginning of its own, as
    [|joint1] is for [|joint10], which [get_joints] drops although it is
    not below [|joint1]. *)
Theorem get_joints_covers (joints : option (list string)) (j : string) :
  j ∈ listed ls joints ->
  exists r, r ∈ get_joints ls joints /\ startswith j r = true.
Proof.
  rewrite get_joints_filter.
  remember (String.length j) as n eqn:Hn. revert j Hn.
  induction n as [n IH] using lt_wf_ind. intros j -> Hin.
  destruct (starts_with_other j (listed ls joints)) eqn:Hj.
  - apply starts_with_other_true in Hj as (other & Ho & Hne & Hp).
    destruct (IH (String.length other)) with (j := other) as (r & Hr & Hpr);
      [|done|done|].
    + apply prefix_length; [done|congruence].
    + exists r. split; [done|]. unfold startswith in *. by eapply prefix_trans.
  - exists j. split; [|apply prefix_refl].
    apply list_elem_of_filter. done.
Qed.

(** X12.  The roots of the roots are the roots: the loop of [get_joints] run
    on the list that [get_joints] returned returns that list. *)
Theorem get_joints_idempotent (joints : option (list string)) :
  let roots := get_joints ls joints in
  collect_roots roots roots [] = roots.
Proof.
  simpl. rewrite collect_roots_filter. simpl.
  set (roots := get_joints ls joints).
  apply filter_all, Forall_forall.
  intros r Hr.
  destruct (starts_with_other r roots) eqn:H; [|done].
  apply starts_with_other_true in H as (other & Ho & Hne & Hp).
  apply get_joints_elem in Hr as [_ Hall].
  apply get_joints_elem in Ho as [Ho _].
  rewrite Hall in Hp; done.
Qed.

End Roots.

Lemma float_gt_trans x y z :
  float_gt x y = true -> float_gt y z = true -> float_gt x z = true.
Proof.
  unfold float_gt, SFltb, SFcompare.
  destruct x as [sx|sx| |sx mx ex], y as [sy|sy| |sy my ey],
           z as [sz|sz| |sz mz ez];
    try destruct sx; try destruct sy; try destruct sz; simpl; try done.
  - change (Pos.compare_cont Eq ?a ?b) with (Pos.compare a b).
    destruct (Z.compare_spec ez ey), (Z.compare_spec ey ex),
             (Z.compare_spec ez ex); try done; try lia; subst.
    destruct (Pos.compare_spec mz my), (Pos.compare_spec my mx),
             (Pos.compare_spec mz mx); simpl; try done; try lia.
  - change (Pos.compare_cont Eq ?a ?b) with (Pos.compare a b).
    destruct (Z.compare_spec ez ey), (Z.compare_spec ey ex),
             (Z.compare_spec ez ex); try done; try lia; subst.
    destruct (Pos.compare_spec mz my), (Pos.compare_spec my mx),
             (Pos.compare_spec mz mx); simpl; try done; try lia.
Qed.

Lemma float_gt_irrefl x : float_gt x x = false.
Proof.
  unfold float_gt, SFltb, SFcompare.
  destruct x as [sx|sx| |sx mx ex]; try destruct sx; simpl; try done.
  - rewrite Z.compare_refl. change (Pos.compare_cont Eq ?a ?b) with (Pos.compare a b).
    by rewrite Pos.compare_refl.
  - rewrite Z.compare_refl. change (Pos.compare_cont Eq ?a ?b) with (Pos.compare a b).
    by rewrite Pos.compare_refl.
Qed.

(** ** Simplified weights *)

Lemma float_gt_asym x y : float_gt x y = true -> float_gt y x = false.
Proof.
  intros H. destruct (float_gt y x) eqn:H'; [|done].
  pose proof (float_gt_trans _ _ _ H H') as Ht.
  by rewrite float_gt_irrefl in Ht.
Qed.

Lemma max_by_weight_spec best items :
  let r := max_by_weight best items in
  (r = best \/ r ∈ items)
  /\ (r = best \/ float_gt r.2 best.2 = true)
  /\ (forall it, it ∈ items -> float_gt it.2 r.2 = false).
Proof.
  revert best. induction items as [|it items IH]; intros best; simpl.
  - split; [by left|]. split; [by left|]. by intros ? ?%elem_of_nil.
  - destruct (IH (if float_gt it.2 best.2 then it else best))
      as (Hin & Hgt & Hmax).
    destruct (float_gt it.2 best.2) eqn:Hit.
    + split; [right; destruct Hin as [->|]; [by left|by right]|].
      split.
      * right. destruct Hgt as [->|Hgt]; [done|]. by eapply float_gt_trans.
      * intros x [->|Hx]%elem_of_cons; [|by apply Hmax].
        destruct Hgt as [->|Hgt]; [apply float_gt_irrefl|by apply float_gt_asym].
    + split; [destruct Hin as [->|]; [by left|right; by right]|].
      split; [done|].
      intros x [->|Hx]%elem_of_cons; [|by apply Hmax].
      destruct Hgt as [->|Hgt]; [done|].
      destruct (float_gt it.2 (max_by_weight best items).2) eqn:H; [|done].
      pose proof (float_gt_trans _ _ _ H Hgt). congruence.
Qed.

Lemma elem_of_enumerate {A} (l : list A) i x :
  (i, x) ∈ enumerate l <-> l !! i = Some x.
Proof.
  unfold enumerate. rewrite list_elem_of_lookup. split.
  - intros [k Hk]. apply lookup_zip_with_Some in Hk as (a & b & [= <- <-] & Ha & Hb).
    apply lookup_seq in Ha as [-> _]. done.
  - intros Hx. exists i. apply lookup_zip_with_Some. exists i, x.
    split; [done|]. split; [|done]. apply lookup_seq. split; [done|].
    by eapply lookup_lt_Some.
Qed.

(** [max] returns an item of the row than which no weight is greater. *)
Lemma py_max_spec (row : list float) :
  row <> [] ->
  exists idx w, py_max (enumerate row) = Ok (idx, w)
    /\ row !! idx = Some w
    /\ forall i x, row !! i = Some x -> float_gt x w = false.
Proof.
  intros Hne. destruct row as [|x0 row]; [done|].
  unfold py_max. change (enumerate (x0 :: row)) with
    ((0, x0) :: zip (seq 1 (length row)) row).
  set (rest := zip (seq 1 (length row)) row).
  assert (forall i x, (i, x) ∈ (0, x0) :: rest <-> (x0 :: row) !! i = Some x) as Helem.
  { intros i x. apply (elem_of_enumerate (x0 :: row)). }
  destruct (max_by_weight_spec (0, x0) rest) as (Hin & Hgt & Hmax).
  destruct (max_by_weight (0, x0) rest) as [idx w] eqn:Hr. simpl in *.
  exists idx, w. split; [done|]. split.
  - apply Helem. destruct Hin as [->|Hin]; [by left|by right].
  - intros i x [[= -> ->]|Hx]%Helem%elem_of_cons.
    + destruct Hgt as [[= -> ->]|Hgt]; [apply float_gt_irrefl|by apply float_gt_asym].
    + by apply (Hmax (i, x)).
Qed.

Lemma follow_only_preweight idx row :
  follow_only idx row = preweight idx (length row).
Proof.
  unfold follow_only, preweight. apply list_eq. intros i.
  rewrite list_lookup_imap, list_lookup_fmap.
  destruct (row !! i) as [x|] eqn:Hx; simpl.
  - rewrite lookup_seq_lt by (by eapply lookup_lt_Some). simpl.
    repeat case_decide; done || lia.
  - rewrite lookup_seq_ge by (by apply lookup_ge_None). done.
Qed.

Lemma preweight_length i stride : length (preweight i stride) = stride.
Proof. unfold preweight. by rewrite length_map, length_seq. Qed.

Lemma preweight_lookup i stride x :
  x < stride ->
  preweight i stride !! x = Some (if decide (x = i) then f_one else F64.zero).
Proof.
  intros Hx. unfold preweight. rewrite list_lookup_fmap, lookup_seq_lt by done.
  done.
Qed.

(** On a row that follows one influence, [max] finds that influence. *)
Lemma py_max_preweight idx stride :
  idx < stride ->
  exists w, py_max (enumerate (preweight idx stride)) = Ok (idx, w).
Proof.
  intros Hidx.
  destruct (py_max_spec (preweight idx stride)) as (i & w & Hmax & Hw & Hall).
  { intros H. apply (f_equal length) in H. rewrite preweight_length in H.
    simpl in H. lia. }
  exists w. rewrite Hmax. do 2 f_equal.
  destruct (decide (i = idx)) as [|Hne]; [done|].
  assert (i < stride) as Hi.
  { apply lookup_lt_Some in Hw. by rewrite preweight_length in Hw. }
  rewrite preweight_lookup in Hw by done.
  destruct (decide (i = idx)); [done|]. injection Hw as <-.
  specialize (Hall idx f_one). rewrite preweight_lookup in Hall by done.
  destruct (decide (idx = idx)); [|done].
  specialize (Hall eq_refl). vm_compute in Hall. done.
Qed.

Lemma py_set_slice_same {A} (l : list A) s n :
  py_set_slice l s (s + n) (py_slice l s (s + n)) = l.
Proof.
  unfold py_set_slice, py_slice.
  replace (s + n - s) with n by lia. replace (s `max` (s + n)) with (s + n) by lia.
  rewrite <- drop_drop, take_drop, take_drop. done.
Qed.

Lemma py_set_slice_length {A} (l : list A) s n src :
  s + n <= length l -> length src = n ->
  length (py_set_slice l s (s + n) src) = length l.
Proof.
  intros Hl Hs. unfold py_set_slice.
  rewrite !length_app, length_take, length_drop. lia.
Qed.

Lemma py_set_slice_lookup {A} (l : list A) s n src p :
  s + n <= length l -> length src = n ->
  py_set_slice l s (s + n) src !! p
  = if decide (s <= p < s + n) then src !! (p - s) else l !! p.
Proof.
  intros Hl Hs. unfold py_set_slice.
  replace (s `max` (s + n)) with (s + n) by lia.
  case_decide as Hp.
  - rewrite lookup_app_r by (rewrite length_take; lia).
    rewrite length_take, lookup_app_l by lia. f_equal. lia.
  - destruct (decide (p < s)).
    + rewrite lookup_app_l by (rewrite length_take; lia).
      by rewrite lookup_take_lt.
    + rewrite lookup_app_r by (rewrite length_take; lia).
      rewrite lookup_app_r by (rewrite length_take; lia).
      rewrite lookup_drop, length_take. f_equal. lia.
Qed.

Lemma py_slice_from_lookup {A} (l row : list A) s :
  s + length row <= length l ->
  (forall c, c < length row -> l !! (s + c) = row !! c) ->
  py_slice l s (s + length row) = row.
Proof.
  intros Hl Hrow. apply list_eq. intros c.
  destruct (decide (c < length row)).
  - rewrite py_slice_lookup by lia. by apply Hrow.
  - rewrite !lookup_ge_None_2; [done|lia|].
    rewrite py_slice_length. lia.
Qed.

Section Simplify.
Variable stride : nat.
Hypothesis stride_pos : 0 < stride.

(** The loop over the vertices from [a] on turns each of their rows into
    the row of one influence, than whose weight none was greater, and
    leaves the other rows alone. *)
Lemma simplify_rows_spec n :
  forall a w,
    (a + n) * stride <= length w ->
    exists w',
      simplify_rows (seq a n) stride w = Ok w'
      /\ length w' = length w
      /\ (forall p, p < a * stride \/ (a + n) * stride <= p -> w' !! p = w !! p)
      /\ (forall vtx, a <= vtx < a + n ->
            exists idx wmax,
              idx < stride
              /\ py_slice w' (vtx * stride) (vtx * stride + stride)
                 = preweight idx stride
              /\ w !! (vtx * stride + idx) = Some wmax
              /\ forall i x, i < stride -> w !! (vtx * stride + i) = Some x ->
                   float_gt x wmax = false).
Proof using stride_pos.
  induction n as [|n IH]; intros a w Hlen; simpl.
  { exists w. split; [done|]. split; [done|]. split; [done|]. intros; lia. }
  set (row := py_slice w (a * stride) (a * stride + stride)).
  assert (length row = stride) as Hrow.
  { unfold row. rewrite py_slice_length. nia. }
  destruct (py_max_spec row) as (idx & wmax & -> & Hidx & Hmax).
  { intros H. rewrite H in Hrow. simpl in Hrow. lia. }
  simpl. rewrite follow_only_preweight, Hrow.
  set (w1 := py_set_slice w _ _ _).
  assert (idx < stride) as Hidxlt.
  { apply lookup_lt_Some in Hidx. lia. }
  assert (length w1 = length w) as Hlen1.
  { apply py_set_slice_length; [nia|apply preweight_length]. }
  assert (forall p, w1 !! p
            = if decide (a * stride <= p < a * stride + stride)
              then preweight idx stride !! (p - a * stride) else w !! p) as Hw1.
  { intros p. apply py_set_slice_lookup; [nia|apply preweight_length]. }
  destruct (IH (S a) w1) as (w' & Hrun & Hlen' & Hout & Hrows).
  { rewrite Hlen1. nia. }
  exists w'. split; [done|]. split; [congruence|]. split.
  - intros p Hp. rewrite Hout by nia. rewrite Hw1. case_decide; [nia|done].
  - intros vtx Hvtx. destruct (decide (vtx = a)) as [->|Hne].
    + exists idx, wmax. split; [done|]. split; [|split].
      * pose proof (py_slice_from_lookup w' (preweight idx stride)
                      (a * stride)) as Hs.
        rewrite preweight_length in Hs. apply Hs; [nia|].
        intros c Hc. rewrite Hout by (simpl; nia). rewrite Hw1.
        case_decide; [|lia]. f_equal. lia.
      * unfold row in Hidx. by rewrite py_slice_lookup in Hidx by lia.
      * intros i x Hi Hx. apply (Hmax i).
        unfold row. by rewrite py_slice_lookup by lia.
    + destruct (Hrows vtx) as (idx' & wmax' & Hi' & Hslice & Hw & Hmax'); [lia|].
      exists idx', wmax'. split; [done|]. split; [done|].
      assert (forall i, i < stride -> w1 !! (vtx * stride + i) = w !! (vtx * stride + i))
        as Hsame.
      { intros i Hi. rewrite Hw1. case_decide; [nia|done]. }
      split; [by rewrite <- Hsame|].
      intros i x Hi Hx. apply (Hmax' i); [done|]. by rewrite Hsame.
Qed.

(** Rows that each follow one influence are left as they are. *)
Lemma simplify_rows_fixed n :
  forall a w,
    (a + n) * stride <= length w ->
    (forall vtx, a <= vtx < a + n ->
       exists idx, idx < stride
         /\ py_slice w (vtx * stride) (vtx * stride + stride)
            = preweight idx stride) ->
    simplify_rows (seq a n) stride w = Ok w.
Proof using stride_pos.
  induction n as [|n IH]; intros a w Hlen Hrows; simpl; [done|].
  destruct (Hrows a) as (idx & Hidx & Hrow); [lia|]. rewrite Hrow.
  destruct (py_max_preweight idx stride Hidx) as [wmax ->]. simpl.
  rewrite follow_only_preweight, preweight_length.
  rewrite <- Hrow, py_set_slice_same.
  apply IH; [nia|]. intros vtx Hvtx. apply Hrows. lia.
Qed.

End Simplify.

(** X13.  For [numVertices * stride] weights with at least one influence,
    [__simplify_weights_fast] returns, and hands [skin.setWeights] as many
    weights as it read, in which the row of every vertex is [1.0] at one
    influence and [0.0] at the others; the weight the vertex had for that
    influence is one that none of its weights exceeded. *)
Theorem simplify_weights_fast_one_influence
    (numVertices stride : nat) (weights : list float) :
  0 < stride ->
  length weights = numVertices * stride ->
  exists weights',
    simplify_weights_fast numVertices stride weights = Ok weights'
    /\ length weights' = length weights
    /\ forall vtx, vtx < numVertices ->
         exists idx wmax,
           idx < stride
           /\ py_slice weights' (vtx * stride) (vtx * stride + stride)
              = preweight idx stride
           /\ weights !! (vtx * stride + idx) = Some wmax
           /\ forall i x, i < stride ->
                weights !! (vtx * stride + i) = Some x ->
                float_gt x wmax = false.
Proof.
  intros Hs Hlen.
  destruct (simplify_rows_spec stride Hs numVertices 0 weights)
    as (w' & Hrun & Hlen' & _ & Hrows); [simpl; lia|].
  exists w'. split; [done|]. split; [done|].
  intros vtx Hvtx. apply Hrows. lia.
Qed.

(** X14.  Simplifying simplified weights changes nothing:
    [__simplify_weights_fast] on the weights it has returned returns the
    same weights. *)
Theorem simplify_weights_fast_idempotent
    (numVertices stride : nat) (weights weights' : list float) :
  0 < stride ->
  length weights = numVertices * stride ->
  simplify_weights_fast numVertices stride weights = Ok weights' ->
  simplify_weights_fast numVertices stride weights' = Ok weights'.
Proof.
  intros Hs Hlen Hrun.
  destruct (simplify_rows_spec stride Hs numVertices 0 weights)
    as (w' & Hrun' & Hlen' & _ & Hrows); [simpl; lia|].
  unfold simplify_weights_fast in *. rewrite Hrun in Hrun'.
  injection Hrun' as <-.
  apply simplify_rows_fixed; [done|simpl; lia|].
  intros vtx Hvtx. destruct (Hrows vtx) as (idx & _ & Hidx & Hrow & _); [lia|].
  eauto.
Qed.

(** ** The joint map *)

Lemma first_influence_bounds i row j :
  first_influence i row = Some j -> i <= j < i + length row.
Proof.
  revert i. induction row as [|x row IH]; intros i; simpl; [done|].
  destruct (float_gt x F64.zero).
  - intros [= <-]. lia.
  - intros H%IH. lia.
Qed.

Lemma first_influence_preweight idx stride :
  idx < stride -> first_influence 0 (preweight idx stride) = Some idx.
Proof.
  intros Hidx. unfold preweight.
  assert (forall n a, a <= idx < a + n ->
            first_influence a
              (map (fun x => if decide (x = idx) then f_one else F64.zero) (seq a n))
            = Some idx) as H.
  { induction n as [|n IH]; intros a Ha; [lia|]. simpl.
    case_decide as Hx.
    - subst. reflexivity.
    - change (float_gt F64.zero F64.zero) with false. cbn iota.
      apply IH. lia. }
  apply H. lia.
Qed.

Lemma filter_seq_increasing (P : nat -> Prop) `{forall x, Decision (P x)} n :
  forall a b x y, a < b ->
    filter P (seq 0 n) !! a = Some x -> filter P (seq 0 n) !! b = Some y ->
    x < y.
Proof.
  induction n as [|n IH]; intros a b x y Hab; [done|].
  rewrite seq_S, filter_app. simpl.
  assert (forall k z, filter P (seq 0 n) !! k = Some z -> z < n) as Hlt.
  { intros k z Hz%list_elem_of_lookup_2%list_elem_of_filter.
    destruct Hz as [_ Hz%elem_of_seq]. lia. }
  intros Ha Hb.
  apply lookup_app_Some in Ha as [Ha|[Hla Ha]];
    apply lookup_app_Some in Hb as [Hb|[Hlb Hb]].
  - by eapply IH.
  - apply Hlt in Ha. apply list_elem_of_lookup_2, list_elem_of_filter in Hb.
    destruct Hb as [_ ->%list_elem_of_singleton]. done.
  - apply lookup_lt_Some in Hb. lia.
  - apply lookup_lt_Some in Ha, Hb.
    rewrite filter_cons in Ha, Hb. case_decide; simpl in *; lia.
Qed.

Lemma length_omap_filter {A B} (f : A -> option B) (l : list A) :
  length (omap f l) = length (filter (fun x => is_Some (f x)) l).
Proof.
  induction l as [|x l IH]; [done|].
  change (omap f (x :: l))
    with (match f x with Some y => y :: omap f l | None => omap f l end).
  destruct (f x) as [y|] eqn:Hx.
  - rewrite filter_cons_True by (rewrite Hx; eauto). simpl. by rewrite IH.
  - rewrite filter_cons_False by (rewrite Hx; by intros [? ?]). done.
Qed.

Section JointMap.
Variables (stride : nat) (weights : list float).

(** The two maps in closed form. *)
Lemma weight_maps_closed n :
  weight_maps n stride weights
  = (omap (owner stride weights) (seq 0 n),
     map (fun i => filter (fun v => owner stride weights v = Some i) (seq 0 n))
         (seq 0 stride)).
Proof.
  unfold weight_maps. induction n as [|n IH].
  - simpl. f_equal. apply list_eq. intros i.
    rewrite list_lookup_fmap. destruct (decide (i < stride)).
    + by rewrite lookup_replicate_2, lookup_seq_lt.
    + rewrite lookup_ge_None_2 by (rewrite length_replicate; lia).
      by rewrite lookup_seq_ge by lia.
  - rewrite seq_S, fold_left_app, IH. simpl.
    unfold assign_vertex. fold (owner stride weights n). simpl.
    rewrite omap_app. simpl.
    destruct (owner stride weights n) as [i|] eqn:Hown; simpl.
    + f_equal. apply list_eq. intros j.
      assert (i < stride) as Hi.
      { unfold owner in Hown. apply first_influence_bounds in Hown.
        unfold vtx_row in Hown. rewrite py_slice_length in Hown. lia. }
      destruct (decide (j = i)) as [->|Hne].
      * rewrite list_lookup_alter_eq, !list_lookup_fmap, lookup_seq_lt by done.
        simpl. rewrite filter_app, filter_cons_True by done. done.
      * rewrite list_lookup_alter_ne, !list_lookup_fmap by done.
        destruct (seq 0 stride !! j) as [j'|] eqn:Hj; [|done]. simpl.
        apply lookup_seq in Hj as [-> _]. simpl.
        rewrite filter_app, filter_cons_False, app_nil_r by congruence. done.
    + rewrite app_nil_r. f_equal. apply list_eq. intros j.
      rewrite !list_lookup_fmap.
      destruct (seq 0 stride !! j) as [j'|] eqn:Hj; [|done]. simpl.
      rewrite filter_app, filter_cons_False, app_nil_r by congruence. done.
Qed.

(** X15.  The weight association of [write].  [joint_map] has one list per
    influence; a vertex is in the list of influence [i] if and only if it
    is a vertex of the mesh and [i] is the first influence whose weight on
    it is positive, so no vertex is in two lists; each list is without
    duplicates and in increasing order; [weight_map] holds, in vertex
    order, the influence of every vertex that has one. *)
Theorem write_joint_map_partitions (n : nat) :
  let weight_map := (weight_maps n stride weights).1 in
  let joint_map := (weight_maps n stride weights).2 in
  length joint_map = stride
  /\ (forall i l v, joint_map !! i = Some l ->
        (v ∈ l <-> v < n /\ owner stride weights v = Some i))
  /\ (forall i i' l l' v, joint_map !! i = Some l -> joint_map !! i' = Some l' ->
        v ∈ l -> v ∈ l' -> i = i')
  /\ (forall i l, joint_map !! i = Some l ->
        NoDup l
        /\ forall a b x y, a < b -> l !! a = Some x -> l !! b = Some y -> x < y)
  /\ weight_map = omap (owner stride weights) (seq 0 n)
  /\ length weight_map
     = length (filter (fun v => is_Some (owner stride weights v)) (seq 0 n)).
Proof.
  rewrite weight_maps_closed. simpl.
  assert (forall i l,
            map (fun i => filter (fun v => owner stride weights v = Some i) (seq 0 n))
                (seq 0 stride) !! i = Some l ->
            l = filter (fun v => owner stride weights v = Some i) (seq 0 n)) as Hrow.
  { intros i l. rewrite list_lookup_fmap.
    destruct (seq 0 stride !! i) as [i'|] eqn:Hi; [|done].
    apply lookup_seq in Hi as [-> _]. by intros [= <-]. }
  split; [by rewrite length_map, length_seq|]. split; [|split; [|split; [|split]]].
  - intros i l v ->%Hrow. rewrite list_elem_of_filter, elem_of_seq.
    split; [intros [? ?]; split; [lia|done]|intros [? ?]; split; [done|lia]].
  - intros i i' l l' v ->%Hrow ->%Hrow [Hi _]%list_elem_of_filter
      [Hi' _]%list_elem_of_filter. congruence.
  - intros i l ->%Hrow. split; [apply NoDup_filter, NoDup_seq|].
    apply filter_seq_increasing.
  - done.
  - apply length_omap_filter.
Qed.

End JointMap.

(** ** From the skin to the deformer *)

(** X16.  After [__simplify_weights_fast], the weight association of
    [write] leaves no vertex out: [weight_map] has one entry per vertex,
    and every vertex is in the list of exactly one joint, a joint whose
    weight on the vertex, before the simplification, none of the
    vertex's weights exceeded. *)
Theorem simplified_weights_give_every_vertex_a_joint
    (numVertices stride : nat) (weights weights' : list float) :
  0 < stride ->
  length weights = numVertices * stride ->
  simplify_weights_fast numVertices stride weights = Ok weights' ->
  let weight_map := (weight_maps numVertices stride weights').1 in
  let joint_map := (weight_maps numVertices stride weights').2 in
  length weight_map = numVertices
  /\ forall v, v < numVertices ->
       exists i l wmax,
         joint_map !! i = Some l /\ v ∈ l
         /\ (forall i' l', joint_map !! i' = Some l' -> v ∈ l' -> i' = i)
         /\ weights !! (v * stride + i) = Some wmax
         /\ (forall j x, j < stride -> weights !! (v * stride + j) = Some x ->
               float_gt x wmax = false).
Proof.
  intros Hs Hlen Hrun.
  destruct (simplify_rows_spec stride Hs numVertices 0 weights)
    as (w' & Hrun' & Hlen' & _ & Hrows); [simpl; lia|].
  unfold simplify_weights_fast in Hrun. rewrite Hrun in Hrun'.
  injection Hrun' as <-.
  assert (forall v, v < numVertices ->
            exists i wmax, i < stride /\ owner stride weights' v = Some i
              /\ weights !! (v * stride + i) = Some wmax
              /\ (forall j x, j < stride -> weights !! (v * stride + j) = Some x ->
                    float_gt x wmax = false)) as Hown.
  { intros v Hv. destruct (Hrows v) as (idx & wmax & Hidx & Hrow & Hw & Hmax); [lia|].
    exists idx, wmax. split; [done|]. split; [|done].
    unfold owner, vtx_row. rewrite Hrow. by apply first_influence_preweight. }
  rewrite weight_maps_closed. simpl. split.
  - rewrite length_omap_filter, filter_all, length_seq; [done|].
    apply Forall_forall. intros v [_ Hv]%elem_of_seq.
    destruct (Hown v) as (i & ? & _ & -> & _); [lia|]. eauto.
  - intros v Hv. destruct (Hown v Hv) as (i & wmax & Hi & Ho & Hw & Hmax).
    exists i, (filter (fun v => owner stride weights' v = Some i) (seq 0 numVertices)), wmax.
    split; [|split; [|split; [|done]]].
    + rewrite list_lookup_fmap, lookup_seq_lt by done. done.
    + apply list_elem_of_filter. split; [done|]. apply elem_of_seq. lia.
    + intros i' l'. rewrite list_lookup_fmap.
      destruct (seq 0 stride !! i') as [i''|] eqn:Hi'; [|done].
      apply lookup_seq in Hi' as [-> _]. simpl.
      intros [= <-] [Ho' _]%list_elem_of_filter. congruence.
Qed.

(** X17.  A vertex list that [write] records for a joint can be scattered
    by [deform] into a buffer of three scalars per vertex of the same
    mesh: the scatter loop completes, the triple of the vertex at position
    [k] is the triple at position [k] of the prediction, and the triples
    of the vertices of every other joint are as they were. *)
Theorem written_joint_map_scatters
    (numVertices stride : nat) (weights : list float)
    (i : nat) (l : list nat) (prediction d : ndarray) :
  (weight_maps numVertices stride weights).2 !! i = Some l ->
  length prediction = 3 * length l ->
  length d = 3 * numVertices ->
  exists d',
    scatter 0 l prediction d = Ok d'
    /\ (forall k v, l !! k = Some v ->
          py_slice d' (v * 3) (v * 3 + 3)
            = py_slice prediction (k * 3) (k * 3 + 3))
    /\ (forall i' l' v c, i' <> i ->
          (weight_maps numVertices stride weights).2 !! i' = Some l' ->
          v ∈ l' -> c < 3 -> d' !! (v * 3 + c) = d !! (v * 3 + c)).
Proof.
  rewrite weight_maps_closed. simpl. intros Hl Hp Hd.
  assert (forall j lj,
            map (fun i => filter (fun v => owner stride weights v = Some i)
                            (seq 0 numVertices)) (seq 0 stride) !! j = Some lj ->
            lj = filter (fun v => owner stride weights v = Some j)
                   (seq 0 numVertices)) as Hrow.
  { intros j lj. rewrite list_lookup_fmap.
    destruct (seq 0 stride !! j) as [j'|] eqn:Hj; [|done].
    apply lookup_seq in Hj as [-> _]. by intros [= <-]. }
  apply Hrow in Hl as Hl'.
  assert (forall v, v ∈ l -> v < numVertices /\ owner stride weights v = Some i) as Hmem.
  { intros v. rewrite Hl'. intros [Ho Hv%elem_of_seq]%list_elem_of_filter.
    split; [lia|done]. }
  assert (NoDup l) as Hnd by (rewrite Hl'; apply NoDup_filter, NoDup_seq).
  destruct (scatter 0 l prediction d) as [d'|x] eqn:Hs.
  2:{ assert (is_ok (scatter 0 l prediction d) = true) as Hok.
      { apply scatter_ok_iff; [simpl; lia|].
        intros v [Hv _]%Hmem. lia. }
      by rewrite Hs in Hok. }
  exists d'. split; [done|]. split.
  - intros k v Hk.
    eapply (scatter_last 0 l prediction d d' k v) in Hs as [Hs _]; [done|done| |].
    + intros k' Hk' Hv. pose proof (NoDup_lookup _ _ _ _ Hnd Hk Hv). lia.
    + apply lookup_lt_Some in Hk. simpl. lia.
  - intros i' l' v c Hne ->%Hrow [Ho _]%list_elem_of_filter Hc.
    eapply scatter_outside; [done|].
    intros vtx [_ Hvtx]%Hmem.
    assert (vtx <> v) by congruence. lia.
Qed.

(** ** The rows of the training data *)

Lemma csv_heading_length verts : length (csv_heading verts) = 7 + 3 * length verts.
Proof.
  unfold csv_heading.
  assert (forall h, length (fold_left
            (fun heading v =>
               heading ++ ["vtx" +:+ pretty v +:+ "x"; "vtx" +:+ pretty v +:+ "y";
                           "vtx" +:+ pretty v +:+ "z"]) verts h)
          = length h + 3 * length verts) as H.
  { induction verts as [|v verts IH]; intros h; simpl; [lia|].
    rewrite IH, length_app. simpl. lia. }
  by rewrite H.
Qed.

Lemma add_displacements_spec points target_points vertices :
  forall data,
    (forall v, v ∈ vertices -> v < length points /\ v < length target_points) ->
    exists row,
      add_displacements points target_points vertices data = Ok (data ++ row)
      /\ length row = 3 * length vertices
      /\ forall k v mpoint tpoint,
           vertices !! k = Some v -> points !! v = Some mpoint ->
           target_points !! v = Some tpoint ->
           py_slice row (k * 3) (k * 3 + 3) = displacement tpoint mpoint.
Proof.
  induction vertices as [|vtx vertices IH]; intros data Hin; simpl.
  - exists []. by rewrite app_nil_r.
  - destruct (Hin vtx) as [Hp Ht]; [by left|].
    apply lookup_lt_is_Some_2 in Hp as [mpoint Hp], Ht as [tpoint Ht].
    unfold index_list. rewrite Hp, Ht. simpl.
    destruct (IH (data ++ displacement tpoint mpoint)) as (row & -> & Hlen & Hrow).
    { intros v Hv. apply Hin. by right. }
    exists (displacement tpoint mpoint ++ row). split; [by rewrite app_assoc|].
    split; [rewrite length_app; simpl; lia|].
    intros k v mp tp Hk Hmp Htp. destruct k as [|k]; simpl in Hk.
    + injection Hk as <-. rewrite Hp in Hmp. rewrite Ht in Htp.
      injection Hmp as <-. injection Htp as <-. reflexivity.
    + specialize (Hrow k v mp tp Hk Hmp Htp).
      rewrite <- Hrow. unfold py_slice.
      replace (S k * 3) with (3 + k * 3) by lia.
      replace (3 + k * 3 + 3 - (3 + k * 3)) with (k * 3 + 3 - k * 3) by lia.
      f_equal.
Qed.

Lemma add_displacements_raises points target_points vertices data x :
  add_displacements points target_points vertices data = Raise x ->
  x = IndexError
  /\ exists v, v ∈ vertices /\ (length points <= v \/ length target_points <= v).
Proof.
  revert data. induction vertices as [|vtx vertices IH]; intros data; simpl; [done|].
  unfold index_list.
  destruct (points !! vtx) as [mp|] eqn:Hp; simpl.
  - destruct (target_points !! vtx) as [tp|] eqn:Ht; simpl.
    + intros (-> & v & Hv & Hout)%IH. split; [done|]. exists v. split; [by right|done].
    + intros [= <-]. split; [done|]. exists vtx. split; [by left|].
      right. by apply lookup_ge_None.
  - intros [= <-]. split; [done|]. exists vtx. split; [by left|].
    left. by apply lookup_ge_None.
Qed.

Section Rows.
Variable tf : TFRuntime.

(** X18.  When every vertex of a joint is a vertex of the mesh and of the
    target, the row that [write] appends for the joint on a frame has as
    many columns as the heading of the joint's CSV file, seven and three
    per vertex: the quaternion and the translation of the joint, then for
    the vertex at position [k] the three differences
    [target_point - mesh_point] in binary64. *)
Theorem frame_row_matches_heading
    (xform : Matrix) (points target_points : list Point) (vertices : list nat) :
  (forall v, v ∈ vertices -> v < length points /\ v < length target_points) ->
  exists row,
    frame_row xform points target_points vertices = Ok row
    /\ length row = length (csv_heading vertices)
    /\ length row = 7 + 3 * length vertices
    /\ take 7 row = [rot_x xform; rot_y xform; rot_z xform; rot_w xform;
                     tr_x xform; tr_y xform; tr_z xform]
    /\ (forall k v mpoint tpoint,
          vertices !! k = Some v -> points !! v = Some mpoint ->
          target_points !! v = Some tpoint ->
          py_slice row (7 + k * 3) (7 + k * 3 + 3)
            = [F64.sub (px tpoint) (px mpoint); F64.sub (py tpoint) (py mpoint);
               F64.sub (pz tpoint) (pz mpoint)]).
Proof.
  intros Hin. unfold frame_row. simpl.
  destruct (add_displacements_spec points target_points vertices
              [rot_x xform; rot_y xform; rot_z xform; rot_w xform;
               tr_x xform; tr_y xform; tr_z xform] Hin) as (row & -> & Hlen & Hrow).
  eexists. split; [done|]. rewrite csv_heading_length, length_app. simpl.
  split; [lia|]. split; [lia|]. split; [done|].
  intros k v mp tp Hk Hmp Htp.
  etrans; [|exact (Hrow k v mp tp Hk Hmp Htp)].
  unfold py_slice.
  replace (7 + k * 3 + 3 - (7 + k * 3)) with (k * 3 + 3 - k * 3) by lia.
  f_equal.
Qed.

(** X19.  What the deformer feeds a model that is not normalised is what
    the writer wrote: for a joint transform with the quaternion and the
    translation of the matrix, every session run of the prediction feeds
    the first seven columns of the row written for that transform. *)
Theorem unnormalized_model_is_fed_the_row_prefix
    (model : TFModel) (xform : Matrix) (points target_points : list Point)
    (vertices : list nat) (row : list float) (e : event) :
  normalized model = false ->
  frame_row xform points target_points vertices = Ok row ->
  e ∈ predict_events tf model xform ->
  e = SessionRun (session model) [take 7 row].
Proof.
  intros Hn Hrow. unfold frame_row in Hrow. simpl in Hrow.
  assert (take 7 row = [rot_x xform; rot_y xform; rot_z xform; rot_w xform;
                        tr_x xform; tr_y xform; tr_z xform]) as ->.
  { destruct (add_displacements points target_points vertices _) as [r|] eqn:H;
      [|done]. injection Hrow as <-.
    assert (forall vs data r, add_displacements points target_points vs data = Ok r ->
              exists rest, r = data ++ rest) as Hpre.
    { clear. induction vs as [|v vs IH]; intros data r; simpl.
      - intros [= <-]. exists []. by rewrite app_nil_r.
      - destruct (index_list points v); [|done]. simpl.
        destruct (index_list target_points v); [|done]. simpl.
        intros (rest & ->)%IH. rewrite <- app_assoc. eauto. }
    apply Hpre in H as (rest & ->). done. }
  unfold predict_events, predict, bind, lift, ret, emit, modify.
  rewrite Hn. simpl.
  repeat (case_scrutinee; simpl);
    intros [->|?%elem_of_nil]%elem_of_cons; done.
Qed.

End Rows.

(** X20.  When the row of a joint cannot be built, the exception is
    [IndexError], and the joint has a vertex that the mesh or the target
    does not have. *)
Theorem frame_row_needs_vertices_in_both_meshes
    (xform : Matrix) (points target_points : list Point) (vertices : list nat)
    (x : exn) :
  frame_row xform points target_points vertices = Raise x ->
  x = IndexError
  /\ exists v, v ∈ vertices
       /\ (length points <= v \/ length target_points <= v).
Proof. unfold frame_row. apply add_displacements_raises. Qed.

(** ** The layers of a joint's model *)

Lemma add_layers_map jc vc units input_dim activation n k :
  forall model,
    fold_left (add_layer jc vc units input_dim activation n) (seq 0 k) model
    = model ++ map (fun layer =>
                 if decide (layer = 0) then
                   mkDense units (Some jc) activation "input_node"
                 else if decide (layer = n - 1) then
                   mkDense vc None "linear" "output_node"
                 else mkDense units (Some input_dim) activation
                        ("dense_layer_" +:+ pretty layer)) (seq 0 k).
Proof.
  induction k as [|k IH]; intros model; [simpl; by rewrite app_nil_r|].
  rewrite seq_S, fold_left_app, map_app, IH. simpl.
  unfold add_layer at 1.
  repeat case_decide; by rewrite <- app_assoc.
Qed.

(** X21.  [get_model] adds [max(layers, 2)] layers, at least two, whatever
    [layers] is asked for: the first is the input node, with [units] units
    and as many inputs as the joint data has columns; the last is the
    output node, linear, with one unit per column of the vertex data; each
    layer [k] between them is [dense_layer_k] with [units] units and
    [input_dim] inputs.  No other layer is named as the output node. *)
Theorem get_model_layers
    (joint_columns verts_columns : nat) (layers : Z)
    (activation : string) (units input_dim : nat) :
  let model :=
    (get_model joint_columns verts_columns layers activation units input_dim).1.1 in
  let n := Z.to_nat (2 `max` layers)%Z in
  length model = n
  /\ 2 <= length model
  /\ model !! 0 = Some (mkDense units (Some joint_columns) activation "input_node")
  /\ model !! (n - 1) = Some (mkDense verts_columns None "linear" "output_node")
  /\ (forall k, 0 < k < n - 1 ->
        model !! k = Some (mkDense units (Some input_dim) activation
                             ("dense_layer_" +:+ pretty k)))
  /\ (forall k layer, model !! k = Some layer ->
        dense_name layer = "output_node" -> k = n - 1).
Proof.
  unfold get_model.
  set (n := Z.to_nat (2 `max` layers)%Z).
  assert (2 <= n) as Hn by (unfold n; lia).
  assert ((if decide (layers < 2)%Z
           then (2%Z, ["A minimum of 2 layers is required"])
           else (layers, [])).1 = Z.of_nat n) as Hl.
  { unfold n. case_decide; simpl; lia. }
  destruct (if decide (layers < 2)%Z then _ else _) as [l ws]. simpl in Hl.
  subst l. rewrite Nat2Z.id. cbn [fst].
  rewrite add_layers_map. simpl app.
  assert (forall k, k < n ->
            map (fun layer =>
                 if decide (layer = 0) then
                   mkDense units (Some joint_columns) activation "input_node"
                 else if decide (layer = n - 1) then
                   mkDense verts_columns None "linear" "output_node"
                 else mkDense units (Some input_dim) activation
                        ("dense_layer_" +:+ pretty layer)) (seq 0 n) !! k
            = Some (if decide (k = 0) then
                   mkDense units (Some joint_columns) activation "input_node"
                 else if decide (k = n - 1) then
                   mkDense verts_columns None "linear" "output_node"
                 else mkDense units (Some input_dim) activation
                        ("dense_layer_" +:+ pretty k))) as Hk.
  { intros k Hk. by rewrite list_lookup_fmap, lookup_seq_lt. }
  split; [by rewrite length_map, length_seq|].
  split; [by rewrite length_map, length_seq|].
  split; [by rewrite Hk by lia|].
  split; [rewrite Hk by lia; repeat case_decide; done || lia|].
  split.
  - intros k Hkn. rewrite Hk by lia. repeat case_decide; done || lia.
  - intros k layer Hlayer Hname.
    assert (k < n) as Hkn.
    { apply lookup_lt_Some in Hlayer. by rewrite length_map, length_seq in Hlayer. }
    rewrite Hk in Hlayer by done. injection Hlayer as <-.
    repeat case_decide; simpl in Hname; done.
Qed.

(** ** A clean node *)

Section Clean.
Variable fs : string -> file.
Variable tf : TFRuntime.

(** X22.  A clean node stays clean.  Over any sequence of calls of the host,
    evaluations included, none of which signals the path attribute, the
    node keeps its cached path, its flag and its registry, and it logs
    nothing, opens no file and restores no graph: all it adds to the trace
    are transform reads and session runs. *)
Theorem clean_node_never_reloads (cs : list HostCall) (w : World) :
  location_changed (self w) = false ->
  Forall keeps_path cs ->
  self (host_calls fs tf cs w) = self w
  /\ exists evs,
       trace (host_calls fs tf cs w) = trace w ++ evs
       /\ Forall is_dispatch_event evs.
Proof.
  intros Hclean Hcs. revert w Hclean.
  induction Hcs as [|c cs Hc Hcs IH]; intros w Hclean; simpl.
  { split; [done|]. exists []. by rewrite app_nil_r. }
  set (w1 := (host_call fs tf c w).2).
  assert (self w1 = self w
          /\ exists evs, trace w1 = trace w ++ evs /\ Forall is_dispatch_event evs)
    as (Hs1 & evs1 & Ht1 & He1).
  { unfold w1. destruct c as [plug|dirty|data g]; simpl in *.
    - rewrite setDependentsDirty_spec. simpl. case_decide; [done|].
      split; [done|]. exists []. by rewrite app_nil_r.
    - rewrite preEvaluation_spec. simpl. case_decide; [done|].
      split; [done|]. exists []. by rewrite app_nil_r.
    - unfold bind, set_geometry, modify.
      destruct (deform_self fs tf data (mkWorld (self w) (trace w) g))
        as (-> & evs & -> & Hev).
      unfold reloaded. simpl. rewrite Hclean. simpl. split; [done|].
      exists evs. split; [done|].
      eapply Forall_impl; [exact Hev|]. intros [] ?; done. }
  destruct (IH w1) as (Hs & evs & Ht & He); [congruence|].
  split; [congruence|]. exists (evs1 ++ evs).
  rewrite Ht, Ht1, app_assoc. split; [done|]. by apply Forall_app.
Qed.

End Clean.

(** ** Weights set to one influence *)

Lemma full_weights_length i stride n :
  length (full_weights i stride n) = n * stride.
Proof.
  unfold full_weights. induction n as [|n IH]; [done|].
  simpl. rewrite length_app, preweight_length, IH. lia.
Qed.

Lemma full_weights_row i stride n vtx :
  vtx < n ->
  py_slice (full_weights i stride n) (vtx * stride) (vtx * stride + stride)
  = preweight i stride.
Proof.
  revert vtx. induction n as [|n IH]; intros vtx Hvtx; [lia|].
  unfold full_weights. cbn [py_repeat]. fold (full_weights i stride n).
  unfold py_slice.
  replace (vtx * stride + stride - vtx * stride) with stride by lia.
  destruct vtx as [|vtx].
  - rewrite Nat.mul_0_l, drop_0, take_app_length'; [done|].
    by rewrite preweight_length.
  - replace (S vtx * stride) with (stride + vtx * stride) by lia.
    rewrite <- drop_drop, drop_app_length' by (by rewrite preweight_length).
    specialize (IH vtx ltac:(lia)). unfold py_slice in IH.
    replace (vtx * stride + stride - vtx * stride) with stride in IH by lia.
    done.
Qed.

(** X23.  The weights [preweights[i] * numVerts] that [__simplify_weights]
    sets to measure influence [i] hold [numVerts * stride] scalars, are
    left as they are by [__simplify_weights_fast], and make the weight
    association of [write] give every vertex of the mesh, in order, to
    joint [i]. *)
Theorem full_weights_follow_one_influence (i stride numVerts : nat) :
  i < stride ->
  length (full_weights i stride numVerts) = numVerts * stride
  /\ simplify_weights_fast numVerts stride (full_weights i stride numVerts)
     = Ok (full_weights i stride numVerts)
  /\ (weight_maps numVerts stride (full_weights i stride numVerts)).2 !! i
     = Some (seq 0 numVerts).
Proof.
  intros Hi. split; [apply full_weights_length|]. split.
  - apply simplify_rows_fixed; [lia|rewrite full_weights_length; simpl; lia|].
    intros vtx Hvtx. exists i. split; [done|]. apply full_weights_row. lia.
  - rewrite weight_maps_closed. simpl.
    rewrite list_lookup_fmap, lookup_seq_lt by done. simpl. f_equal.
    apply filter_all, Forall_forall. intros v [_ Hv]%elem_of_seq.
    unfold owner, vtx_row. rewrite full_weights_row by lia.
    by apply first_influence_preweight.
Qed.

(** ** The properties on concrete inputs *)

(** X1 at [Ex.values] under [Ex.unit_bounds]. *)
Lemma codec_results_are_numbers_witness :
  exists a a',
    ({[0 := Ex.values]} : heap) !! 0 = Some a
    /\ (normalize_transform 0 Ex.unit_bounds {[0 := Ex.values]}).2 !! 0 = Some a'
    /\ forall i x, length a - 3 <= i -> a' !! i = Some x ->
         F64.is_finite x = true.
Proof.
  apply (proj2 (codec_results_are_numbers Ex.unit_bounds {[0 := Ex.values]}
                  (normalize_transform 0 Ex.unit_bounds {[0 := Ex.values]}).2 0 0)).
  vm_compute. reflexivity.
Defined.

(** X2 at [ExT.prediction] under [Ex.unit_bounds]. *)
Lemma denormalize_prediction_elements_witness :
  exists p',
    denormalize_prediction 0 Ex.unit_bounds {[0 := ExT.prediction]}
      = (Ok (fresh (dom ({[0 := ExT.prediction]} : heap))),
         <[fresh (dom ({[0 := ExT.prediction]} : heap)) := p']>
           {[0 := ExT.prediction]})
    /\ length p' = 6.
Proof.
  destruct (denormalize_prediction_elements {[0 := ExT.prediction]} 0
              ExT.prediction
              [Ex.f 1; Ex.f 1; Ex.f 1; Ex.f 1; Ex.f 1; Ex.f 1]
              [Ex.f 0; Ex.f 0; Ex.f 0; Ex.f 0; Ex.f 0; Ex.f 0]
              Ex.unit_bounds)
    as (p' & Hrun & Hlen & _); try reflexivity.
  exists p'. split; [exact Hrun|exact Hlen].
Defined.

(** X4 at [ExT.hollow], whose only entry is [{}]: the load returns and
    the slot is empty. *)
Lemma loaded_registry_mirrors_manifest_witness :
  length (loaded ExT.hollow_fs Ex.tf "/training/output_data.json") = 1
  /\ loaded ExT.hollow_fs Ex.tf "/training/output_data.json" !! 0 = Some None.
Proof.
  destruct (loaded_registry_mirrors_manifest ExT.hollow_fs Ex.tf
              "/training/output_data.json" ExT.hollow
              [Some ExT.no_key]) as [Hlen Hslots].
  - reflexivity.
  - reflexivity.
  - vm_compute. reflexivity.
  - split; [exact Hlen|]. exact (Hslots 0).
Defined.

(** X3 at [ExT.no_joint_map]: two empty slots, then [KeyError]. *)
Lemma load_without_joint_map_witness :
  loadModels ExT.fs Ex.tf "/training/output_data.json" Ex.start
  = (Raise KeyError,
     mkWorld (mkNode (Some "/training/output_data.json") true [None; None])
       [LogInfo "Loading models from /training/output_data.json";
        OpenFile "/training/output_data.json"]
       Ex.mesh).
Proof.
  apply (load_without_joint_map ExT.fs Ex.tf "/training/output_data.json"
           ExT.no_joint_map
           [None; Some ExT.no_key; Some (Ex.entry "joint0.meta")] Ex.start);
    reflexivity.
Defined.

(** X5 at two vertices and a buffer of nine scalars. *)
Lemma scatter_needs_vertices_in_range_witness :
  (is_ok (scatter 0 [0; 1] ExT.prediction (np_zeros 9)) = true
     <-> forall v, v ∈ [0; 1] -> v * 3 + 3 <= length (np_zeros 9))
  /\ (forall x, scatter 0 [0; 1] ExT.prediction (np_zeros 9) = Raise x ->
        x = ValueError).
Proof.
  apply (scatter_needs_vertices_in_range [0; 1] ExT.prediction (np_zeros 9)).
  reflexivity.
Defined.

(** X6 at two vertices and a buffer of nine scalars. *)
Lemma scatter_places_every_triple_witness :
  exists d',
    scatter 0 [0; 1] ExT.prediction (np_zeros 9) = Ok d'
    /\ length d' = 9.
Proof.
  destruct (scatter_places_every_triple [0; 1] ExT.prediction (np_zeros 9))
    as (d' & Hrun & Hlen & _).
  - reflexivity.
  - repeat constructor; intros H; apply list_elem_of_In in H; simpl in H; lia.
  - intros v Hv. apply list_elem_of_In in Hv. simpl in Hv. simpl. lia.
  - exists d'. split; [exact Hrun|exact Hlen].
Defined.

(** X7 at [Ex.model0] and the identity matrix. *)
Lemma predict_feeds_one_row_of_seven_witness :
  exists row,
    SessionRun 10 [[Ex.f 0; Ex.f 0; Ex.f 0; Ex.f 1; Ex.f 0; Ex.f 0; Ex.f 0]]
      = SessionRun (session Ex.model0) [row]
    /\ length row = 7.
Proof.
  destruct (predict_feeds_one_row_of_seven Ex.tf Ex.model0 Ex.identity
              (SessionRun 10 [[Ex.f 0; Ex.f 0; Ex.f 0; Ex.f 1;
                               Ex.f 0; Ex.f 0; Ex.f 0]]))
    as (row & He & Hlen & _).
  - vm_compute. left.
  - exists row. split; [exact He|exact Hlen].
Defined.

(** X8 at [Ex.manifest]: vertex 0, listed by slot 0 only, is moved by the
    first triple of its prediction. *)
Lemma deform_moves_listed_vertex_witness :
  geometry (deform Ex.fs Ex.tf (Ex.data "/training/output_data.json")
              Ex.start).2 !! 0
  = Some (0, {| px := Ex.f 1; py := Ex.f 2; pz := Ex.f 3 |}).
Proof.
  etrans.
  - apply (deform_moves_listed_vertex Ex.fs Ex.tf
             (Ex.data "/training/output_data.json") Ex.start
             (deform Ex.fs Ex.tf (Ex.data "/training/output_data.json")
                Ex.start).2
             0 0 Ex.origin 0 0 Ex.model0 Ex.identity ExT.prediction).
    + vm_compute. reflexivity.
    + reflexivity.
    + vm_compute. reflexivity.
    + reflexivity.
    + reflexivity.
    + repeat constructor; intros H; apply list_elem_of_In in H; simpl in H; lia.
    + intros j' m' Hj' Hm' Hv. vm_compute in Hm'.
      destruct j' as [|[|[|j']]]; simpl in Hm'; try discriminate; try lia.
      injection Hm' as <-. apply list_elem_of_In in Hv. simpl in Hv. lia.
    + vm_compute. reflexivity.
    + reflexivity.
  - vm_compute. reflexivity.
Defined.

(** X9 at [Ex.manifest] and a mesh of one vertex. *)
Lemma deform_rejects_vertex_outside_mesh_witness :
  (exists x, (deform Ex.fs Ex.tf ExT.small Ex.start).1 = Raise x)
  /\ geometry (deform Ex.fs Ex.tf ExT.small Ex.start).2 = geometry Ex.start.
Proof.
  apply (deform_rejects_vertex_outside_mesh Ex.fs Ex.tf ExT.small Ex.start
           0 Ex.model0 Ex.identity ExT.prediction 1).
  - vm_compute. reflexivity.
  - reflexivity.
  - vm_compute. reflexivity.
  - reflexivity.
  - apply list_elem_of_In. simpl. auto.
  - simpl. lia.
Defined.

(** X22 at [Ex.ready]: a signal on the matrices, then an evaluation. *)
Lemma clean_node_never_reloads_witness :
  self (host_calls Ex.fs Ex.tf
          [CallSetDependentsDirty in_mats;
           CallDeform (Ex.data "/training/output_data.json") Ex.mesh]
          Ex.ready)
  = self Ex.ready.
Proof.
  apply (clean_node_never_reloads Ex.fs Ex.tf
           [CallSetDependentsDirty in_mats;
            CallDeform (Ex.data "/training/output_data.json") Ex.mesh]
           Ex.ready).
  - reflexivity.
  - repeat constructor. simpl. discriminate.
Defined.

(** X11 at [ExT.numbered]: [|joint1] alone is returned, and [|joint10]
    starts with it. *)
Lemma get_joints_covers_witness :
  get_joints ExT.numbered None = ["|joint1"]
  /\ exists r,
       r ∈ get_joints ExT.numbered None /\ startswith "|joint10" r = true.
Proof.
  split; [reflexivity|].
  apply (get_joints_covers ExT.numbered None "|joint10").
  apply list_elem_of_In. simpl. auto.
Defined.

(** X13 at [ExT.weights]. *)
Lemma simplify_weights_fast_one_influence_witness :
  exists weights',
    simplify_weights_fast 2 2 ExT.weights = Ok weights'
    /\ length weights' = length ExT.weights.
Proof.
  destruct (simplify_weights_fast_one_influence 2 2 ExT.weights)
    as (w' & Hrun & Hlen & _).
  - lia.
  - reflexivity.
  - exists w'. split; [exact Hrun|exact Hlen].
Defined.

(** X14 at [ExT.weights], simplified to [ExT.simple]. *)
Lemma simplify_weights_fast_idempotent_witness :
  simplify_weights_fast 2 2 ExT.simple = Ok ExT.simple.
Proof.
  apply (simplify_weights_fast_idempotent 2 2 ExT.weights ExT.simple).
  - lia.
  - reflexivity.
  - vm_compute. reflexivity.
Defined.

(** X16 at [ExT.weights]. *)
Lemma simplified_weights_give_every_vertex_a_joint_witness :
  length (weight_maps 2 2 ExT.simple).1 = 2.
Proof.
  destruct (simplified_weights_give_every_vertex_a_joint 2 2 ExT.weights
              ExT.simple) as [Hlen _].
  - lia.
  - reflexivity.
  - vm_compute. reflexivity.
  - exact Hlen.
Defined.

(** X17 at [ExT.weights], whose first joint has both vertices. *)
Lemma written_joint_map_scatters_witness :
  exists d', scatter 0 [0; 1] ExT.prediction (np_zeros 6) = Ok d'.
Proof.
  destruct (written_joint_map_scatters 2 2 ExT.weights 0 [0; 1]
              ExT.prediction (np_zeros 6)) as (d' & Hrun & _).
  - vm_compute. reflexivity.
  - reflexivity.
  - reflexivity.
  - exists d'. exact Hrun.
Defined.

(** X18 at [ExT.points] and [ExT.target]. *)
Lemma frame_row_matches_heading_witness :
  exists row,
    frame_row Ex.identity ExT.points ExT.target [0; 1] = Ok row
    /\ length row = length (csv_heading [0; 1]).
Proof.
  destruct (frame_row_matches_heading Ex.identity ExT.points ExT.target [0; 1])
    as (row & Hrun & Hlen & _).
  - intros v Hv. apply list_elem_of_In in Hv. simpl in Hv. simpl. lia.
  - exists row. split; [exact Hrun|exact Hlen].
Defined.

(** X19 at [Ex.model0] and the identity matrix. *)
Lemma unnormalized_model_is_fed_the_row_prefix_witness :
  SessionRun 10 [[Ex.f 0; Ex.f 0; Ex.f 0; Ex.f 1; Ex.f 0; Ex.f 0; Ex.f 0]]
  = SessionRun (session Ex.model0)
      [take 7 [Ex.f 0; Ex.f 0; Ex.f 0; Ex.f 1; Ex.f 0; Ex.f 0; Ex.f 0;
               Ex.f 1; Ex.f 0; Ex.f 0; Ex.f 0; Ex.f 2; Ex.f 0]].
Proof.
  apply (unnormalized_model_is_fed_the_row_prefix Ex.tf Ex.model0 Ex.identity
           ExT.points ExT.target [0; 1]).
  - reflexivity.
  - vm_compute. reflexivity.
  - vm_compute. left.
Defined.

(** X20 at a target of one point for a joint of two vertices. *)
Lemma frame_row_needs_vertices_in_both_meshes_witness :
  IndexError = IndexError
  /\ exists v, v ∈ [0; 1]
       /\ (length ExT.points <= v \/ length (take 1 ExT.target) <= v).
Proof.
  apply (frame_row_needs_vertices_in_both_meshes Ex.identity ExT.points
           (take 1 ExT.target) [0; 1] IndexError).
  vm_compute. reflexivity.
Defined.

(** X23 at influence 1 of two, three vertices. *)
Lemma full_weights_follow_one_influence_witness :
  (weight_maps 3 2 (full_weights 1 2 3)).2 !! 1 = Some (seq 0 3).
Proof.
  destruct (full_weights_follow_one_influence 1 2 3) as (_ & _ & H).
  - lia.
  - exact H.
Defined.
